(** * go-selfupdate: the update orchestrator, its check schedule and its verifier

    A shallow embedding of [selfupdate/selfupdate.go] (package [selfupdate]).
    Go strings are byte strings ([string]), byte slices are [list byte]
    (the nil slice and the empty slice are both [[]]: the package only takes
    their length and compares them with [bytes.Equal]), [time.Time] and
    [time.Duration] are integers counting nanoseconds, and a method on
    [*Updater] is a computation in a state monad whose state holds the
    receiver together with the machine the program runs on (file system,
    clock, network, installer) and the trace of what it did there. *)

From Stdlib Require Import ZArith Lia List Ascii String Bool.
From Stdlib.Strings Require Import Byte.
From stdpp Require Import base option gmap strings.
Import ListNotations.

Local Open Scope string_scope.
Local Open Scope Z_scope.

(* ===================================================================== *)
(** * Fragments of the Go standard library the package calls             *)
(* ===================================================================== *)

(** ** [net/url]: [QueryEscape] *)
Module url.

Definition between (lo hi : nat) (c : ascii) : bool :=
  (lo <=? nat_of_ascii c)%nat && (nat_of_ascii c <=? hi)%nat.

(** [shouldEscape(c, encodeQueryComponent)]: letters, digits and the four
    marks [-_.~] pass; every reserved character and everything else is
    escaped. *)
Definition shouldEscape (c : ascii) : bool :=
  if between 97 122 c || between 65 90 c || between 48 57 c then false
  else if Ascii.eqb c "-" || Ascii.eqb c "_" || Ascii.eqb c "." || Ascii.eqb c "~"
  then false
  else true.

Definition upperhex : string := "0123456789ABCDEF".

Definition hexdigit (n : nat) : ascii :=
  match String.get n upperhex with
  | Some d => d
  | None => "0"%char
  end.

Fixpoint QueryEscape (s : string) : string :=
  match s with
  | EmptyString => EmptyString
  | String c rest =>
      if Ascii.eqb c " " then String "+" (QueryEscape rest)
      else if shouldEscape c then
        String "%" (String (hexdigit (nat_of_ascii c / 16))
                      (String (hexdigit (nat_of_ascii c mod 16))
                         (QueryEscape rest)))
      else String c (QueryEscape rest)
  end.

End url.

(** ** [fmt]: [Sprintf] on string operands

    The verbs the package uses with string operands are [%s]; [%v] prints a
    string the same way and [%%] is a literal percent sign.  A verb without
    an operand prints [%!s(MISSING)], another verb prints the bad-verb form
    [%!d(string=...)], and operands left over when the format is exhausted are
    appended as [%!(EXTRA string=..., string=...)].  Flags, widths and the
    other string verbs ([%q], [%x]) are not used by the package and not
    modelled. *)
Module fmt.

Fixpoint extras (args : list string) : string :=
  match args with
  | [] => ""
  | [a] => "string=" ++ a
  | a :: more => "string=" ++ a ++ ", " ++ extras more
  end.

Definition leftover (args : list string) : string :=
  match args with
  | [] => ""
  | _ => "%!(EXTRA " ++ extras args ++ ")"
  end.

Definition verb (v : ascii) (a : string) : string :=
  if Ascii.eqb v "s" || Ascii.eqb v "v" then a
  else "%!" ++ String v ("(string=" ++ a ++ ")").

Fixpoint Sprintf (format : string) (args : list string) : string :=
  match format with
  | EmptyString => leftover args
  | String c rest =>
      if Ascii.eqb c "%" then
        match rest with
        | EmptyString => "%!(NOVERB)" ++ leftover args
        | String v rest' =>
            if Ascii.eqb v "%" then String "%" (Sprintf rest' args)
            else match args with
                 | a :: args' => verb v a ++ Sprintf rest' args'
                 | [] => "%!" ++ String v ("(MISSING)" ++ Sprintf rest' [])
                 end
        end
      else String c (Sprintf rest args)
  end.

End fmt.

(** ** [bytes]: [Equal] *)
Module bytes.

Fixpoint Equal (a b : list byte) : bool :=
  match a, b with
  | [], [] => true
  | x :: a', y :: b' => Byte.eqb x y && Equal a' b'
  | _, _ => false
  end.

End bytes.

(** ** [crypto/sha256]: the digest of a byte slice (FIPS 180-4)

    Words are 32-bit integers in [Z], every addition is reduced modulo
    [2^32]. *)
Module sha256.

Definition Size : nat := 32.

Definition wrap (x : Z) : Z := x mod 2 ^ 32.
Definition add (x y : Z) : Z := wrap (x + y).
Definition rotr (n x : Z) : Z :=
  Z.lor (Z.shiftr x n) (wrap (Z.shiftl x (32 - n))).
Definition inv (x : Z) : Z := Z.lxor x 0xffffffff.

Definition ch (x y z : Z) : Z := Z.lxor (Z.land x y) (Z.land (inv x) z).
Definition maj (x y z : Z) : Z :=
  Z.lxor (Z.lxor (Z.land x y) (Z.land x z)) (Z.land y z).
Definition bsig0 (x : Z) : Z := Z.lxor (Z.lxor (rotr 2 x) (rotr 13 x)) (rotr 22 x).
Definition bsig1 (x : Z) : Z := Z.lxor (Z.lxor (rotr 6 x) (rotr 11 x)) (rotr 25 x).
Definition ssig0 (x : Z) : Z := Z.lxor (Z.lxor (rotr 7 x) (rotr 18 x)) (Z.shiftr x 3).
Definition ssig1 (x : Z) : Z := Z.lxor (Z.lxor (rotr 17 x) (rotr 19 x)) (Z.shiftr x 10).

(** The round constants and the initial state are the first 32 bits of the
    fractional parts of the cube roots of the first 64 primes and of the
    square roots of the first 8. *)
Definition primes : list Z :=
  [ 2; 3; 5; 7; 11; 13; 17; 19; 23; 29; 31; 37; 41; 43; 47; 53;
    59; 61; 67; 71; 73; 79; 83; 89; 97; 101; 103; 107; 109; 113; 127; 131;
    137; 139; 149; 151; 157; 163; 167; 173; 179; 181; 191; 193; 197; 199; 211; 223;
    227; 229; 233; 239; 241; 251; 257; 263; 269; 271; 277; 281; 283; 293; 307; 311 ].

(** The largest [y] below [x + 2^b] with [y^k <= n], found bit by bit. *)
Fixpoint root_bits (k n : Z) (b : nat) (x : Z) : Z :=
  match b with
  | O => x
  | S b' =>
      let y := x + 2 ^ Z.of_nat b' in
      root_bits k n b' (if y ^ k <=? n then y else x)
  end.

Definition frac_root (k p : Z) : Z :=
  root_bits k (p * 2 ^ (32 * k)) 40 0 mod 2 ^ 32.

Definition K : list Z := Eval vm_compute in map (frac_root 3) primes.

Definition init : list Z := Eval vm_compute in map (frac_root 2) (firstn 8 primes).

Definition byteZ (b : byte) : Z := Z.of_N (Byte.to_N b).
Definition Zbyte (x : Z) : byte :=
  match Byte.of_N (Z.to_N (x mod 256)) with
  | Some b => b
  | None => x00
  end.

(** Big-endian encoding of [x] on [n] bytes. *)
Fixpoint be_bytes (n : nat) (x : Z) : list byte :=
  match n with
  | O => []
  | S n' => Zbyte (Z.shiftr x (8 * Z.of_nat n')) :: be_bytes n' x
  end.

Definition be_word (bs : list byte) : Z :=
  fold_left (fun acc b => acc * 256 + byteZ b) bs 0.

(** The message followed by a one bit, zeros up to 56 modulo 64, and the
    bit length on eight bytes. *)
Definition pad (msg : list byte) : list byte :=
  let len := Z.of_nat (length msg) in
  let zeros := Z.to_nat ((55 - len) mod 64) in
  msg ++ x80 :: repeat x00 zeros ++ be_bytes 8 (8 * len).

Fixpoint words (n : nat) (bs : list byte) : list Z :=
  match n with
  | O => []
  | S n' => be_word (firstn 4 bs) :: words n' (skipn 4 bs)
  end.

(** The message schedule, most recent word first: [rev_w] holds
    [W(t-1), W(t-2), ...]. *)
Fixpoint extend (n : nat) (rev_w : list Z) : list Z :=
  match n with
  | O => rev_w
  | S n' =>
      let at_ i := nth i rev_w 0 in
      let wt := add (add (ssig1 (at_ 1%nat)) (at_ 6%nat))
                    (add (ssig0 (at_ 14%nat)) (at_ 15%nat)) in
      extend n' (wt :: rev_w)
  end.

Definition schedule (block : list byte) : list Z :=
  rev (extend 48 (rev (words 16 block))).

Definition round (st : list Z) (kw : Z * Z) : list Z :=
  match st with
  | [a; b; c; d; e; f; g; h] =>
      let t1 := add (add (add h (bsig1 e)) (add (ch e f g) (fst kw))) (snd kw) in
      let t2 := add (bsig0 a) (maj a b c) in
      [add t1 t2; a; b; c; add d t1; e; f; g]
  | _ => st
  end.

Definition compress (h : list Z) (block : list byte) : list Z :=
  let out := fold_left round (combine K (schedule block)) h in
  map (fun p => add (fst p) (snd p)) (combine h out).

Fixpoint blocks (n : nat) (h : list Z) (bs : list byte) : list Z :=
  match n with
  | O => h
  | S n' => blocks n' (compress h (firstn 64 bs)) (skipn 64 bs)
  end.

(** [h := sha256.New(); h.Write(msg); h.Sum(nil)]. *)
Definition Sum256 (msg : list byte) : list byte :=
  let padded := pad msg in
  flat_map (be_bytes 4) (blocks (length padded / 64) init padded).

End sha256.

Definition hex_nibble (c : ascii) : Z :=
  let n := Z.of_nat (nat_of_ascii c) in
  if (97 <=? n) then n - 87 else n - 48.

(** Reading a lower-case hexadecimal dump, two digits per byte. *)
Fixpoint unhex (s : string) : list byte :=
  match s with
  | String hi (String lo rest) =>
      sha256.Zbyte (16 * hex_nibble hi + hex_nibble lo) :: unhex rest
  | _ => []
  end.

(* ===================================================================== *)
(** * Values of the package                                               *)
(* ===================================================================== *)

Inductive errno := ENOENT | EACCES | EISDIR | ENOTDIR | ENOSPC | EIO.

(** Go error values.  [ErrHashMismatch] is the package's sentinel
    ([errors.New], compared with [==], that is by identity); [ErrNew] is any
    other freshly made error ([errors.Errorf], [fmt.Errorf], and the errors
    of the libraries and of a Requester); [ErrWrap] is [errors.Wrapf];
    [ErrPath] is an [*os.PathError]; [ErrRecovery] and [ErrRecoveryOnly] are
    the error [fmt.Errorf("update and recovery errors: %q %q", err,
    errRecover)], with [err] set and with [err] nil. *)
Inductive error :=
| ErrHashMismatch
| ErrNew (msg : string)
| ErrWrap (cause : error) (msg : string)
| ErrPath (op path : string) (code : errno)
| ErrRecovery (err errRecover : error)
| ErrRecoveryOnly (errRecover : error).

(** [err == ErrHashMismatch] *)
Definition is_ErrHashMismatch (e : error) : bool :=
  match e with
  | ErrHashMismatch => true
  | _ => false
  end.

(** [errors.Cause] *)
Fixpoint Cause (e : error) : error :=
  match e with
  | ErrWrap c _ => Cause c
  | _ => e
  end.

(** [errors.Wrapf(err, format, args...)] *)
Definition Wrapf (err : error) (format : string) (args : list string) : error :=
  ErrWrap err (fmt.Sprintf format args).

(** [errors.Errorf(format, args...)] and [fmt.Errorf] *)
Definition Errorf (format : string) (args : list string) : error :=
  ErrNew (fmt.Sprintf format args).

(** [os.IsNotExist] *)
Definition os_IsNotExist (e : error) : bool :=
  match e with
  | ErrPath _ _ ENOENT => true
  | _ => false
  end.

(** [time.Time] and [time.Duration]: nanoseconds, the first counted from the
    zero Time (January 1 of year 1, UTC). *)
Definition Time := Z.
Definition Duration := Z.
Definition Hour : Duration := 3600 * 1000000000.
Definition zeroTime : Time := 0.
Definition Add (t : Time) (d : Duration) : Time := t + d.
Definition After (t u : Time) : bool := u <? t.

Definition upcktimePath : string := "cktime".
Definition devValidTime : Duration := 7 * 24 * Hour.

(** The anonymous struct of the field [Info]. *)
Record info := { Version : string; Sha256 : list byte }.

(** What a [Requester]'s [Fetch] hands back: an error, a nil ReadCloser with
    a nil error, or a stream (here its whole content). *)
Inductive fetched :=
| FetchErr (e : error)
| FetchNil
| FetchBody (body : list byte).

(** The interface [Requester].  An implementation may keep state; [Fetch]
    receives the number of fetches made before this one. *)
Record requester := { Fetch : nat -> string -> fetched }.

(** Updater is the configuration and runtime data for doing an update.  A
    nil [Requester] is [None]. *)
Record Updater := {
  CurrentVersion : string;
  ApiURL : string;
  CmdName : string;
  BinURL : string;
  DiffURL : string;
  Dir : string;
  ForceCheck : bool;
  Requester : option requester;
  Info : info
}.

(** The receiver after a store into [u.Info]. *)
Definition with_Info (i : info) (u : Updater) : Updater :=
  {| CurrentVersion := CurrentVersion u; ApiURL := ApiURL u;
     CmdName := CmdName u; BinURL := BinURL u; DiffURL := DiffURL u;
     Dir := Dir u; ForceCheck := ForceCheck u; Requester := Requester u;
     Info := i |}.

(* ===================================================================== *)
(** * The machine                                                         *)
(* ===================================================================== *)

Inductive node :=
| Directory
| Regular (readable writable : bool) (data : list byte).

(** An open file: its name and what reading it to the end gives. *)
Record File := { file_name : string; file_content : error + list byte }.

Inductive Level := Debug | Warn | Error.

(** What the program does to the world, in order.  A log entry keeps the
    level, the message (text or an error) and the error attached with
    [WithError]; the other fields are dropped.  [EvWriteFile] is a call of
    [ioutil.WriteFile], whether it succeeds or not; [EvInstall] is a call of
    [up.FromStream]. *)
Inductive Event :=
| EvLog (lvl : Level) (msg : string + error) (withError : option error)
| EvOpen (path : string)
| EvClose (path : string)
| EvFetch (url : string)
| EvWriteFile (path : string) (data : list byte)
| EvInstall (bin : list byte).

(** The state a run goes through.  [self] is the Updater behind the
    receiver pointer.  [clock] gives the successive readings of [time.Now]
    and [ticks] counts those taken; [rand_Int63n_at k n] is what the [k]-th
    call of [rand.Int63n] returns on [n], [rand_calls] counts the calls.
    [executable] is what [osext.Executable] returns, [http_Fetch] is the
    default requester ([HTTPRequester.Fetch], used when [Requester] is nil)
    and [FromStream] is the installer of go-update; [fetches] counts the
    requests made.  [create_err] tells why a file that is not there cannot
    be created, if it cannot.  [write_err] tells how writing to a file that
    has been opened (created or truncated) at a path fails, if it does: the
    error of [Write] or [Close], and how many bytes reached the file before
    it.  [FromStream_fs] is what the installer does to the file system: go-update
    is not part of the package, so nothing is assumed of it. *)
Record Machine := {
  self : Updater;
  fs : gmap string node;
  create_err : string -> option errno;
  write_err : string -> option (errno * nat);
  clock : nat -> Time;
  ticks : nat;
  rand_Int63n_at : nat -> Z -> Z;
  rand_calls : nat;
  executable : error + string;
  http_Fetch : nat -> string -> error + list byte;
  fetches : nat;
  FromStream : list byte -> option error * option error;
  FromStream_fs : list byte -> gmap string node -> gmap string node;
  trace : list Event
}.

Definition with_self (u : Updater) (m : Machine) : Machine :=
  {| self := u; fs := fs m; create_err := create_err m;
     write_err := write_err m; clock := clock m;
     ticks := ticks m; rand_Int63n_at := rand_Int63n_at m;
     rand_calls := rand_calls m; executable := executable m;
     http_Fetch := http_Fetch m; fetches := fetches m;
     FromStream := FromStream m; FromStream_fs := FromStream_fs m;
     trace := trace m |}.

Definition with_fs (f : gmap string node) (m : Machine) : Machine :=
  {| self := self m; fs := f; create_err := create_err m;
     write_err := write_err m; clock := clock m;
     ticks := ticks m; rand_Int63n_at := rand_Int63n_at m;
     rand_calls := rand_calls m; executable := executable m;
     http_Fetch := http_Fetch m; fetches := fetches m;
     FromStream := FromStream m; FromStream_fs := FromStream_fs m;
     trace := trace m |}.

Definition with_ticks (n : nat) (m : Machine) : Machine :=
  {| self := self m; fs := fs m; create_err := create_err m;
     write_err := write_err m; clock := clock m;
     ticks := n; rand_Int63n_at := rand_Int63n_at m;
     rand_calls := rand_calls m; executable := executable m;
     http_Fetch := http_Fetch m; fetches := fetches m;
     FromStream := FromStream m; FromStream_fs := FromStream_fs m;
     trace := trace m |}.

Definition with_rand_calls (n : nat) (m : Machine) : Machine :=
  {| self := self m; fs := fs m; create_err := create_err m;
     write_err := write_err m; clock := clock m;
     ticks := ticks m; rand_Int63n_at := rand_Int63n_at m;
     rand_calls := n; executable := executable m;
     http_Fetch := http_Fetch m; fetches := fetches m;
     FromStream := FromStream m; FromStream_fs := FromStream_fs m;
     trace := trace m |}.

Definition with_fetches (n : nat) (m : Machine) : Machine :=
  {| self := self m; fs := fs m; create_err := create_err m;
     write_err := write_err m; clock := clock m;
     ticks := ticks m; rand_Int63n_at := rand_Int63n_at m;
     rand_calls := rand_calls m; executable := executable m;
     http_Fetch := http_Fetch m; fetches := n;
     FromStream := FromStream m; FromStream_fs := FromStream_fs m;
     trace := trace m |}.

Definition with_trace (t : list Event) (m : Machine) : Machine :=
  {| self := self m; fs := fs m; create_err := create_err m;
     write_err := write_err m; clock := clock m;
     ticks := ticks m; rand_Int63n_at := rand_Int63n_at m;
     rand_calls := rand_calls m; executable := executable m;
     http_Fetch := http_Fetch m; fetches := fetches m;
     FromStream := FromStream m; FromStream_fs := FromStream_fs m;
     trace := t |}.

(** ** The monad of computations on the machine *)

Definition M (A : Type) : Type := Machine -> A * Machine.

Definition ret {A} (a : A) : M A := fun m => (a, m).
Definition bind {A B} (c : M A) (k : A -> M B) : M B :=
  fun m => let (a, m') := c m in k a m'.

Declare Scope go_scope.
Delimit Scope go_scope with go.
Notation "x <- c ;; k" := (bind c (fun x => k))
  (at level 100, c at next level, right associativity) : go_scope.
Notation "c ;; k" := (bind c (fun _ => k))
  (at level 100, right associativity) : go_scope.
Local Open Scope go_scope.

Definition receiver : M Updater := fun m => (self m, m).
Definition emit (e : Event) : M unit :=
  fun m => (tt, with_trace (trace m ++ [e]) m).

Definition log_Debug (msg : string) : M unit := emit (EvLog Debug (inl msg) None).
Definition log_Warn (msg : string) : M unit := emit (EvLog Warn (inl msg) None).
Definition log_Warn_err (e : error) : M unit := emit (EvLog Warn (inr e) None).
Definition log_Error_err (e : error) : M unit := emit (EvLog Error (inr e) None).
Definition log_WithError_Debug (e : error) (msg : string) : M unit :=
  emit (EvLog Debug (inl msg) (Some e)).

(** [time.Now()]: the next reading of the clock. *)
Definition time_Now : M Time :=
  fun m => (clock m (ticks m), with_ticks (S (ticks m)) m).

(** [rand.Int63n(n)] on the shared source. *)
Definition rand_Int63n (n : Z) : M Z :=
  fun m => (rand_Int63n_at m (rand_calls m) n, with_rand_calls (S (rand_calls m)) m).

(** [osext.Executable()] *)
Definition osext_Executable : M (error + string) :=
  fun m => (executable m, m).

(** [os.Open(path)]: a directory opens too, and fails when it is read. *)
Definition os_Open (path : string) : M (error + File) :=
  fun m =>
    match fs m !! path with
    | None => (inl (ErrPath "open" path ENOENT), m)
    | Some Directory =>
        (inr {| file_name := path;
                file_content := inl (ErrPath "read" path EISDIR) |},
         with_trace (trace m ++ [EvOpen path]) m)
    | Some (Regular r _ data) =>
        if r then
          (inr {| file_name := path; file_content := inr data |},
           with_trace (trace m ++ [EvOpen path]) m)
        else (inl (ErrPath "open" path EACCES), m)
    end.

Definition File_Close (f : File) : M unit := emit (EvClose (file_name f)).

(** [ioutil.ReadFile(path)] *)
Definition ioutil_ReadFile (path : string) : M (error + list byte) :=
  fun m =>
    match fs m !! path with
    | None => (inl (ErrPath "open" path ENOENT), m)
    | Some Directory => (inl (ErrPath "read" path EISDIR), m)
    | Some (Regular r _ data) =>
        if r then (inr data, m) else (inl (ErrPath "open" path EACCES), m)
    end.

(** What [f.Write(data)] and [f.Close()] make of a file just opened with
    [O_WRONLY|O_CREATE|O_TRUNC] at [path], [r] telling whether it may be
    read: the file holds [data], or, when the machine fails the write
    ([write_err]), the bytes that reached it, and the error is returned. *)
Definition write_opened (path : string) (r : bool) (data : list byte)
    (m : Machine) : option error * Machine :=
  match write_err m path with
  | Some (code, n) =>
      (Some (ErrPath "write" path code),
       with_fs (<[path := Regular r true (take n data)]> (fs m)) m)
  | None => (None, with_fs (<[path := Regular r true data]> (fs m)) m)
  end.

(** [ioutil.WriteFile(path, data, 0644)]: [os.OpenFile] with
    [O_WRONLY|O_CREATE|O_TRUNC], then [Write], then [Close].  An existing file
    is truncated when it may be written; a missing one is created, readable
    and writable, unless the directory refuses ([create_err]); when the open
    fails nothing changes.  Once the file is open the write can still fail
    ([write_err]), and then the file is left with what was written. *)
Definition ioutil_WriteFile (path : string) (data : list byte) : M (option error) :=
  fun m =>
    let m1 := with_trace (trace m ++ [EvWriteFile path data]) m in
    match fs m !! path with
    | None =>
        match create_err m path with
        | Some code => (Some (ErrPath "open" path code), m1)
        | None => write_opened path true data m1
        end
    | Some Directory => (Some (ErrPath "open" path EISDIR), m1)
    | Some (Regular r w _) =>
        if w then write_opened path r data m1
        else (Some (ErrPath "open" path EACCES), m1)
    end.

(** [up.FromStream(bytes.NewBuffer(bin))] of go-update: the primary error
    and the error of the recovery, and the file system as the installer
    leaves it. *)
Definition up_FromStream (bin : list byte) : M (option error * option error) :=
  fun m =>
    (FromStream m bin,
     with_fs (FromStream_fs m bin (fs m))
       (with_trace (trace m ++ [EvInstall bin]) m)).

(* ===================================================================== *)
(** * Libraries taken as given                                            *)
(* ===================================================================== *)

(** What reading a gzip stream to the end gives: [gzip.NewReader] fails, or
    [io.Copy] fails, or the inflated bytes. *)
Inductive inflated :=
| GzipHeaderErr (e : error)
| GzipCopyErr (e : error)
| GzipData (data : list byte).

(** The pure library functions the package relies on and that are not
    spelled out above.  [json_Decode body i] is
    [json.NewDecoder(r).Decode(&i)]: the struct after the call (the decoder
    stores into it field by field) and the error.  [binarydist_Patch old
    patch] is [binarydist.Patch(old, &buf, patch)] with [buf.Bytes()]. *)
Class Libraries := {
  GOOS : string;
  GOARCH : string;
  filepath_Dir : string -> string;
  filepath_Join : string -> string -> string;
  time_Parse_RFC3339 : string -> option Time;
  time_Format_RFC3339 : Time -> string;
  json_Decode : list byte -> info -> info * option error;
  binarydist_Patch : error + list byte -> list byte -> error + list byte;
  gzip_ReadAll : list byte -> inflated
}.

(* ===================================================================== *)
(** * The package                                                         *)
(* ===================================================================== *)

Section Package.
Context `{Libraries}.

Definition plat : string := GOOS ++ "-" ++ GOARCH.

(** getExecRelativeDir relativizes the directory to store selfupdate state
    from the executable directory. *)
Definition getExecRelativeDir (dir : string) : M (error + string) :=
  r <- osext_Executable ;;
  match r with
  | inl err => ret (inl (Wrapf err "Couldn't get path to self executable" []))
  | inr filename =>
      let path := filepath_Join (filepath_Dir filename) dir in
      log_Debug "Directory to store selfupdate state" ;;
      ret (inr path)
  end.

Definition readTime (path : string) : M Time :=
  r <- ioutil_ReadFile path ;;
  match r with
  | inl err =>
      if os_IsNotExist err then ret zeroTime
      else now <- time_Now ;; ret (Add now (1000 * Hour))
  | inr p =>
      match time_Parse_RFC3339 (string_of_list_byte p) with
      | None => now <- time_Now ;; ret (Add now (1000 * Hour))
      | Some t => ret t
      end
  end.

Definition verifySha (bin sha : list byte) : M bool :=
  let computed := sha256.Sum256 bin in
  let bytesEqual := bytes.Equal computed sha in
  (if negb bytesEqual then log_Warn "SHA mismatch" else ret tt) ;;
  ret bytesEqual.

Definition writeTime (path : string) (t : Time) : M bool :=
  e <- ioutil_WriteFile path (list_byte_of_string (time_Format_RFC3339 t)) ;;
  ret (match e with None => true | Some _ => false end).

(** returns a random duration in [0,n). *)
Definition randDuration (n : Duration) : M Duration := rand_Int63n n.

(** The condition of the [if] in [wantUpdate]:
    [u.CurrentVersion == "dev" || (!u.ForceCheck && readTime(path).After(time.Now()))],
    evaluated from left to right and no further than needed. *)
Definition skipCheck (u : Updater) (path : string) : M bool :=
  if String.eqb (CurrentVersion u) "dev" then ret true
  else if negb (ForceCheck u) then
    t <- readTime path ;;
    now <- time_Now ;;
    ret (After t now)
  else ret false.

Definition wantUpdate : M bool :=
  u <- receiver ;;
  r <- getExecRelativeDir (Dir u ++ upcktimePath) ;;
  match r with
  | inl err => log_Error_err err ;; ret false
  | inr path =>
      stop <- skipCheck u path ;;
      if stop : bool then ret false
      else
        d <- randDuration (24 * Hour) ;;
        let wait := 24 * Hour + d in
        now <- time_Now ;;
        writeTime path (Add now wait)
  end.

Definition fetch (url : string) : M (error + list byte) :=
  u <- receiver ;;
  fun m =>
    let m' := with_fetches (S (fetches m)) (with_trace (trace m ++ [EvFetch url]) m) in
    match Requester u with
    | None => (http_Fetch m (fetches m) url, m')
    | Some rq =>
        match Fetch rq (fetches m) url with
        | FetchErr err => (inl err, m')
        | FetchNil =>
            (inl (Errorf "Fetch was expected to return non-nil ReadCloser" []), m')
        | FetchBody body => (inr body, m')
        end
    end.

(** [json.NewDecoder(r).Decode(&u.Info)] *)
Definition decode_Info (body : list byte) : M (option error) :=
  fun m =>
    let u := self m in
    let (i, err) := json_Decode body (Info u) in
    (err, with_self (with_Info i u) m).

(** The URL [fetchInfo] asks for. *)
Definition fullUrl (u : Updater) : string :=
  ApiURL u ++ url.QueryEscape (CmdName u) ++ "/"
  ++ url.QueryEscape plat ++ ".json".

(** fetchInfo gets the `json` file containing update information *)
Definition fetchInfo : M (option error) :=
  u <- receiver ;;
  r <- fetch (fullUrl u) ;;
  match r with
  | inl err =>
      ret (Some (Wrapf err
        "Couldn't fetch `json` with information for update (url=%s)"
        [fullUrl u]))
  | inr body =>
      e <- decode_Info body ;;
      match e with
      | Some err => ret (Some (Wrapf err "Couldn't decode JSON (%s)" []))
      | None =>
          u <- receiver ;;
          if negb (length (Sha256 (Info u)) =? sha256.Size)%nat
          then ret (Some (Errorf "Bad cmd hash in JSON info" []))
          else ret None
      end
  end.

(** The URL [fetchAndApplyPatch] asks for. *)
Definition patchUrl (u : Updater) : string :=
  let argCmdName := url.QueryEscape (CmdName u) in
  let argCurrentVersion := url.QueryEscape (CurrentVersion u) in
  let argInfoVersion := url.QueryEscape (Version (Info u)) in
  let argPlatform := url.QueryEscape plat in
  DiffURL u ++ fmt.Sprintf "%s/%s/%s/%s"
    [argCmdName; argCurrentVersion; argInfoVersion; argPlatform].

(** fetchAndApplyPatch fetches the bsdiff binary file from [patchUrl] and
    then applies the patch against the old executable. *)
Definition fetchAndApplyPatch (old : File) : M (error + list byte) :=
  u <- receiver ;;
  log_Debug "Starting to fetch patch" ;;
  r <- fetch (patchUrl u) ;;
  match r with
  | inl err =>
      let err := Wrapf err "Errored fetching path" [] in
      log_Warn_err err ;;
      ret (inl err)
  | inr body =>
      match binarydist_Patch (file_content old) body with
      | inl err =>
          let err := Wrapf err "Errored using binarydist to patch (url=%s)"
                       [patchUrl u] in
          log_Warn_err err ;;
          ret (inl err)
      | inr buf => ret (inr buf)
      end
  end.

(** fetchAndVerifyPatch fetches the patch from a given URL, applies it and
    then checks if the hash of the resulting file matches the one expected
    as indicated by Info json.  Errors in case of mismatch. *)
Definition fetchAndVerifyPatch (old : File) : M (error + list byte) :=
  r <- fetchAndApplyPatch old ;;
  match r with
  | inl err => ret (inl (Wrapf err "Couldn't fetch and apply patch" []))
  | inr bin =>
      u <- receiver ;;
      ok <- verifySha bin (Sha256 (Info u)) ;;
      if negb ok then ret (inl ErrHashMismatch) else ret (inr bin)
  end.

(** The URL [fetchBin] asks for. *)
Definition fetchUrl (u : Updater) : string :=
  let argCmdName := url.QueryEscape (CmdName u) in
  let argInfoVersion := url.QueryEscape (Version (Info u)) in
  let argPlatform := url.QueryEscape plat in
  BinURL u ++ fmt.Sprintf "%s/%s/%s.gz"
    [argCmdName; argInfoVersion; argPlatform].

Definition fetchBin : M (error + list byte) :=
  u <- receiver ;;
  log_Debug "Starting to fetch full binary" ;;
  r <- fetch (fetchUrl u) ;;
  match r with
  | inl err =>
      let err := Wrapf err "Failed to fetch full binary (url=%s)" [fetchUrl u] in
      log_Warn_err err ;;
      ret (inl err)
  | inr body =>
      match gzip_ReadAll body with
      | GzipHeaderErr err =>
          let err := Wrapf err "Failed to create gzip reader" [] in
          log_Warn_err err ;;
          ret (inl err)
      | GzipCopyErr err =>
          let err := Wrapf err "Failed to copy gzip content to buf" [] in
          log_Warn_err err ;;
          ret (inl err)
      | GzipData buf => ret (inr buf)
      end
  end.

Definition fetchAndVerifyFullBin : M (error + list byte) :=
  r <- fetchBin ;;
  match r with
  | inl err => ret (inl (Wrapf err "Errored fetching full binary" []))
  | inr bin =>
      u <- receiver ;;
      verified <- verifySha bin (Sha256 (Info u)) ;;
      if negb verified then ret (inl (Wrapf ErrHashMismatch "Hash mismatch" []))
      else ret (inr bin)
  end.

(** The part of [update] that runs with the executable open; the deferred
    [old.Close()] follows it in [update]. *)
Definition update_opened (old : File) : M (option error) :=
  e <- fetchInfo ;;
  match e with
  | Some err =>
      ret (Some (Wrapf err
        "Couldn't properly fetch JSON information for updates" []))
  | None =>
      u <- receiver ;;
      if String.eqb (Version (Info u)) (CurrentVersion u) then
        log_Debug "Already at latest version :)" ;;
        ret None
      else
        p <- fetchAndVerifyPatch old ;;
        b <- match p with
             | inr bin => ret (inr bin)
             | inl err =>
                 (if is_ErrHashMismatch err then
                    log_Debug "Hash mismatch from patched binary"
                  else if negb (String.eqb (DiffURL u) "") then
                    log_WithError_Debug err "Patching binary"
                  else ret tt) ;;
                 f <- fetchAndVerifyFullBin ;;
                 match f with
                 | inl err =>
                     (if is_ErrHashMismatch err then
                        log_Debug "Hash mismatch from full binary"
                      else log_WithError_Debug err "Fetching full binary") ;;
                     ret (inl err)
                 | inr bin => ret (inr bin)
                 end
             end ;;
        match b with
        | inl err => ret (Some err)
        | inr bin =>
            (* close the old binary before installing because on windows
               it can't be renamed if a handle to the file is still open *)
            File_Close old ;;
            r <- up_FromStream bin ;;
            match r with
            | (Some err, Some errRecover) => ret (Some (ErrRecovery err errRecover))
            | (None, Some errRecover) => ret (Some (ErrRecoveryOnly errRecover))
            | (Some err, None) => ret (Some err)
            | (None, None) => ret None
            end
        end
  end.

(** update performs the actual update of the executable *)
Definition update : M (option error) :=
  r <- osext_Executable ;;
  match r with
  | inl err => ret (Some (Wrapf err "Couldn't get path to executable (self)" []))
  | inr path =>
      o <- os_Open path ;;
      match o with
      | inl err => ret (Some (Wrapf err "Couldn't open self executable" []))
      | inr old =>
          e <- update_opened old ;;
          File_Close old ;;
          ret e
      end
  end.

End Package.

(** ** The second copy of the file in the repository ([part_000])

    It differs from [selfupdate/selfupdate.go] in its log messages, in not
    wrapping the error of [fetchAndApplyPatch] in [fetchAndVerifyPatch], and
    in the format string of the patch URL, which has three verbs for four
    operands.  Only the patch request is modelled from it. *)
Module Part000.
Section Package.
Context `{Libraries}.

Definition patchUrl (u : Updater) : string :=
  let argCmdName := url.QueryEscape (CmdName u) in
  let argCurrentVersion := url.QueryEscape (CurrentVersion u) in
  let argInfoVersion := url.QueryEscape (Version (Info u)) in
  let argPlatform := url.QueryEscape plat in
  DiffURL u ++ fmt.Sprintf "%s/%s/%s"
    [argCmdName; argCurrentVersion; argInfoVersion; argPlatform].

Definition fetchAndApplyPatch (old : File) : M (error + list byte) :=
  u <- receiver ;;
  log_Debug "Starting to fetch patch" ;;
  r <- fetch (patchUrl u) ;;
  match r with
  | inl err => ret (inl (Wrapf err "Errored fetching path (url=%s)" [patchUrl u]))
  | inr body =>
      match binarydist_Patch (file_content old) body with
      | inl err =>
          ret (inl (Wrapf err "Errored using binarydist to patch (url=%s)"
                      [patchUrl u]))
      | inr buf => ret (inr buf)
      end
  end.

End Package.
End Part000.

(** ** The rest of the second copy ([part_000])

    [verifySha] without its log entry, [fetchAndVerifyPatch] without the
    wrapping, [fetchBin] without its Warn entries, and [update] with its own
    log messages.  [fetchInfo] and [fetchAndVerifyFullBin] read as in
    [selfupdate/selfupdate.go]. *)
Module Part000Rest.
Section Package.
Context `{Libraries}.

Definition verifySha (bin sha : list byte) : bool :=
  bytes.Equal (sha256.Sum256 bin) sha.

Definition fetchAndVerifyPatch (old : File) : M (error + list byte) :=
  r <- Part000.fetchAndApplyPatch old ;;
  match r with
  | inl err => ret (inl err)
  | inr bin =>
      u <- receiver ;;
      if negb (verifySha bin (Sha256 (Info u))) then ret (inl ErrHashMismatch)
      else ret (inr bin)
  end.

Definition fetchBin : M (error + list byte) :=
  u <- receiver ;;
  log_Debug "Starting to fetch full binary" ;;
  r <- fetch (fetchUrl u) ;;
  match r with
  | inl err =>
      ret (inl (Wrapf err "Failed to fetch full binary (url=%s)" [fetchUrl u]))
  | inr body =>
      match gzip_ReadAll body with
      | GzipHeaderErr err => ret (inl (Wrapf err "Failed to create gzip reader" []))
      | GzipCopyErr err =>
          ret (inl (Wrapf err "Failed to copy gzip content to buf" []))
      | GzipData buf => ret (inr buf)
      end
  end.

Definition fetchAndVerifyFullBin : M (error + list byte) :=
  r <- fetchBin ;;
  match r with
  | inl err => ret (inl (Wrapf err "Errored fetching full binary" []))
  | inr bin =>
      u <- receiver ;;
      let verified := verifySha bin (Sha256 (Info u)) in
      if negb verified then ret (inl (Wrapf ErrHashMismatch "Hash mismatch" []))
      else ret (inr bin)
  end.

Definition update_opened (old : File) : M (option error) :=
  e <- fetchInfo ;;
  match e with
  | Some err =>
      ret (Some (Wrapf err
        "Couldn't properly fetch JSON information for updates" []))
  | None =>
      u <- receiver ;;
      if String.eqb (Version (Info u)) (CurrentVersion u) then
        log_Debug "Already at latest version :)" ;;
        ret None
      else
        p <- fetchAndVerifyPatch old ;;
        b <- match p with
             | inr bin => ret (inr bin)
             | inl err =>
                 (if is_ErrHashMismatch err then
                    log_Debug "update: hash mismatch from patched binary"
                  else if negb (String.eqb (DiffURL u) "") then
                    log_WithError_Debug err "update: patching binary"
                  else ret tt) ;;
                 f <- fetchAndVerifyFullBin ;;
                 match f with
                 | inl err =>
                     (if is_ErrHashMismatch err then
                        log_Debug "update: hash mismatch from full binary"
                      else log_WithError_Debug err "update: fetching full binary") ;;
                     ret (inl err)
                 | inr bin => ret (inr bin)
                 end
             end ;;
        match b with
        | inl err => ret (Some err)
        | inr bin =>
            File_Close old ;;
            r <- up_FromStream bin ;;
            match r with
            | (Some err, Some errRecover) => ret (Some (ErrRecovery err errRecover))
            | (None, Some errRecover) => ret (Some (ErrRecoveryOnly errRecover))
            | (Some err, None) => ret (Some err)
            | (None, None) => ret None
            end
        end
  end.

Definition update : M (option error) :=
  r <- osext_Executable ;;
  match r with
  | inl err => ret (Some (Wrapf err "Couldn't get path to executable (self)" []))
  | inr path =>
      o <- os_Open path ;;
      match o with
      | inl err => ret (Some (Wrapf err "Couldn't open self executable" []))
      | inr old =>
          e <- update_opened old ;;
          File_Close old ;;
          ret e
      end
  end.

End Package.
End Part000Rest.

(* ===================================================================== *)
(** * The driver                                                          *)
(* ===================================================================== *)

(** [os.MkdirAll(path, 0777)] on the flat file system: a directory that is
    there is left alone, a file in its place is an error, and a missing
    directory is made unless the machine refuses ([create_err]). *)
Definition os_MkdirAll (path : string) : M (option error) :=
  fun m =>
    match fs m !! path with
    | Some Directory => (None, m)
    | Some (Regular _ _ _) => (Some (ErrPath "mkdir" path ENOTDIR), m)
    | None =>
        match create_err m path with
        | Some code => (Some (ErrPath "mkdir" path code), m)
        | None => (None, with_fs (<[path := Directory]> (fs m)) m)
        end
    end.

(** [up.CanUpdate()] of go-update, taken as given: whether the executable
    could be replaced on this machine, and the error if not. *)
Class GoUpdate := { CanUpdate : Machine -> option error }.

Section Driver.
Context `{Libraries} `{GoUpdate}.

Definition up_CanUpdate : M (option error) := fun m => (CanUpdate m, m).

(** BackgroundRun starts the update check and apply cycle. *)
Definition BackgroundRun : M (option error) :=
  u <- receiver ;;
  r <- getExecRelativeDir (Dir u) ;;
  match r with
  | inl err =>
      ret (Some (Wrapf err
        "Couldn't get directory relative to executable for updates" []))
  | inr dir =>
      e <- os_MkdirAll dir ;;
      match e with
      | Some err =>
          ret (Some (Wrapf err
            "Couldn't create directory for storing updates (dir=%s)" [dir]))
      | None =>
          want <- wantUpdate ;;
          if want : bool then
            c <- up_CanUpdate ;;
            match c with
            | Some err => ret (Some (Wrapf err "Wants to update but can't" []))
            | None =>
                e <- update ;;
                match e with
                | Some err =>
                    ret (Some (Wrapf err
                      "Failed performing update even though it can" []))
                | None => ret None
                end
            end
          else ret None
      end
  end.

End Driver.

(* ===================================================================== *)
(** * Observations on a run                                               *)
(* ===================================================================== *)

(** The URLs fetched, the files written and the images handed to the
    installer, in order. *)
Fixpoint urls (t : list Event) : list string :=
  match t with
  | [] => []
  | EvFetch u :: rest => u :: urls rest
  | _ :: rest => urls rest
  end.

Fixpoint writes (t : list Event) : list (string * list byte) :=
  match t with
  | [] => []
  | EvWriteFile p d :: rest => (p, d) :: writes rest
  | _ :: rest => writes rest
  end.

Fixpoint installs (t : list Event) : list (list byte) :=
  match t with
  | [] => []
  | EvInstall b :: rest => b :: installs rest
  | _ :: rest => installs rest
  end.

(** What the fetch capability answers to its [k]-th request: the
    Requester of the Updater when it has one, the default HTTP requester
    otherwise. *)
Definition answer (rq : option requester) (http : nat -> string -> error + list byte)
    (k : nat) (url : string) : error + list byte :=
  match rq with
  | None => http k url
  | Some rq =>
      match Fetch rq k url with
      | FetchErr err => inl err
      | FetchNil => inl (Errorf "Fetch was expected to return non-nil ReadCloser" [])
      | FetchBody body => inr body
      end
  end.

(** The answer to the request made [n] fetches from now. *)
Definition reply (m : Machine) (n : nat) (url : string) : error + list byte :=
  answer (Requester (self m)) (http_Fetch m) (n + fetches m) url.

(** Whether [ioutil.WriteFile] on [path] gets the file open, and whether it
    succeeds: the file opens, and the write does not fail. *)
Definition can_open (path : string) (m : Machine) : bool :=
  match fs m !! path with
  | None => match create_err m path with None => true | Some _ => false end
  | Some Directory => false
  | Some (Regular _ w _) => w
  end.

Definition can_write (path : string) (m : Machine) : bool :=
  can_open path m
  && match write_err m path with None => true | Some _ => false end.

(** Where [wantUpdate] keeps the check token when the executable is at
    [filename]. *)
Definition tokenPath `{Libraries} (u : Updater) (filename : string) : string :=
  filepath_Join (filepath_Dir filename) (Dir u ++ upcktimePath).

(** The machine after the Debug entry of [getExecRelativeDir]. *)
Definition located (m : Machine) : Machine :=
  with_trace
    (trace m ++ [EvLog Debug (inl "Directory to store selfupdate state") None]) m.

(** A token file that is there and gives no timestamp: a directory, a file
    that may not be read, or content that is not an RFC 3339 timestamp. *)
Definition no_timestamp `{Libraries} (nd : node) : Prop :=
  match nd with
  | Directory => True
  | Regular r _ data =>
      r = false \/ time_Parse_RFC3339 (string_of_list_byte data) = None
  end.

(** The handle [os.Open] gives on a node: a directory opens and fails when
    read, a regular file opens when it may be read. *)
Definition handle (path : string) (nd : node) : option File :=
  match nd with
  | Directory =>
      Some {| file_name := path; file_content := inl (ErrPath "read" path EISDIR) |}
  | Regular r _ data =>
      if r then Some {| file_name := path; file_content := inr data |} else None
  end.

(** The patch path fails on a machine whose [n]-th fetch from now is the
    patch, for the open executable [old]: the fetch fails, or bspatch rejects
    the patch or cannot read the executable, or the patched image does not
    have the digest of the resolved metadata. *)
Definition patch_path_fails `{Libraries} (m : Machine) (n : nat) (u : Updater)
    (old : File) : Prop :=
  match reply m n (patchUrl u) with
  | inl _ => True
  | inr patch =>
      match binarydist_Patch (file_content old) patch with
      | inl _ => True
      | inr bin => sha256.Sum256 bin <> Sha256 (Info u)
      end
  end.

(** [rand.Int63n(n)] returns a number in [0, n) for a positive [n]. *)
Definition rand_in_range (m : Machine) : Prop :=
  forall (k : nat) (n : Z), 0 < n -> 0 <= rand_Int63n_at m k n < n.

(** The four segments of the patch URL, escaped, in their order. *)
Definition escaped_segments `{Libraries} (u : Updater) : list string :=
  [url.QueryEscape (CmdName u); url.QueryEscape (CurrentVersion u);
   url.QueryEscape (Version (Info u)); url.QueryEscape plat].

(** [strings.Split(s, "/")] *)
Fixpoint split_slash (s : string) : list string :=
  match s with
  | EmptyString => [""]
  | String c rest =>
      if Ascii.eqb c "/" then "" :: split_slash rest
      else match split_slash rest with
           | hd :: tl => String c hd :: tl
           | [] => [String c ""]
           end
  end.

(** The file system after the installer has run on each of [bins] in
    turn. *)
Definition installed_fs (m : Machine) (bins : list (list byte))
    (f : gmap string node) : gmap string node :=
  fold_left (fun f bin => FromStream_fs m bin f) bins f.

(** The machine after a stretch of a run that stored [i] in [u.Info] and
    did [evs], touching nothing but the receiver, the trace, the count of
    requests and, through the installer, the file system. *)
Definition advanced (m : Machine) (i : info) (evs : list Event) : Machine :=
  with_self (with_Info i (self m))
    (with_fs (installed_fs m (installs evs) (fs m))
       (with_fetches (length (urls evs) + fetches m)
          (with_trace (trace m ++ evs) m))).

(** The errors [update] makes of a failed recovery. *)
Definition is_recovery (e : error) : bool :=
  match e with
  | ErrRecovery _ _ | ErrRecoveryOnly _ => true
  | _ => false
  end.

(** Where [BackgroundRun] keeps the state when the executable is at
    [filename]. *)
Definition stateDir `{Libraries} (u : Updater) (filename : string) : string :=
  filepath_Join (filepath_Dir filename) (Dir u).

(** What reaches the file when [data] is written to [path]: all of it, or
    the bytes written before the write failed. *)
Definition reaching (path : string) (data : list byte) (m : Machine) : list byte :=
  match write_err m path with
  | Some (_, n) => take n data
  | None => data
  end.

(** The machine after [ioutil.WriteFile(path, data, 0644)]: the call is in
    the trace, and when the file could be opened it holds what reached it
    (an existing file keeps its read permission). *)
Definition after_write (path : string) (data : list byte) (m : Machine) : Machine :=
  let m1 := with_trace (trace m ++ [EvWriteFile path data]) m in
  if can_open path m then
    with_fs (<[path := Regular
                         match fs m !! path with
                         | Some (Regular r _ _) => r
                         | _ => true
                         end true (reaching path data m)]> (fs m)) m1
  else m1.

(** The machine after [wantUpdate] has drawn its random number and read the
    clock for the new deadline. *)
Definition drawn (m : Machine) : Machine :=
  with_ticks (S (ticks m)) (with_rand_calls (S (rand_calls m)) m).

(** The deadline [wantUpdate] computes on [m]: the clock reading plus 24
    hours plus the random duration. *)
Definition deadline (m : Machine) : Time :=
  Add (clock m (ticks m)) (24 * Hour + rand_Int63n_at m (rand_calls m) (24 * Hour)).

(** Whether [os.MkdirAll] succeeds on [dir], the error code when it does
    not, and the machine after it. *)
Definition can_mkdir (dir : string) (m : Machine) : bool :=
  match fs m !! dir with
  | Some Directory => true
  | Some (Regular _ _ _) => false
  | None => match create_err m dir with None => true | Some _ => false end
  end.

Definition mkdir_code (dir : string) (m : Machine) : errno :=
  match fs m !! dir with
  | None => match create_err m dir with Some code => code | None => ENOTDIR end
  | _ => ENOTDIR
  end.

Definition made (dir : string) (m : Machine) : Machine :=
  match fs m !! dir with
  | None =>
      match create_err m dir with
      | None => with_fs (<[dir := Directory]> (fs m)) m
      | Some _ => m
      end
  | Some _ => m
  end.

(** [os.Open] succeeds on the executable of the machine. *)
Definition opens (m : Machine) (exe : string) (old : File) : Prop :=
  executable m = inr exe
  /\ exists nd, fs m !! exe = Some nd /\ handle exe nd = Some old.

(** The events a run added to the trace of [m]. *)
Definition added (m m' : Machine) (evs : list Event) : Prop :=
  trace m' = (trace m ++ evs)%list.

(** What [update] makes of the two errors of the installer. *)
Definition reported (r : option error * option error) : option error :=
  match r with
  | (Some err, Some errRecover) => Some (ErrRecovery err errRecover)
  | (None, Some errRecover) => Some (ErrRecoveryOnly errRecover)
  | (Some err, None) => Some err
  | (None, None) => None
  end.

(** The value of a hexadecimal digit, and the inverse of [url.QueryEscape]
    (what [url.QueryUnescape] computes on its results). *)
Definition unhexdigit (c : ascii) : nat :=
  let n := nat_of_ascii c in
  if (65 <=? n)%nat then (n - 55)%nat else (n - 48)%nat.

Fixpoint unescape (s : string) : string :=
  match s with
  | EmptyString => EmptyString
  | String c rest =>
      if Ascii.eqb c "+" then String " " (unescape rest)
      else if Ascii.eqb c "%" then
        match rest with
        | String hi (String lo rest') =>
            String (ascii_of_nat (16 * unhexdigit hi + unhexdigit lo))
              (unescape rest')
        | _ => String c (unescape rest)
        end
      else String c (unescape rest)
  end.

(* ===================================================================== *)
(** * A platform to run the package on                                    *)
(* ===================================================================== *)

(** An instance of [Libraries] for evaluating the model on concrete inputs:
    Unix paths, RFC 3339 timestamps in UTC, compact JSON metadata documents,
    gzip streams made of one stored block.  Each function agrees with its
    library on the inputs it accepts and rejects the others; [Patch] is a
    stand-in for bspatch in which a patch is the magic followed by the new
    image. *)
Module Sample.

Definition dq : string := String (ascii_of_nat 34) "".

Fixpoint strip_prefix (p s : string) : option string :=
  match p, s with
  | EmptyString, _ => Some s
  | String a p', String b s' => if Ascii.eqb a b then strip_prefix p' s' else None
  | _, _ => None
  end.

(** Splits at the first double quote; a backslash before it is refused. *)
Fixpoint until_quote (s : string) : option (string * string) :=
  match s with
  | EmptyString => None
  | String c rest =>
      if Ascii.eqb c (ascii_of_nat 34) then Some ("", rest)
      else if Ascii.eqb c (ascii_of_nat 92) then None
      else match until_quote rest with
           | Some (v, r) => Some (String c v, r)
           | None => None
           end
  end.

(** *** Paths *)

Fixpoint has_slash (s : string) : bool :=
  match s with
  | EmptyString => false
  | String c rest => Ascii.eqb c "/" || has_slash rest
  end.

(** Everything before the last slash. *)
Fixpoint Dir_ (s : string) : string :=
  match s with
  | EmptyString => ""
  | String c rest => if has_slash rest then String c (Dir_ rest) else ""
  end.

(** [filepath.Clean] on Unix: empty and [.] elements go, a [..] takes the
    element before it with it (at the root it goes alone, at the start of a
    relative path it stays), and the empty path is [.]. *)
Definition clean_step (rooted : bool) (acc : list string) (c : string) : list string :=
  if String.eqb c "" || String.eqb c "." then acc
  else if String.eqb c ".." then
    match acc with
    | top :: rest => if String.eqb top ".." then c :: acc else rest
    | [] => if rooted then [] else [c]
    end
  else c :: acc.

Definition path_Clean (p : string) : string :=
  let rooted := match p with String "/" _ => true | _ => false end in
  let body :=
    String.concat "/" (rev (fold_left (clean_step rooted) (split_slash p) [])) in
  if rooted then "/" ++ body
  else if String.eqb body "" then "." else body.

(** [filepath.Dir]: the path up to its last slash, cleaned. *)
Definition path_Dir (s : string) : string :=
  if has_slash s then path_Clean (Dir_ s ++ "/") else ".".

(** [filepath.Join] of two elements: the elements that are not empty, joined
    by a slash and cleaned. *)
Definition path_Join (a b : string) : string :=
  if String.eqb a "" then (if String.eqb b "" then "" else path_Clean b)
  else if String.eqb b "" then path_Clean a
  else path_Clean (a ++ "/" ++ b).

(** *** Timestamps: [2006-01-02T15:04:05Z] *)

Definition Second : Z := 1000000000.

Definition digit (n : Z) : ascii := ascii_of_nat (48 + Z.to_nat (n mod 10)).

Fixpoint decimal (width : nat) (n : Z) : string :=
  match width with
  | O => ""
  | S w => decimal w (n / 10) ++ String (digit n) ""
  end.

Definition is_digit (c : ascii) : bool := url.between 48 57 c.

Fixpoint number (width : nat) (acc : Z) (s : string) : option (Z * string) :=
  match width with
  | O => Some (acc, s)
  | S w =>
      match s with
      | String c rest =>
          if is_digit c then number w (10 * acc + (Z.of_nat (nat_of_ascii c) - 48)) rest
          else None
      | EmptyString => None
      end
  end.

Definition expect (c : ascii) (s : string) : option string :=
  match s with
  | String d rest => if Ascii.eqb c d then Some rest else None
  | EmptyString => None
  end.

(** Days from January 1 of year 1 to the given date of the proleptic
    Gregorian calendar. *)
Definition days_from_civil (y m d : Z) : Z :=
  let y' := if m <=? 2 then y - 1 else y in
  let era := y' / 400 in
  let yoe := y' - era * 400 in
  let doy := (153 * (if 2 <? m then m - 3 else m + 9) + 2) / 5 + d - 1 in
  let doe := yoe * 365 + yoe / 4 - yoe / 100 + doy in
  era * 146097 + doe - 306.

Definition civil_from_days (days : Z) : Z * Z * Z :=
  let z := days + 306 in
  let era := z / 146097 in
  let doe := z mod 146097 in
  let yoe := (doe - doe / 1460 + doe / 36524 - doe / 146096) / 365 in
  let doy := doe - (365 * yoe + yoe / 4 - yoe / 100) in
  let mp := (5 * doy + 2) / 153 in
  let d := doy - (153 * mp + 2) / 5 + 1 in
  let m := if mp <? 10 then mp + 3 else mp - 9 in
  let y := yoe + era * 400 in
  (if m <=? 2 then y + 1 else y, m, d).

Definition leap (y : Z) : bool :=
  (y mod 4 =? 0) && (negb (y mod 100 =? 0) || (y mod 400 =? 0)).

Definition days_in (y m : Z) : Z :=
  if m =? 2 then (if leap y then 29 else 28)
  else if (m =? 4) || (m =? 6) || (m =? 9) || (m =? 11) then 30 else 31.

Definition Format (t : Time) : string :=
  let secs := t / Second in
  let '(y, m, d) := civil_from_days (secs / 86400) in
  let sod := secs mod 86400 in
  decimal 4 y ++ "-" ++ decimal 2 m ++ "-" ++ decimal 2 d ++ "T"
  ++ decimal 2 (sod / 3600) ++ ":" ++ decimal 2 (sod / 60 mod 60) ++ ":"
  ++ decimal 2 (sod mod 60) ++ "Z".

Definition Parse (s : string) : option Time :=
  '(y, s) ← number 4 0 s; s ← expect "-" s;
  '(m, s) ← number 2 0 s; s ← expect "-" s;
  '(d, s) ← number 2 0 s; s ← expect "T" s;
  '(hh, s) ← number 2 0 s; s ← expect ":" s;
  '(mm, s) ← number 2 0 s; s ← expect ":" s;
  '(ss, s) ← number 2 0 s; s ← expect "Z" s;
  match s with
  | EmptyString =>
      if (1 <=? m) && (m <=? 12) && (1 <=? d) && (d <=? days_in y m)
         && (hh <? 24) && (mm <? 60) && (ss <? 60)
      then Some ((days_from_civil y m d * 86400 + hh * 3600 + mm * 60 + ss) * Second)
      else None
  | _ => None
  end.

(** *** Base64, standard alphabet with padding *)

Definition sextet (c : ascii) : option Z :=
  let n := Z.of_nat (nat_of_ascii c) in
  if url.between 65 90 c then Some (n - 65)
  else if url.between 97 122 c then Some (n - 71)
  else if url.between 48 57 c then Some (n + 4)
  else if Ascii.eqb c "+" then Some 62
  else if Ascii.eqb c "/" then Some 63
  else None.

Fixpoint base64 (fuel : nat) (s : string) : option (list byte) :=
  match fuel, s with
  | _, EmptyString => Some []
  | S fuel', String a (String b (String c (String d rest))) =>
      x ← sextet a; y ← sextet b;
      if Ascii.eqb d "=" then
        match rest with
        | EmptyString =>
            if Ascii.eqb c "=" then Some [sha256.Zbyte (x * 4 + y / 16)]
            else z ← sextet c;
                 Some [sha256.Zbyte (x * 4 + y / 16); sha256.Zbyte (y * 16 + z / 4)]
        | _ => None
        end
      else
        z ← sextet c; v ← sextet d;
        more ← base64 fuel' rest;
        Some (sha256.Zbyte (x * 4 + y / 16) :: sha256.Zbyte (y * 16 + z / 4)
                :: sha256.Zbyte (z * 64 + v) :: more)
  | _, _ => None
  end.

Definition DecodeString (s : string) : option (list byte) :=
  base64 (String.length s) s.

(** *** Metadata documents: an object with the two string members in
    their declared order, no white space, no escapes *)

Definition syntax_error : error := ErrNew "invalid character".
Definition base64_error : error := ErrNew "illegal base64 data".

Definition members (body : string) : option (string * string) :=
  s ← strip_prefix ("{" ++ dq ++ "Version" ++ dq ++ ":" ++ dq) body;
  '(v, s) ← until_quote s;
  s ← strip_prefix ("," ++ dq ++ "Sha256" ++ dq ++ ":" ++ dq) s;
  '(h, s) ← until_quote s;
  match s with
  | String c EmptyString => if Ascii.eqb c "}" then Some (v, h) else None
  | _ => None
  end.

Definition Decode (body : list byte) (i : info) : info * option error :=
  match members (string_of_list_byte body) with
  | None => (i, Some syntax_error)
  | Some (v, h) =>
      match DecodeString h with
      | Some sha => ({| Version := v; Sha256 := sha |}, None)
      | None => ({| Version := v; Sha256 := Sha256 i |}, Some base64_error)
      end
  end.

(** *** gzip: the ten-byte header without optional fields, one final
    stored block, the CRC-32 and the size *)

Fixpoint crc_bits (n : nat) (c : Z) : Z :=
  match n with
  | O => c
  | S n' =>
      crc_bits n' (if Z.odd c then Z.lxor (Z.shiftr c 1) 0xEDB88320
                   else Z.shiftr c 1)
  end.

Definition crc32 (data : list byte) : Z :=
  Z.lxor (fold_left (fun c b => crc_bits 8 (Z.lxor c (sha256.byteZ b)))
            data 0xffffffff) 0xffffffff.

Definition le_word (bs : list byte) : Z :=
  fold_right (fun b acc => sha256.byteZ b + 256 * acc) 0 bs.

Definition ErrHeader : error := ErrNew "gzip: invalid header".
Definition ErrChecksum : error := ErrNew "gzip: invalid checksum".
Definition ErrUnexpectedEOF : error := ErrNew "unexpected EOF".
Definition CorruptInput : error := ErrNew "flate: corrupt input".

Definition ReadAll (body : list byte) : inflated :=
  match body with
  | id1 :: id2 :: cm :: flg :: _ :: _ :: _ :: _ :: _ :: _ :: deflate =>
      if Byte.eqb id1 x1f && Byte.eqb id2 x8b && Byte.eqb cm x08 && Byte.eqb flg x00
      then
        match deflate with
        | hd :: l0 :: l1 :: n0 :: n1 :: rest =>
            let len := le_word [l0; l1] in
            if Byte.eqb hd x01 && (len + le_word [n0; n1] =? 65535) then
              let data := firstn (Z.to_nat len) rest in
              let trailer := skipn (Z.to_nat len) rest in
              if (Z.of_nat (length data) =? len) && (length trailer =? 8)%nat then
                if (le_word (firstn 4 trailer) =? crc32 data)
                   && (le_word (skipn 4 trailer) =? len)
                then GzipData data
                else GzipCopyErr ErrChecksum
              else GzipCopyErr ErrUnexpectedEOF
            else GzipCopyErr CorruptInput
        | _ => GzipCopyErr ErrUnexpectedEOF
        end
      else GzipHeaderErr ErrHeader
  | _ => GzipHeaderErr ErrUnexpectedEOF
  end.

(** The gzip stream of [data] (at most 65535 bytes) that [ReadAll] reads. *)
Fixpoint le_bytes (n : nat) (x : Z) : list byte :=
  match n with
  | O => []
  | S n' => sha256.Zbyte x :: le_bytes n' (x / 256)
  end.

Definition gzip_stored (data : list byte) : list byte :=
  let len := Z.of_nat (length data) in
  [x1f; x8b; x08; x00; x00; x00; x00; x00; x00; xff; x01]
  ++ le_bytes 2 len ++ le_bytes 2 (65535 - len) ++ data
  ++ le_bytes 4 (crc32 data) ++ le_bytes 4 len.

(** *** The stand-in for bspatch *)

Definition magic : list byte := list_byte_of_string "BSDIFF40".
Definition ErrCorrupt : error := ErrNew "corrupt patch".

Definition Patch (old : error + list byte) (patch : list byte) : error + list byte :=
  if bytes.Equal (firstn 8 patch) magic then
    match old with
    | inl err => inl err
    | inr _ => inr (skipn 8 patch)
    end
  else inl ErrCorrupt.

#[export] Instance libraries : Libraries := {|
  GOOS := "linux";
  GOARCH := "amd64";
  filepath_Dir := path_Dir;
  filepath_Join := path_Join;
  time_Parse_RFC3339 := Parse;
  time_Format_RFC3339 := Format;
  json_Decode := Decode;
  binarydist_Patch := Patch;
  gzip_ReadAll := ReadAll
|}.

End Sample.


(** ** Machines for the examples *)
Module Scenario.
Import Sample.

Definition exe : string := "/opt/app/myapp".
Definition token : string := "/opt/app/update/cktime".
Definition base : string := "http://updates.example.com/".

Definition old_image : list byte := list_byte_of_string "old image".
Definition new_image : list byte := list_byte_of_string "new image".

(** 2026-10-30T22:25:00Z *)
Definition t0 : Time := 63928995900 * Second.

(** A Requester answering from a table; anything else is a transport
    error. *)
Fixpoint lookup_url (table : list (string * fetched)) (u : string) : fetched :=
  match table with
  | [] => FetchErr (ErrNew "connection refused")
  | (k, v) :: rest => if String.eqb k u then v else lookup_url rest u
  end.

Definition serve (table : list (string * fetched)) : requester :=
  {| Fetch := fun _ u => lookup_url table u |}.

Definition updater (version : string) (force : bool) (rq : requester) : Updater :=
  {| CurrentVersion := version; ApiURL := base; CmdName := "myapp";
     BinURL := base; DiffURL := base; Dir := "update/";
     ForceCheck := force; Requester := Some rq;
     Info := {| Version := ""; Sha256 := [] |} |}.

Definition machine (u : Updater) (files : gmap string node) : Machine :=
  {| self := u; fs := files; create_err := fun _ => None;
     write_err := fun _ => None;
     clock := fun k => t0 + Z.of_nat k * 1000000; ticks := 0;
     rand_Int63n_at := fun k n => (1234567890123456789 + Z.of_nat k) mod n;
     rand_calls := 0;
     executable := inr exe;
     http_Fetch := fun _ _ => inl (ErrNew "no network");
     fetches := 0;
     FromStream := fun _ => (None, None);
     FromStream_fs := fun bin files => <[exe := Regular true true bin]> files;
     trace := [] |}.

Definition installed : gmap string node :=
  {[ exe := Regular true true old_image ]}.

Definition with_token (content : string) : gmap string node :=
  <[ token := Regular true true (list_byte_of_string content) ]> installed.

(** The metadata document for a version and the base64 of its digest. *)
Definition metadata (version sha : string) : list byte :=
  list_byte_of_string
    ("{" ++ dq ++ "Version" ++ dq ++ ":" ++ dq ++ version ++ dq ++ ","
     ++ dq ++ "Sha256" ++ dq ++ ":" ++ dq ++ sha ++ dq ++ "}").

Definition info_url : string := "http://updates.example.com/myapp/linux-amd64.json".
Definition patch_url : string :=
  "http://updates.example.com/myapp/1.0.0/1.1.0/linux-amd64".
Definition bin_url : string :=
  "http://updates.example.com/myapp/1.1.0/linux-amd64.gz".

(** An updater at 1.0.0 that has resolved 1.1.0. *)
Definition resolved (rq : requester) : Updater :=
  with_Info {| Version := "1.1.0"; Sha256 := sha256.Sum256 new_image |}
    (updater "1.0.0" false rq).

Definition opened : File :=
  {| file_name := exe; file_content := inr old_image |}.

(** The base64 of the SHA-256 digest of [new_image]. *)
Definition new_digest : string := "QcBLPy0MaaZklPqpbwW2InCTefOlJRB44M05+pxE1n4=".

(** A server that has 1.1.0, no patch from 1.0.0, and the full binary. *)
Definition release : requester :=
  serve [ (info_url, FetchBody (metadata "1.1.0" new_digest));
          (bin_url, FetchBody (gzip_stored new_image)) ].

(** The same with another image under the name of the full binary. *)
Definition tampered : requester :=
  serve [ (info_url, FetchBody (metadata "1.1.0" new_digest));
          (bin_url, FetchBody (gzip_stored (list_byte_of_string "other image"))) ].

(** A server whose metadata has the running version and an empty digest. *)
Definition no_digest : requester :=
  serve [ (info_url, FetchBody (metadata "1.0.0" "")) ].

(** A server whose metadata has the running version and its digest. *)
Definition current : requester :=
  serve [ (info_url, FetchBody (metadata "1.0.0" new_digest)) ].

(** A server whose metadata has an eleven-byte digest. *)
Definition short_digest : requester :=
  serve [ (info_url, FetchBody (metadata "1.1.0" "aGVsbG8gd29ybGQ=")) ].

End Scenario.

(** ** Machines for the whole cycle *)
Module Cycle.
Import Sample Scenario.

(** A machine on which [osext.Executable] fails. *)
Definition astray (u : Updater) (files : gmap string node) : Machine :=
  let m := machine u files in
  {| self := u; fs := files; create_err := create_err m;
     write_err := write_err m; clock := clock m; ticks := 0;
     rand_Int63n_at := rand_Int63n_at m; rand_calls := 0;
     executable := inl (ErrNew "readlink /proc/self/exe: permission denied");
     http_Fetch := http_Fetch m; fetches := 0;
     FromStream := FromStream m; FromStream_fs := FromStream_fs m;
     trace := [] |}.

(** A machine on which nothing can be created. *)
Definition read_only (u : Updater) (files : gmap string node) : Machine :=
  let m := machine u files in
  {| self := u; fs := files; create_err := fun _ => Some EACCES;
     write_err := write_err m; clock := clock m; ticks := 0;
     rand_Int63n_at := rand_Int63n_at m; rand_calls := 0;
     executable := executable m;
     http_Fetch := http_Fetch m; fetches := 0;
     FromStream := FromStream m; FromStream_fs := FromStream_fs m;
     trace := [] |}.

(** A machine whose disk is full: a file can be created or truncated, and
    no byte can be written to it. *)
Definition disk_full (u : Updater) (files : gmap string node) : Machine :=
  let m := machine u files in
  {| self := u; fs := files; create_err := create_err m;
     write_err := fun _ => Some (ENOSPC, 0%nat); clock := clock m; ticks := 0;
     rand_Int63n_at := rand_Int63n_at m; rand_calls := 0;
     executable := executable m;
     http_Fetch := http_Fetch m; fetches := 0;
     FromStream := FromStream m; FromStream_fs := FromStream_fs m;
     trace := [] |}.

(** A server whose metadata is not a JSON document. *)
Definition garbled : requester :=
  serve [ (info_url, FetchBody (list_byte_of_string "not json")) ].

(** An executable that can be replaced, and one that cannot. *)
Definition can_update : GoUpdate := {| CanUpdate := fun _ => None |}.

Definition cannot_update : GoUpdate :=
  {| CanUpdate := fun _ => Some (ErrNew "permission denied") |}.

End Cycle.

(* ===================================================================== *)
(** * Properties                                                          *)
(* ===================================================================== *)

Example sha256_empty :
  sha256.Sum256 [] =
  unhex "e3b0c44298fc1c149afbf4c8996fb92427ae41e4649b934ca495991b7852b855".
Proof. vm_compute. reflexivity. Qed.

Example sha256_abc :
  sha256.Sum256 (list_byte_of_string "abc") =
  unhex "ba7816bf8f01cfea414140de5dae2223b00361a396177a9cb410ff61f20015ad".
Proof. vm_compute. reflexivity. Qed.

Example sha256_two_blocks :
  sha256.Sum256 (list_byte_of_string
     "abcdbcdecdefdefgefghfghighijhijkijkljklmklmnlmnomnopnopq") =
  unhex "248d6a61d20638b8e5c026930c3e6039a33ce45964ff2167f6ecedd419db06c1".
Proof. vm_compute. reflexivity. Qed.

(** The sample paths on cases of the documentation of [path/filepath]. *)
Example filepath_demo :
  map Sample.path_Clean ["a//c"; "a/c/b/.."; "/../a/b/../././/c"; ""]
  = ["a/c"; "a/c"; "/a/c"; "."]
  /\ map Sample.path_Dir ["/foo/bar/baz/"; "/dirty//path///"; "dev.txt"; "/"]
     = ["/foo/bar/baz"; "/dirty/path"; "."; "/"]
  /\ Sample.path_Join "a/b" "../../../xyz" = "../xyz"
  /\ Sample.path_Join "/opt/app" "update/" = "/opt/app/update".
Proof. repeat split; vm_compute; reflexivity. Qed.

Example escape_demo :
  url.QueryEscape "my app/v1+β" = "my+app%2Fv1%2B%CE%B2".
Proof. vm_compute. reflexivity. Qed.

Example sprintf_demo :
  fmt.Sprintf "%s/%s/%s" ["a"; "b"; "c"; "d"] = "a/b/c%!(EXTRA string=d)".
Proof. vm_compute. reflexivity. Qed.

(** ** Library facts *)

Lemma append_empty_r (s : string) : s ++ "" = s.
Proof. induction s as [|c s IH]; [reflexivity|]. cbv [append]. fold append. now rewrite IH. Qed.

Lemma append_String (c : ascii) (s t : string) : String c s ++ t = String c (s ++ t).
Proof. reflexivity. Qed.

Lemma append_empty_l (s : string) : "" ++ s = s.
Proof. reflexivity. Qed.

Lemma bytes_Equal_spec (a b : list byte) : bytes.Equal a b = true <-> a = b.
Proof.
  revert b. induction a as [|x a IH]; intros [|y b]; simpl; split;
    try reflexivity; try discriminate.
  - intros E. apply andb_true_iff in E as [Exy Eab].
    apply Byte.byte_dec_bl in Exy. apply IH in Eab. congruence.
  - intros E. injection E as -> ->.
    apply andb_true_iff. split; [now apply Byte.byte_dec_lb | now apply IH].
Qed.

(** What [%s/%s/%s/%s] makes of four operands. *)
Lemma Sprintf_four (a b c d : string) :
  fmt.Sprintf "%s/%s/%s/%s" [a; b; c; d] = a ++ "/" ++ b ++ "/" ++ c ++ "/" ++ d.
Proof.
  cbv [fmt.Sprintf fmt.verb fmt.leftover Ascii.eqb Bool.eqb orb].
  rewrite !append_String, !append_empty_l, append_empty_r. reflexivity.
Qed.

(** What [%s/%s/%s] makes of the same four operands: the fourth is reported
    as an extra operand. *)
Lemma Sprintf_three_of_four (a b c d : string) :
  fmt.Sprintf "%s/%s/%s" [a; b; c; d]
  = a ++ "/" ++ b ++ "/" ++ c ++ "%!(EXTRA string=" ++ d ++ ")".
Proof.
  cbv [fmt.Sprintf fmt.verb fmt.leftover fmt.extras Ascii.eqb Bool.eqb orb].
  rewrite !append_String, !append_empty_l. reflexivity.
Qed.

Lemma urls_app (s t : list Event) : urls (s ++ t) = (urls s ++ urls t)%list.
Proof.
  induction s as [|e s IH]; [reflexivity|].
  destruct e; simpl; rewrite IH; reflexivity.
Qed.

Lemma writes_app (s t : list Event) : writes (s ++ t) = (writes s ++ writes t)%list.
Proof.
  induction s as [|e s IH]; [reflexivity|].
  destruct e; simpl; rewrite IH; reflexivity.
Qed.

Lemma installs_app (s t : list Event) : installs (s ++ t) = (installs s ++ installs t)%list.
Proof.
  induction s as [|e s IH]; [reflexivity|].
  destruct e; simpl; rewrite IH; reflexivity.
Qed.

(** [QueryEscape] leaves no slash in its result. *)
Lemma hexdigit_not_slash (n : nat) : Ascii.eqb (url.hexdigit n) "/" = false.
Proof.
  unfold url.hexdigit.
  do 16 (destruct n as [|n]; [reflexivity|]). reflexivity.
Qed.

Lemma shouldEscape_slash (c : ascii) :
  url.shouldEscape c = false -> Ascii.eqb c "/" = false.
Proof.
  intros E. destruct (Ascii.eqb c "/") eqn:S; [|reflexivity].
  apply Ascii.eqb_eq in S. subst c. discriminate E.
Qed.

Lemma split_slash_escaped (s rest : string) :
  split_slash (url.QueryEscape s ++ String "/" rest)
  = url.QueryEscape s :: split_slash rest.
Proof.
  induction s as [|c s IH]; [reflexivity|].
  simpl url.QueryEscape.
  destruct (Ascii.eqb c " ").
  - rewrite append_String. simpl split_slash. now rewrite IH.
  - destruct (url.shouldEscape c) eqn:E.
    + rewrite !append_String. simpl split_slash.
      rewrite !hexdigit_not_slash, IH. reflexivity.
    + rewrite append_String. simpl split_slash.
      now rewrite (shouldEscape_slash c E), IH.
Qed.

Lemma split_slash_escaped_last (s : string) :
  split_slash (url.QueryEscape s) = [url.QueryEscape s].
Proof.
  induction s as [|c s IH]; [reflexivity|].
  simpl url.QueryEscape.
  destruct (Ascii.eqb c " ").
  - simpl split_slash. now rewrite IH.
  - destruct (url.shouldEscape c) eqn:E.
    + simpl split_slash. rewrite !hexdigit_not_slash, IH. reflexivity.
    + simpl split_slash. now rewrite (shouldEscape_slash c E), IH.
Qed.

(** ** The verifier *)

Lemma verifySha_effect (bin sha : list byte) (m : Machine) :
  snd (verifySha bin sha m)
  = if bytes.Equal (sha256.Sum256 bin) sha then m
    else with_trace (trace m ++ [EvLog Warn (inl "SHA mismatch") None]) m.
Proof.
  unfold verifySha, bind, ret, log_Warn, emit.
  destruct (bytes.Equal (sha256.Sum256 bin) sha); reflexivity.
Qed.

Lemma verifySha_result (bin sha : list byte) (m : Machine) :
  fst (verifySha bin sha m) = bytes.Equal (sha256.Sum256 bin) sha.
Proof.
  unfold verifySha, bind, ret, log_Warn, emit.
  destruct (bytes.Equal (sha256.Sum256 bin) sha); reflexivity.
Qed.

(** C6. [verifySha] answers true exactly when the SHA-256 digest of the
    buffer is the expected digest, byte for byte, for every buffer (the empty
    one included), every expected digest and every machine it runs on. *)
Theorem verifySha_iff_digest (bin sha : list byte) (m : Machine) :
  fst (verifySha bin sha m) = true <-> sha256.Sum256 bin = sha.
Proof. rewrite verifySha_result. apply bytes_Equal_spec. Qed.

Example verifySha_empty_buffer (m : Machine) :
  fst (verifySha []
         (unhex "e3b0c44298fc1c149afbf4c8996fb92427ae41e4649b934ca495991b7852b855")
         m) = true
  /\ fst (verifySha [] (repeat x00 32) m) = false.
Proof. rewrite !verifySha_result. split; vm_compute; reflexivity. Qed.

(** ** Fetching *)

Lemma fetch_run (u : string) (m : Machine) :
  fetch u m
  = (reply m 0 u,
     with_fetches (S (fetches m)) (with_trace (trace m ++ [EvFetch u]) m)).
Proof.
  unfold fetch, reply, answer, bind, receiver. cbn [Nat.add].
  destruct (Requester (self m)) as [rq|]; [|reflexivity].
  destruct (Fetch rq (fetches m) u); reflexivity.
Qed.

(** ** The patch request *)

Section PatchRequest.
Context `{Libraries}.

(** In [selfupdate/selfupdate.go] the URL is the base followed by the four
    escaped segments, in this order, one slash between two of them. *)
Lemma patchUrl_shape (u : Updater) :
  patchUrl u
  = DiffURL u ++ url.QueryEscape (CmdName u) ++ "/"
    ++ url.QueryEscape (CurrentVersion u) ++ "/"
    ++ url.QueryEscape (Version (Info u)) ++ "/" ++ url.QueryEscape plat.
Proof. unfold patchUrl. now rewrite Sprintf_four. Qed.

Lemma patchUrl_segments (u : Updater) :
  exists tail, patchUrl u = DiffURL u ++ tail
               /\ split_slash tail = escaped_segments u.
Proof.
  eexists. split; [apply patchUrl_shape|].
  unfold escaped_segments.
  rewrite !append_String, !append_empty_l.
  rewrite !split_slash_escaped, split_slash_escaped_last. reflexivity.
Qed.

Lemma fetchAndApplyPatch_requests (old : File) (m : Machine) :
  urls (trace (snd (fetchAndApplyPatch old m)))
  = (urls (trace m) ++ [patchUrl (self m)])%list.
Proof.
  unfold fetchAndApplyPatch, bind, receiver, log_Debug, log_Warn_err, emit, ret.
  rewrite fetch_run. cbn [self trace with_trace with_fetches fetches].
  destruct (reply _ _ _) as [err|body]; cbn [snd trace with_trace with_fetches].
  - rewrite !urls_app. cbn [urls]. now rewrite !app_nil_r.
  - destruct (binarydist_Patch _ _); cbn [snd trace with_trace with_fetches];
      rewrite !urls_app; cbn [urls]; now rewrite !app_nil_r.
Qed.

(** In [part_000] the format has three verbs: the escaped platform is not
    a fourth segment but the operand of an [EXTRA] report glued to the
    target version. *)
Lemma part000_patchUrl_shape (u : Updater) :
  Part000.patchUrl u
  = DiffURL u ++ url.QueryEscape (CmdName u) ++ "/"
    ++ url.QueryEscape (CurrentVersion u) ++ "/"
    ++ url.QueryEscape (Version (Info u))
    ++ "%!(EXTRA string=" ++ url.QueryEscape plat ++ ")".
Proof. unfold Part000.patchUrl. now rewrite Sprintf_three_of_four. Qed.

Lemma part000_fetchAndApplyPatch_requests (old : File) (m : Machine) :
  urls (trace (snd (Part000.fetchAndApplyPatch old m)))
  = (urls (trace m) ++ [Part000.patchUrl (self m)])%list.
Proof.
  unfold Part000.fetchAndApplyPatch, bind, receiver, log_Debug, emit, ret.
  rewrite fetch_run. cbn [self trace with_trace with_fetches fetches].
  destruct (reply _ _ _) as [err|body]; cbn [snd trace with_trace with_fetches].
  - rewrite !urls_app. cbn [urls]. now rewrite !app_nil_r.
  - destruct (binarydist_Patch _ _); cbn [snd trace with_trace with_fetches];
      rewrite !urls_app; cbn [urls]; now rewrite !app_nil_r.
Qed.

End PatchRequest.

(** C2. The copy of the file with the three-verb format, run for [myapp]
    at 1.0.0 with 1.1.0 resolved on linux-amd64: the one URL it requests is
    not [<diffBase>/myapp/1.0.0/1.1.0/linux-amd64], which is the one
    [selfupdate/selfupdate.go] requests on the same machine. *)
Theorem part000_patch_request_at_1_0_0 :
  let m := Scenario.machine (Scenario.resolved (Scenario.serve [])) Scenario.installed in
  urls (trace (snd (@Part000.fetchAndApplyPatch Sample.libraries Scenario.opened m)))
  = ["http://updates.example.com/myapp/1.0.0/1.1.0%!(EXTRA string=linux-amd64)"]
  /\ urls (trace (snd (@fetchAndApplyPatch Sample.libraries Scenario.opened m)))
     = ["http://updates.example.com/myapp/1.0.0/1.1.0/linux-amd64"].
Proof. split; vm_compute; reflexivity. Qed.

(** ** The check schedule *)

Section Schedule.
Context `{Libraries}.


Lemma readTime_no_timestamp (path : string) (m : Machine) (nd : node) :
  fs m !! path = Some nd -> no_timestamp nd ->
  readTime path m
  = (Add (clock m (ticks m)) (1000 * Hour), with_ticks (S (ticks m)) m).
Proof.
  intros E B. unfold readTime, bind, ioutil_ReadFile. rewrite E.
  destruct nd as [|r w data]; [reflexivity|].
  destruct r; [|reflexivity].
  destruct B as [B|B]; [discriminate|].
  cbn. rewrite B. reflexivity.
Qed.

Lemma readTime_timestamp (path : string) (m : Machine) (w : bool)
    (data : list byte) (t : Time) :
  fs m !! path = Some (Regular true w data) ->
  time_Parse_RFC3339 (string_of_list_byte data) = Some t ->
  readTime path m = (t, m).
Proof.
  intros E P. unfold readTime, bind, ioutil_ReadFile. rewrite E.
  cbn. rewrite P. reflexivity.
Qed.


Lemma getExecRelativeDir_found (dir exe : string) (m : Machine) :
  executable m = inr exe ->
  getExecRelativeDir dir m
  = (inr (filepath_Join (filepath_Dir exe) dir), located m).
Proof.
  intros E. unfold getExecRelativeDir, bind, osext_Executable.
  rewrite E. reflexivity.
Qed.

Lemma getExecRelativeDir_lost (dir : string) (err : error) (m : Machine) :
  executable m = inl err ->
  getExecRelativeDir dir m
  = (inl (Wrapf err "Couldn't get path to self executable" []), m).
Proof.
  intros E. unfold getExecRelativeDir, bind, osext_Executable.
  rewrite E. reflexivity.
Qed.

Lemma with_ticks_same (m : Machine) : with_ticks (ticks m) m = m.
Proof. destruct m; reflexivity. Qed.

(** [readTime] and the condition of [wantUpdate] change nothing but the
    number of clock readings taken. *)
Lemma readTime_frame (path : string) (m : Machine) :
  exists n, snd (readTime path m) = with_ticks n m.
Proof.
  unfold readTime, bind, ioutil_ReadFile, time_Now, ret.
  destruct (fs m !! path) as [[|[] w data]|]; cbn.
  - now exists (S (ticks m)).
  - destruct (time_Parse_RFC3339 _); cbn.
    + exists (ticks m). now rewrite with_ticks_same.
    + now exists (S (ticks m)).
  - now exists (S (ticks m)).
  - exists (ticks m). now rewrite with_ticks_same.
Qed.

Lemma skipCheck_frame (u : Updater) (path : string) (m : Machine) :
  exists n, snd (skipCheck u path m) = with_ticks n m.
Proof.
  unfold skipCheck.
  destruct (String.eqb _ _); [exists (ticks m); now rewrite with_ticks_same|].
  destruct (ForceCheck u); cbn [negb];
    [exists (ticks m); now rewrite with_ticks_same|].
  unfold bind. destruct (readTime_frame path m) as [n E].
  destruct (readTime path m) as [t m1]. cbn [snd] in E. subst m1.
  unfold time_Now, ret. cbn. now exists (S n).
Qed.

Lemma skipCheck_dev (u : Updater) (path : string) (m : Machine) :
  CurrentVersion u = "dev" -> skipCheck u path m = (true, m).
Proof. intros V. unfold skipCheck. rewrite V. reflexivity. Qed.

(** C7. A build whose current version is [dev] never wants a check,
    whatever the token file holds, whether or not [ForceCheck] is set and
    whether or not the executable can be located; the file system is left as
    it was, no write is attempted, and neither the clock nor the random
    source is consulted. *)
Theorem wantUpdate_dev (m : Machine) :
  CurrentVersion (self m) = "dev" ->
  fst (wantUpdate m) = false
  /\ fs (snd (wantUpdate m)) = fs m
  /\ writes (trace (snd (wantUpdate m))) = writes (trace m)
  /\ ticks (snd (wantUpdate m)) = ticks m
  /\ rand_calls (snd (wantUpdate m)) = rand_calls m.
Proof.
  intros V. unfold wantUpdate, bind, receiver.
  destruct (executable m) as [err|exe] eqn:E.
  - rewrite (getExecRelativeDir_lost _ err m E).
    unfold log_Error_err, emit, ret. cbn.
    rewrite writes_app. cbn. now rewrite app_nil_r.
  - rewrite (getExecRelativeDir_found _ exe m E).
    rewrite (skipCheck_dev _ _ _ V). unfold ret, located. cbn.
    rewrite writes_app. cbn. now rewrite app_nil_r.
Qed.

(** C8, as the code has it.  When [ForceCheck] is not set and the stored
    token parses to a timestamp after the clock reading (by less than 48
    hours or by more), [wantUpdate] answers false, leaves the file system as
    it was and attempts no write. *)
Theorem wantUpdate_future_token (m : Machine) (exe : string) (w : bool)
    (data : list byte) (t : Time) :
  ForceCheck (self m) = false ->
  executable m = inr exe ->
  fs m !! tokenPath (self m) exe = Some (Regular true w data) ->
  time_Parse_RFC3339 (string_of_list_byte data) = Some t ->
  clock m (ticks m) < t ->
  fst (wantUpdate m) = false
  /\ fs (snd (wantUpdate m)) = fs m
  /\ writes (trace (snd (wantUpdate m))) = writes (trace m).
Proof.
  intros F E L P Hc. unfold wantUpdate, bind, receiver.
  rewrite (getExecRelativeDir_found _ exe m E).
  fold (tokenPath (self m) exe).
  unfold skipCheck. rewrite F. cbn [negb].
  destruct (String.eqb (CurrentVersion (self m)) "dev").
  - unfold ret, located. cbn. rewrite writes_app. cbn. now rewrite app_nil_r.
  - unfold bind. rewrite (readTime_timestamp _ (located m) w data t L P).
    unfold time_Now, ret, After, located. cbn.
    apply Z.ltb_lt in Hc. rewrite Hc. cbn.
    rewrite writes_app. cbn. now rewrite app_nil_r.
Qed.


Lemma reaching_all (path : string) (data : list byte) (m : Machine) :
  can_write path m = true -> reaching path data m = data.
Proof.
  unfold can_write, reaching. intros C. apply andb_true_iff in C as [_ C].
  now destruct (write_err m path).
Qed.


End Schedule.

(** ** The update *)

Ltac machine :=
  cbn [fst snd self fs create_err write_err clock ticks rand_Int63n_at
       rand_calls executable http_Fetch fetches FromStream FromStream_fs trace
       with_self with_fs with_ticks with_rand_calls with_fetches with_trace
       CurrentVersion ApiURL CmdName BinURL DiffURL Dir ForceCheck Requester
       Info with_Info Version Sha256 file_name file_content Nat.add negb
       is_ErrHashMismatch Wrapf].

Ltac observe :=
  rewrite ?urls_app, ?writes_app, ?installs_app;
  cbn [urls writes installs]; rewrite ?app_nil_r, <- ?app_assoc;
  cbn [app].

Section Update.
Context `{Libraries}.

(** C10. [fetchInfo] stores what it decodes before it checks it: when the
    metadata document decodes without error to a digest that is not 32 bytes
    long, [fetchInfo] fails with the bad-hash error and the [Info] of the
    Updater is the decoded one, version and digest, not the one it held
    before the call. *)
Theorem fetchInfo_keeps_rejected_info (m : Machine) (body : list byte) (i : info) :
  reply m 0 (fullUrl (self m)) = inr body ->
  json_Decode body (Info (self m)) = (i, None) ->
  length (Sha256 i) <> sha256.Size ->
  fst (fetchInfo m) = Some (Errorf "Bad cmd hash in JSON info" [])
  /\ Info (self (snd (fetchInfo m))) = i.
Proof.
  intros R D L.
  unfold fetchInfo, bind, receiver.
  rewrite fetch_run, R. unfold decode_Info. machine. rewrite D. machine.
  apply Nat.eqb_neq in L. rewrite L. split; reflexivity.
Qed.

Lemma os_Open_handle (exe : string) (nd : node) (old : File) (m : Machine) :
  fs m !! exe = Some nd ->
  handle exe nd = Some old ->
  os_Open exe m = (inr old, with_trace (trace m ++ [EvOpen exe]) m).
Proof.
  intros E O. unfold os_Open. rewrite E.
  destruct nd as [|[] w data]; cbn in O; try discriminate;
    injection O as <-; reflexivity.
Qed.

Lemma fetchInfo_accepts (m : Machine) (body : list byte) (i : info) :
  reply m 0 (fullUrl (self m)) = inr body ->
  json_Decode body (Info (self m)) = (i, None) ->
  length (Sha256 i) = sha256.Size ->
  fetchInfo m
  = (None,
     with_self (with_Info i (self m))
       (with_fetches (S (fetches m))
          (with_trace (trace m ++ [EvFetch (fullUrl (self m))]) m))).
Proof.
  intros R D L.
  unfold fetchInfo, bind, receiver.
  rewrite fetch_run, R. unfold decode_Info. machine. rewrite D. machine.
  apply Nat.eqb_eq in L. rewrite L. reflexivity.
Qed.

(** C3, as the code has it.  When the executable can be opened and the
    metadata document decodes without error to a 32-byte digest and to the
    current version, [update] returns nil, and all it does is open the
    executable, fetch the metadata, log that it is up to date and close the
    executable: no patch, no full binary, no install. *)
Theorem update_already_latest (m : Machine) (exe : string) (nd : node)
    (old : File) (body : list byte) (i : info) :
  executable m = inr exe ->
  fs m !! exe = Some nd ->
  handle exe nd = Some old ->
  reply m 0 (fullUrl (self m)) = inr body ->
  json_Decode body (Info (self m)) = (i, None) ->
  length (Sha256 i) = sha256.Size ->
  Version i = CurrentVersion (self m) ->
  fst (update m) = None
  /\ trace (snd (update m))
     = (trace m ++ [EvOpen exe; EvFetch (fullUrl (self m));
                    EvLog Debug (inl "Already at latest version :)") None;
                    EvClose exe])%list.
Proof.
  intros E N O R D L V.
  assert (Hn : file_name old = exe)
    by (destruct nd as [|[] ? ?]; cbn in O; try discriminate; now injection O as <-).
  unfold update, bind, osext_Executable. rewrite E.
  rewrite (os_Open_handle exe nd old m N O).
  unfold update_opened, bind.
  rewrite (fetchInfo_accepts _ body i); [|exact R|exact D|exact L].
  unfold receiver, log_Debug, File_Close, emit, ret. machine.
  rewrite V, String.eqb_refl. machine. rewrite Hn.
  split; [reflexivity|]. now rewrite <- !app_assoc.
Qed.

Lemma bytes_Equal_false (a b : list byte) : a <> b -> bytes.Equal a b = false.
Proof.
  intros N. destruct (bytes.Equal a b) eqn:E; [|reflexivity].
  now apply bytes_Equal_spec in E.
Qed.

Lemma bytes_Equal_refl (a : list byte) : bytes.Equal a a = true.
Proof. now apply bytes_Equal_spec. Qed.

(** A failing patch path: an error, one request (the patch), nothing
    installed. *)
Lemma fetchAndVerifyPatch_fails (m : Machine) (old : File) :
  patch_path_fails m 0 (self m) old ->
  exists err evs,
    fetchAndVerifyPatch old m
    = (inl err, with_fetches (S (fetches m)) (with_trace (trace m ++ evs) m))
    /\ urls evs = [patchUrl (self m)] /\ installs evs = [].
Proof.
  unfold patch_path_fails. intros P.
  unfold fetchAndVerifyPatch, fetchAndApplyPatch, bind, receiver, log_Debug,
    log_Warn_err, emit, ret.
  rewrite fetch_run. machine.
  change (reply (with_trace _ m) 0 ?u) with (reply m 0 u).
  destruct (reply m 0 (patchUrl (self m))) as [err|patch].
  - machine. eexists _, [_; _; _].
    split; [rewrite <- !app_assoc; reflexivity | split; reflexivity].
  - destruct (binarydist_Patch (file_content old) patch) as [err|bin].
    + machine. eexists _, [_; _; _].
      split; [rewrite <- !app_assoc; reflexivity | split; reflexivity].
    + unfold verifySha, bind, ret, log_Warn, emit. machine.
      rewrite (bytes_Equal_false _ _ P). machine.
      eexists _, [_; _; _].
      split; [rewrite <- !app_assoc; reflexivity | split; reflexivity].
Qed.

Lemma fetchAndVerifyFullBin_verified (m : Machine) (gz bin : list byte) :
  reply m 0 (fetchUrl (self m)) = inr gz ->
  gzip_ReadAll gz = GzipData bin ->
  sha256.Sum256 bin = Sha256 (Info (self m)) ->
  fetchAndVerifyFullBin m
  = (inr bin,
     with_fetches (S (fetches m))
       (with_trace (trace m ++ [EvLog Debug (inl "Starting to fetch full binary") None;
                                EvFetch (fetchUrl (self m))]) m)).
Proof.
  intros R G D.
  unfold fetchAndVerifyFullBin, fetchBin, bind, receiver, log_Debug, emit, ret.
  rewrite fetch_run. machine.
  change (reply (with_trace _ m) 0 ?u) with (reply m 0 u).
  rewrite R, G. unfold verifySha, bind, ret. machine.
  rewrite D, bytes_Equal_refl. machine. now rewrite <- !app_assoc.
Qed.

Lemma fetchAndVerifyFullBin_mismatch (m : Machine) (gz bin : list byte) :
  reply m 0 (fetchUrl (self m)) = inr gz ->
  gzip_ReadAll gz = GzipData bin ->
  sha256.Sum256 bin <> Sha256 (Info (self m)) ->
  fetchAndVerifyFullBin m
  = (inl (Wrapf ErrHashMismatch "Hash mismatch" []),
     with_fetches (S (fetches m))
       (with_trace (trace m ++ [EvLog Debug (inl "Starting to fetch full binary") None;
                                EvFetch (fetchUrl (self m));
                                EvLog Warn (inl "SHA mismatch") None]) m)).
Proof.
  intros R G D.
  unfold fetchAndVerifyFullBin, fetchBin, bind, receiver, log_Debug, emit, ret.
  rewrite fetch_run. machine.
  change (reply (with_trace _ m) 0 ?u) with (reply m 0 u).
  rewrite R, G. unfold verifySha, bind, ret, log_Warn, emit. machine.
  rewrite (bytes_Equal_false _ _ D). machine. now rewrite <- !app_assoc.
Qed.

(** The log entry that follows a failing patch path says nothing to the
    network or to the installer. *)
Lemma patch_failure_logged (u : Updater) (err : error) (m : Machine) :
  exists lg,
    (if is_ErrHashMismatch err then log_Debug "Hash mismatch from patched binary"
     else if negb (String.eqb (DiffURL u) "")
          then log_WithError_Debug err "Patching binary"
          else ret tt) m
    = (tt, with_trace (trace m ++ lg) m)
    /\ urls lg = [] /\ installs lg = [].
Proof.
  unfold log_Debug, log_WithError_Debug, emit, ret.
  destruct (is_ErrHashMismatch err); [eexists [_]; repeat split|].
  destruct (negb _); [eexists [_]; repeat split|].
  exists []. rewrite app_nil_r. destruct m. repeat split.
Qed.

(** [update] up to the fallback: the executable is opened, the metadata
    resolves to another version, the patch path fails and is logged.  What
    remains is the full-binary path, run by [k]. *)
Lemma update_reaches_fallback (m : Machine) (exe : string) (nd : node)
    (old : File) (body : list byte) (i : info) :
  executable m = inr exe ->
  fs m !! exe = Some nd ->
  handle exe nd = Some old ->
  reply m 0 (fullUrl (self m)) = inr body ->
  json_Decode body (Info (self m)) = (i, None) ->
  length (Sha256 i) = sha256.Size ->
  Version i <> CurrentVersion (self m) ->
  patch_path_fails m 1 (with_Info i (self m)) old ->
  exists evs,
    urls evs = [fullUrl (self m); patchUrl (with_Info i (self m))]
    /\ installs evs = []
    /\ update m
       = (f <- fetchAndVerifyFullBin ;;
          b <- match f with
               | inl err =>
                   (if is_ErrHashMismatch err then
                      log_Debug "Hash mismatch from full binary"
                    else log_WithError_Debug err "Fetching full binary") ;;
                   ret (inl err)
               | inr bin => ret (inr bin)
               end ;;
          e <- match b with
               | inl err => ret (Some err)
               | inr bin =>
                   File_Close old ;;
                   r <- up_FromStream bin ;;
                   match r with
                   | (Some err, Some errRecover) =>
                       ret (Some (ErrRecovery err errRecover))
                   | (None, Some errRecover) =>
                       ret (Some (ErrRecoveryOnly errRecover))
                   | (Some err, None) => ret (Some err)
                   | (None, None) => ret None
                   end
               end ;;
          File_Close old ;;
          ret e)
           (with_self (with_Info i (self m))
              (with_fetches (2 + fetches m) (with_trace (trace m ++ evs) m))).
Proof.
  intros E N O R D L V P.
  unfold update, bind, osext_Executable. rewrite E.
  rewrite (os_Open_handle exe nd old m N O).
  unfold update_opened, bind.
  rewrite (fetchInfo_accepts _ body i); [|exact R|exact D|exact L].
  unfold receiver at 1. machine.
  apply String.eqb_neq in V. rewrite V.
  set (m1 := with_self _ _).
  destruct (fetchAndVerifyPatch_fails m1 old P) as (err & evs & -> & Hu & Hi).
  set (m2 := with_fetches _ _).
  destruct (patch_failure_logged (self m) err m2) as (lg & -> & Hlu & Hli).
  exists ([EvOpen exe; EvFetch (fullUrl (self m))] ++ evs ++ lg)%list.
  split; [observe; rewrite Hu, Hlu; reflexivity|].
  split; [observe; rewrite Hi, Hli; reflexivity|].
  subst m2 m1. cbv zeta. unfold bind. machine.
  rewrite <- !app_assoc. cbn [app].
  destruct (fetchAndVerifyFullBin _) as [[e|b] mf].
  - destruct (is_ErrHashMismatch e); reflexivity.
  - unfold File_Close, up_FromStream, emit, ret.
    destruct (FromStream _ b) as [[?|] [?|]]; reflexivity.
Qed.

(** C4. When the metadata resolves to another version and the patch path
    fails (the fetch fails, bspatch rejects the patch, or the patched image
    has the wrong digest), [update] goes on to the full binary; when that
    one is fetched, inflates to an image with the expected digest and is
    installed without error, [update] returns nil.  Three requests are made,
    metadata, patch and full binary in this order, and the verified image
    is the one thing handed to the installer. *)
Theorem update_falls_back (m : Machine) (exe : string) (nd : node)
    (old : File) (body gz bin : list byte) (i : info) :
  executable m = inr exe ->
  fs m !! exe = Some nd ->
  handle exe nd = Some old ->
  reply m 0 (fullUrl (self m)) = inr body ->
  json_Decode body (Info (self m)) = (i, None) ->
  length (Sha256 i) = sha256.Size ->
  Version i <> CurrentVersion (self m) ->
  patch_path_fails m 1 (with_Info i (self m)) old ->
  reply m 2 (fetchUrl (with_Info i (self m))) = inr gz ->
  gzip_ReadAll gz = GzipData bin ->
  sha256.Sum256 bin = Sha256 i ->
  FromStream m bin = (None, None) ->
  fst (update m) = None
  /\ urls (trace (snd (update m)))
     = (urls (trace m) ++ [fullUrl (self m); patchUrl (with_Info i (self m));
                           fetchUrl (with_Info i (self m))])%list
  /\ installs (trace (snd (update m))) = (installs (trace m) ++ [bin])%list.
Proof.
  intros E N O R D L V P RF G S I.
  destruct (update_reaches_fallback m exe nd old body i E N O R D L V P)
    as (evs & Hu & Hi & ->).
  cbv zeta. unfold bind.
  rewrite (fetchAndVerifyFullBin_verified _ gz bin); [|exact RF|exact G|exact S].
  unfold File_Close, up_FromStream, emit, ret. machine. rewrite I. machine.
  split; [reflexivity|].
  split; observe; rewrite ?Hu, ?Hi; reflexivity.
Qed.

(** C5. When the metadata resolves to another version, the patch path
    fails and the full binary inflates to an image whose SHA-256 digest is
    not the expected one, [update] returns the hash-mismatch error (the
    sentinel wrapped once, so that its cause is [ErrHashMismatch]) and
    nothing is handed to the installer. *)
Theorem update_full_binary_mismatch (m : Machine) (exe : string) (nd : node)
    (old : File) (body gz bin : list byte) (i : info) :
  executable m = inr exe ->
  fs m !! exe = Some nd ->
  handle exe nd = Some old ->
  reply m 0 (fullUrl (self m)) = inr body ->
  json_Decode body (Info (self m)) = (i, None) ->
  length (Sha256 i) = sha256.Size ->
  Version i <> CurrentVersion (self m) ->
  patch_path_fails m 1 (with_Info i (self m)) old ->
  reply m 2 (fetchUrl (with_Info i (self m))) = inr gz ->
  gzip_ReadAll gz = GzipData bin ->
  sha256.Sum256 bin <> Sha256 i ->
  exists err,
    fst (update m) = Some err
    /\ err = Wrapf ErrHashMismatch "Hash mismatch" []
    /\ Cause err = ErrHashMismatch
    /\ installs (trace (snd (update m))) = installs (trace m).
Proof.
  intros E N O R D L V P RF G S.
  destruct (update_reaches_fallback m exe nd old body i E N O R D L V P)
    as (evs & Hu & Hi & ->).
  cbv zeta. unfold bind.
  rewrite (fetchAndVerifyFullBin_mismatch _ gz bin); [|exact RF|exact G|exact S].
  unfold File_Close, log_Debug, log_WithError_Debug, emit, ret. machine.
  eexists. split; [reflexivity|]. split; [reflexivity|]. split; [reflexivity|].
  observe. rewrite ?Hi. cbn [app]. now rewrite app_nil_r.
Qed.

End Update.


(** ** The theorems at work on the sample platform *)

Section Runs.
Import Scenario.
Existing Instance Sample.libraries.

Lemma sample_rand_in_range (u : Updater) (files : gmap string node) :
  rand_in_range (machine u files).
Proof. intros k n Hn. cbn. apply Z.mod_pos_bound. exact Hn. Defined.


Lemma wantUpdate_dev_witness :
  let m := machine (updater "dev" true (serve [])) (with_token "2020-01-01T00:00:00Z") in
  CurrentVersion (self m) = "dev"
  /\ fst (wantUpdate m) = false
  /\ fs (snd (wantUpdate m)) = fs m
  /\ writes (trace (snd (wantUpdate m))) = writes (trace m).
Proof.
  intros m.
  destruct (wantUpdate_dev m eq_refl) as (A & B & C & _).
  split; [reflexivity | split; [exact A | split; [exact B | exact C]]].
Defined.

(** A token an hour ahead of the clock, [ForceCheck] not set. *)
Lemma wantUpdate_future_token_witness :
  let m := machine (updater "1.0.0" false (serve [])) (with_token "2026-10-30T23:25:00Z") in
  (ForceCheck (self m) = false
   /\ time_Parse_RFC3339 "2026-10-30T23:25:00Z" = Some (Add t0 Hour)
   /\ clock m (ticks m) < Add t0 Hour)
  /\ fst (wantUpdate m) = false
  /\ fs (snd (wantUpdate m)) = fs m.
Proof.
  intros m.
  assert (P : time_Parse_RFC3339 "2026-10-30T23:25:00Z" = Some (Add t0 Hour))
    by (vm_compute; reflexivity).
  assert (C : clock m (ticks m) < Add t0 Hour) by (vm_compute; reflexivity).
  destruct (wantUpdate_future_token m exe true
              (list_byte_of_string "2026-10-30T23:25:00Z") (Add t0 Hour)
              eq_refl eq_refl) as (A & B & _);
    [vm_compute; reflexivity | exact P | exact C |].
  split; [split; [reflexivity | split; [exact P | exact C]] | split; [exact A | exact B]].
Defined.

(** C8 as stated fails: the same token, an hour ahead of the clock, with
    [ForceCheck] set.  [wantUpdate] answers true and the token file is
    rewritten. *)
Lemma wantUpdate_forced_rewrites_future_token :
  let m := machine (updater "1.0.0" true (serve [])) (with_token "2026-10-30T23:25:00Z") in
  fs m !! token = Some (Regular true true (list_byte_of_string "2026-10-30T23:25:00Z"))
  /\ time_Parse_RFC3339 "2026-10-30T23:25:00Z" = Some (Add t0 Hour)
  /\ clock m (ticks m) < Add t0 Hour < Add (clock m (ticks m)) (48 * Hour)
  /\ fst (wantUpdate m) = true
  /\ fs (snd (wantUpdate m)) !! token
     = Some (Regular true true (list_byte_of_string "2026-11-01T21:56:30Z"))
  /\ writes (trace (snd (wantUpdate m)))
     = [(token, list_byte_of_string "2026-11-01T21:56:30Z")].
Proof. repeat split; vm_compute; reflexivity. Qed.


(** The metadata names the running version, with its 32-byte digest. *)
Lemma update_already_latest_witness :
  let m := machine (updater "1.0.0" false current) installed in
  let i := {| Version := "1.0.0"; Sha256 := sha256.Sum256 new_image |} in
  (reply m 0 (fullUrl (self m)) = inr (metadata "1.0.0" new_digest)
   /\ json_Decode (metadata "1.0.0" new_digest) (Info (self m)) = (i, None)
   /\ length (Sha256 i) = sha256.Size)
  /\ fst (update m) = None
  /\ urls (trace (snd (update m))) = [info_url]
  /\ installs (trace (snd (update m))) = [].
Proof.
  intros m i.
  assert (R : reply m 0 (fullUrl (self m)) = inr (metadata "1.0.0" new_digest))
    by (vm_compute; reflexivity).
  assert (D : json_Decode (metadata "1.0.0" new_digest) (Info (self m)) = (i, None))
    by (vm_compute; reflexivity).
  assert (L : length (Sha256 i) = sha256.Size) by (vm_compute; reflexivity).
  destruct (update_already_latest m exe (Regular true true old_image) opened _ i
              eq_refl ltac:(vm_compute; reflexivity) eq_refl R D L eq_refl)
    as [A B].
  split; [split; [exact R | split; [exact D | exact L]]|].
  split; [exact A|]. rewrite B. split; vm_compute; reflexivity.
Defined.

(** C3 as stated fails: the metadata names the running version and
    carries an empty digest.  [update] returns the bad-hash error of
    [fetchInfo], wrapped. *)
Lemma update_same_version_empty_digest :
  let m := machine (updater "1.0.0" false no_digest) installed in
  reply m 0 (fullUrl (self m)) = inr (metadata "1.0.0" "")
  /\ json_Decode (metadata "1.0.0" "") (Info (self m))
     = ({| Version := "1.0.0"; Sha256 := [] |}, None)
  /\ CurrentVersion (self m) = "1.0.0"
  /\ fst (update m)
     = Some (Wrapf (Errorf "Bad cmd hash in JSON info" [])
               "Couldn't properly fetch JSON information for updates" [])
  /\ fst (update m) <> None.
Proof. repeat split; try (vm_compute; reflexivity). vm_compute. discriminate. Qed.

(** The patch is not on the server; the full binary is, and has the digest
    of the metadata. *)
Lemma update_falls_back_witness :
  let m := machine (updater "1.0.0" false release) installed in
  let i := {| Version := "1.1.0"; Sha256 := sha256.Sum256 new_image |} in
  (reply m 0 (fullUrl (self m)) = inr (metadata "1.1.0" new_digest)
   /\ json_Decode (metadata "1.1.0" new_digest) (Info (self m)) = (i, None)
   /\ reply m 1 (patchUrl (with_Info i (self m))) = inl (ErrNew "connection refused")
   /\ reply m 2 (fetchUrl (with_Info i (self m))) = inr (Sample.gzip_stored new_image)
   /\ gzip_ReadAll (Sample.gzip_stored new_image) = GzipData new_image)
  /\ fst (update m) = None
  /\ urls (trace (snd (update m))) = [info_url; patch_url; bin_url]
  /\ installs (trace (snd (update m))) = [new_image].
Proof.
  intros m i.
  assert (R : reply m 0 (fullUrl (self m)) = inr (metadata "1.1.0" new_digest))
    by (vm_compute; reflexivity).
  assert (D : json_Decode (metadata "1.1.0" new_digest) (Info (self m)) = (i, None))
    by (vm_compute; reflexivity).
  assert (P : reply m 1 (patchUrl (with_Info i (self m)))
              = inl (ErrNew "connection refused"))
    by (vm_compute; reflexivity).
  assert (F : reply m 2 (fetchUrl (with_Info i (self m))) = inr (Sample.gzip_stored new_image))
    by (vm_compute; reflexivity).
  assert (G : gzip_ReadAll (Sample.gzip_stored new_image) = GzipData new_image)
    by (vm_compute; reflexivity).
  destruct (update_falls_back m exe (Regular true true old_image) opened
              _ _ new_image i eq_refl
              ltac:(vm_compute; reflexivity) eq_refl R D
              ltac:(vm_compute; reflexivity)
              ltac:(vm_compute; discriminate)
              ltac:(unfold patch_path_fails; rewrite P; exact I)
              F G eq_refl eq_refl) as (A & B & C).
  split; [repeat split; assumption|].
  split; [exact A|]. rewrite B, C. split; vm_compute; reflexivity.
Defined.

(** The patch is not on the server, and the full binary is not the image
    the metadata describes. *)
Lemma update_full_binary_mismatch_witness :
  let m := machine (updater "1.0.0" false tampered) installed in
  let i := {| Version := "1.1.0"; Sha256 := sha256.Sum256 new_image |} in
  let other := list_byte_of_string "other image" in
  (reply m 2 (fetchUrl (with_Info i (self m))) = inr (Sample.gzip_stored other)
   /\ gzip_ReadAll (Sample.gzip_stored other) = GzipData other
   /\ sha256.Sum256 other <> Sha256 i)
  /\ fst (update m) = Some (Wrapf ErrHashMismatch "Hash mismatch" [])
  /\ installs (trace (snd (update m))) = [].
Proof.
  intros m i other.
  assert (F : reply m 2 (fetchUrl (with_Info i (self m))) = inr (Sample.gzip_stored other))
    by (vm_compute; reflexivity).
  assert (G : gzip_ReadAll (Sample.gzip_stored other) = GzipData other)
    by (vm_compute; reflexivity).
  assert (N : sha256.Sum256 other <> Sha256 i) by (vm_compute; discriminate).
  destruct (update_full_binary_mismatch m exe (Regular true true old_image) opened
              (metadata "1.1.0" new_digest) _ other i eq_refl
              ltac:(vm_compute; reflexivity) eq_refl
              ltac:(vm_compute; reflexivity)
              ltac:(vm_compute; reflexivity)
              ltac:(vm_compute; reflexivity)
              ltac:(vm_compute; discriminate)
              ltac:(vm_compute; exact I)
              F G N) as (err & A & -> & _ & B).
  split; [repeat split; assumption|].
  split; [exact A | exact B].
Defined.

(** The metadata carries an eleven-byte digest: the bytes of "hello world". *)
Lemma fetchInfo_keeps_rejected_info_witness :
  let m := machine (updater "1.0.0" false short_digest) installed in
  let i := {| Version := "1.1.0"; Sha256 := list_byte_of_string "hello world" |} in
  (reply m 0 (fullUrl (self m)) = inr (metadata "1.1.0" "aGVsbG8gd29ybGQ=")
   /\ json_Decode (metadata "1.1.0" "aGVsbG8gd29ybGQ=") (Info (self m)) = (i, None)
   /\ length (Sha256 i) <> sha256.Size)
  /\ Info (self m) = {| Version := ""; Sha256 := [] |}
  /\ fst (fetchInfo m) = Some (Errorf "Bad cmd hash in JSON info" [])
  /\ Info (self (snd (fetchInfo m))) = i.
Proof.
  intros m i.
  assert (R : reply m 0 (fullUrl (self m)) = inr (metadata "1.1.0" "aGVsbG8gd29ybGQ="))
    by (vm_compute; reflexivity).
  assert (D : json_Decode (metadata "1.1.0" "aGVsbG8gd29ybGQ=") (Info (self m)) = (i, None))
    by (vm_compute; reflexivity).
  assert (L : length (Sha256 i) <> sha256.Size) by (vm_compute; discriminate).
  destruct (fetchInfo_keeps_rejected_info m _ i R D L) as [A B].
  split; [repeat split; assumption|].
  split; [reflexivity | split; [exact A | exact B]].
Defined.

End Runs.

(* ===================================================================== *)
(** * More of the package                                                 *)
(* ===================================================================== *)

(** ** Stretches of a run *)

Lemma with_Info_same (u : Updater) : with_Info (Info u) u = u.
Proof. destruct u; reflexivity. Qed.

Lemma advanced_nil (m : Machine) : advanced m (Info (self m)) [] = m.
Proof.
  unfold advanced. rewrite with_Info_same, app_nil_r.
  destruct m; reflexivity.
Qed.

Lemma advanced_advanced (m : Machine) (i j : info) (e1 e2 : list Event) :
  advanced (advanced m i e1) j e2 = advanced m j (e1 ++ e2).
Proof.
  unfold advanced, installed_fs. machine.
  rewrite urls_app, installs_app, fold_left_app, length_app, <- app_assoc.
  replace (length (urls e2) + (length (urls e1) + fetches m))%nat
    with (length (urls e1) + length (urls e2) + fetches m)%nat by lia.
  reflexivity.
Qed.

Lemma advanced_same (m : Machine) (evs : list Event) :
  installs evs = [] ->
  advanced m (Info (self m)) evs
  = with_fetches (length (urls evs) + fetches m) (with_trace (trace m ++ evs) m).
Proof.
  intros I. unfold advanced, installed_fs. rewrite with_Info_same, I.
  destruct m; reflexivity.
Qed.

Lemma reply_advanced (m : Machine) (i : info) (evs : list Event) (n : nat)
    (u : string) :
  reply (advanced m i evs) n u = reply m (n + length (urls evs)) u.
Proof. unfold reply, advanced. machine. now rewrite Nat.add_assoc. Qed.

Lemma fetch_advanced (u : string) (m : Machine) :
  fetch u m = (reply m 0 u, advanced m (Info (self m)) [EvFetch u]).
Proof. rewrite fetch_run, advanced_same; reflexivity. Qed.

Lemma emit_advanced (e : Event) (m : Machine) :
  urls [e] = [] -> installs [e] = [] ->
  emit e m = (tt, advanced m (Info (self m)) [e]).
Proof.
  intros U I. unfold emit. rewrite (advanced_same _ _ I), U. reflexivity.
Qed.

Ltac destruct_machine :=
  match goal with
  | m : Machine |- _ => destruct m; reflexivity
  end.

Lemma bind_run {A B : Type} (c : M A) (k : A -> M B) (m : Machine) :
  bind c k m = k (fst (c m)) (snd (c m)).
Proof. unfold bind. destruct (c m); reflexivity. Qed.

Ltac same_machine :=
  rewrite ?advanced_nil; unfold advanced, installed_fs; machine;
  cbn [installs urls length fold_left];
  rewrite <- ?app_assoc; cbn [app]; rewrite ?with_Info_same;
  first [reflexivity | destruct_machine].

Section Stretches.
Context `{Libraries}.

(** What [fetchInfo] returns and where it leaves the machine, by the answer
    to its request and by what the decoder makes of it. *)
Lemma fetchInfo_eq (m : Machine) :
  fetchInfo m
  = match reply m 0 (fullUrl (self m)) with
    | inl e =>
        (Some (Wrapf e
           "Couldn't fetch `json` with information for update (url=%s)"
           [fullUrl (self m)]),
         advanced m (Info (self m)) [EvFetch (fullUrl (self m))])
    | inr body =>
        let (i, de) := json_Decode body (Info (self m)) in
        (match de with
         | Some e => Some (Wrapf e "Couldn't decode JSON (%s)" [])
         | None =>
             if (length (Sha256 i) =? sha256.Size)%nat then None
             else Some (Errorf "Bad cmd hash in JSON info" [])
         end,
         advanced m i [EvFetch (fullUrl (self m))])
    end.
Proof.
  unfold fetchInfo, bind, receiver. rewrite fetch_run.
  destruct (reply m 0 (fullUrl (self m))) as [e|body].
  - unfold ret. f_equal. same_machine.
  - unfold decode_Info, ret. machine.
    destruct (json_Decode body (Info (self m))) as [i [e|]]; machine.
    + f_equal.
    + destruct (length (Sha256 i) =? sha256.Size)%nat; reflexivity.
Qed.

Lemma fetchAndApplyPatch_eq (old : File) (m : Machine) :
  let u := self m in
  let start := EvLog Debug (inl "Starting to fetch patch") None in
  fetchAndApplyPatch old m
  = match reply m 0 (patchUrl u) with
    | inl e =>
        let err := Wrapf e "Errored fetching path" [] in
        (inl err,
         advanced m (Info u) [start; EvFetch (patchUrl u); EvLog Warn (inr err) None])
    | inr body =>
        match binarydist_Patch (file_content old) body with
        | inl e =>
            let err := Wrapf e "Errored using binarydist to patch (url=%s)"
                         [patchUrl u] in
            (inl err,
             advanced m (Info u)
               [start; EvFetch (patchUrl u); EvLog Warn (inr err) None])
        | inr buf => (inr buf, advanced m (Info u) [start; EvFetch (patchUrl u)])
        end
    end.
Proof.
  intros u start. subst u start.
  unfold fetchAndApplyPatch, bind, receiver, log_Debug, log_Warn_err, emit, ret.
  rewrite fetch_run. machine.
  change (reply (with_trace _ m) 0 ?u) with (reply m 0 u).
  destruct (reply m 0 (patchUrl (self m))) as [e|body].
  - f_equal. same_machine.
  - destruct (binarydist_Patch (file_content old) body); f_equal; same_machine.
Qed.

Lemma fetchBin_eq (m : Machine) :
  let u := self m in
  let start := EvLog Debug (inl "Starting to fetch full binary") None in
  let failed err :=
    (inl err : error + list byte,
     advanced m (Info u) [start; EvFetch (fetchUrl u); EvLog Warn (inr err) None]) in
  fetchBin m
  = match reply m 0 (fetchUrl u) with
    | inl e => failed (Wrapf e "Failed to fetch full binary (url=%s)" [fetchUrl u])
    | inr body =>
        match gzip_ReadAll body with
        | GzipHeaderErr e => failed (Wrapf e "Failed to create gzip reader" [])
        | GzipCopyErr e => failed (Wrapf e "Failed to copy gzip content to buf" [])
        | GzipData buf => (inr buf, advanced m (Info u) [start; EvFetch (fetchUrl u)])
        end
    end.
Proof.
  intros u start failed. subst u start failed.
  unfold fetchBin, bind, receiver, log_Debug, log_Warn_err, emit, ret.
  rewrite fetch_run. machine.
  change (reply (with_trace _ m) 0 ?u) with (reply m 0 u).
  destruct (reply m 0 (fetchUrl (self m))) as [e|body].
  - f_equal. same_machine.
  - destruct (gzip_ReadAll body); f_equal; same_machine.
Qed.

Lemma verifySha_eq (bin sha : list byte) (m : Machine) :
  verifySha bin sha m
  = if bytes.Equal (sha256.Sum256 bin) sha then (true, m)
    else (false, advanced m (Info (self m)) [EvLog Warn (inl "SHA mismatch") None]).
Proof.
  unfold verifySha, bind, ret, log_Warn, emit.
  destruct (bytes.Equal _ _); cbn [negb]; [reflexivity|].
  f_equal. same_machine.
Qed.

Lemma os_Open_eq (path : string) (m : Machine) :
  os_Open path m
  = match fs m !! path with
    | Some nd =>
        match handle path nd with
        | Some old => (inr old, advanced m (Info (self m)) [EvOpen path])
        | None => (inl (ErrPath "open" path EACCES), m)
        end
    | None => (inl (ErrPath "open" path ENOENT), m)
    end.
Proof.
  unfold os_Open. destruct (fs m !! path) as [[|[] w data]|]; cbn [handle];
    try reflexivity; f_equal; same_machine.
Qed.

Lemma self_advanced (m : Machine) (i : info) (evs : list Event) :
  self (advanced m i evs) = with_Info i (self m).
Proof. reflexivity. Qed.

Lemma with_Info_twice (i j : info) (u : Updater) :
  with_Info j (with_Info i u) = with_Info j u.
Proof. reflexivity. Qed.

Lemma advanced_keep (m : Machine) (i : info) (e1 e2 : list Event) :
  advanced (advanced m i e1) (Info (with_Info i (self m))) e2
  = advanced m i (e1 ++ e2).
Proof. apply advanced_advanced. Qed.

(** [fetchAndVerifyPatch]: one request, the patch; bytes come back only
    verified. *)
Lemma fetchAndVerifyPatch_stretch (old : File) (m : Machine) :
  exists res evs,
    fetchAndVerifyPatch old m = (res, advanced m (Info (self m)) evs)
    /\ urls evs = [patchUrl (self m)]
    /\ installs evs = [] /\ writes evs = []
    /\ match res with
       | inr bin =>
           sha256.Sum256 bin = Sha256 (Info (self m))
           /\ exists patch, reply m 0 (patchUrl (self m)) = inr patch
                            /\ binarydist_Patch (file_content old) patch = inr bin
       | inl _ => patch_path_fails m 0 (self m) old
       end.
Proof.
  unfold fetchAndVerifyPatch, patch_path_fails. rewrite bind_run, fetchAndApplyPatch_eq.
  cbv zeta.
  destruct (reply m 0 (patchUrl (self m))) as [e|patch].
  - cbn [fst snd]. unfold ret. eexists _, _. split; [reflexivity|].
    repeat split.
  - destruct (binarydist_Patch (file_content old) patch) as [e|bin] eqn:P.
    + cbn [fst snd]. unfold ret. eexists _, _. split; [reflexivity|].
      repeat split.
    + cbn [fst snd]. unfold bind, receiver. rewrite verifySha_eq.
      rewrite self_advanced, with_Info_same.
      destruct (bytes.Equal _ _) eqn:Q; cbn [negb]; unfold ret.
      * eexists _, _. split; [reflexivity|]. repeat split.
        -- now apply bytes_Equal_spec.
        -- now exists patch.
      * rewrite advanced_advanced. cbn [app].
        eexists _, _. split; [reflexivity|]. repeat split.
        intros Eq. apply bytes_Equal_spec in Eq. congruence.
Qed.

(** [fetchAndVerifyFullBin]: one request, the full binary; bytes come back
    only verified. *)
Lemma fetchAndVerifyFullBin_stretch (m : Machine) :
  exists res evs,
    fetchAndVerifyFullBin m = (res, advanced m (Info (self m)) evs)
    /\ urls evs = [fetchUrl (self m)]
    /\ installs evs = [] /\ writes evs = []
    /\ match res with
       | inr bin =>
           sha256.Sum256 bin = Sha256 (Info (self m))
           /\ exists gz, reply m 0 (fetchUrl (self m)) = inr gz
                         /\ gzip_ReadAll gz = GzipData bin
       | inl err => is_ErrHashMismatch err = false
       end.
Proof.
  unfold fetchAndVerifyFullBin. rewrite bind_run, fetchBin_eq. cbv zeta.
  destruct (reply m 0 (fetchUrl (self m))) as [e|gz].
  - cbn [fst snd]. unfold ret. eexists _, _. split; [reflexivity|]. repeat split.
  - destruct (gzip_ReadAll gz) as [e|e|bin] eqn:G.
    + cbn [fst snd]. unfold ret. eexists _, _. split; [reflexivity|]. repeat split.
    + cbn [fst snd]. unfold ret. eexists _, _. split; [reflexivity|]. repeat split.
    + cbn [fst snd]. unfold bind, receiver. rewrite verifySha_eq.
      rewrite self_advanced, with_Info_same.
      destruct (bytes.Equal _ _) eqn:Q; cbn [negb]; unfold ret.
      * eexists _, _. split; [reflexivity|]. repeat split.
        -- now apply bytes_Equal_spec.
        -- now exists gz.
      * rewrite advanced_advanced. cbn [app].
        eexists _, _. split; [reflexivity|]. repeat split.
Qed.

Lemma handle_name (path : string) (nd : node) (old : File) :
  handle path nd = Some old -> file_name old = path.
Proof.
  destruct nd as [|[] w data]; cbn; intros E; try discriminate;
    now injection E as <-.
Qed.

Lemma log_advanced (lvl : Level) (msg : string + error) (we : option error)
    (m : Machine) :
  emit (EvLog lvl msg we) m = (tt, advanced m (Info (self m)) [EvLog lvl msg we]).
Proof. now apply emit_advanced. Qed.

Lemma patch_failure_quiet (u : Updater) (err : error) (m : Machine) :
  exists lg,
    (if is_ErrHashMismatch err then log_Debug "Hash mismatch from patched binary"
     else if negb (String.eqb (DiffURL u) "")
          then log_WithError_Debug err "Patching binary"
          else ret tt) m
    = (tt, advanced m (Info (self m)) lg)
    /\ urls lg = [] /\ installs lg = [] /\ writes lg = [].
Proof.
  unfold log_Debug, log_WithError_Debug, ret.
  destruct (is_ErrHashMismatch err);
    [eexists [_]; rewrite log_advanced; repeat split|].
  destruct (negb _); [eexists [_]; rewrite log_advanced; repeat split|].
  exists []. now rewrite advanced_nil.
Qed.

Lemma full_failure_quiet (err : error) (m : Machine) :
  exists lg,
    (if is_ErrHashMismatch err then log_Debug "Hash mismatch from full binary"
     else log_WithError_Debug err "Fetching full binary") m
    = (tt, advanced m (Info (self m)) lg)
    /\ urls lg = [] /\ installs lg = [] /\ writes lg = [].
Proof.
  unfold log_Debug, log_WithError_Debug.
  destruct (is_ErrHashMismatch err);
    eexists [_]; rewrite log_advanced; repeat split.
Qed.

(** The end of [update] once an image is verified: the handle is closed
    and the image is handed to the installer. *)
Lemma install_eq (old : File) (bin : list byte) (m : Machine) :
  (File_Close old ;;
   r <- up_FromStream bin ;;
   match r with
   | (Some err, Some errRecover) => ret (Some (ErrRecovery err errRecover))
   | (None, Some errRecover) => ret (Some (ErrRecoveryOnly errRecover))
   | (Some err, None) => ret (Some err)
   | (None, None) => ret None
   end) m
  = (reported (FromStream m bin),
     advanced m (Info (self m)) [EvClose (file_name old); EvInstall bin]).
Proof.
  unfold bind, File_Close, up_FromStream, emit, ret, reported. machine.
  destruct (FromStream m bin) as [[e|] [r|]]; f_equal; same_machine.
Qed.

(** Every run of [update] once the executable is open, in one statement:
    where it leaves the machine, which requests it makes, and what it
    installs. *)
Lemma update_opened_outcome (old : File) (m : Machine) :
  exists res i evs,
    update_opened old m = (res, advanced m i evs)
    /\ writes evs = []
    /\ urls evs `prefix_of`
         [fullUrl (self m); patchUrl (with_Info i (self m));
          fetchUrl (with_Info i (self m))]
    /\ ((installs evs = []
         /\ (res = None ->
             length (Sha256 i) = sha256.Size
             /\ Version i = CurrentVersion (self m)
             /\ urls evs = [fullUrl (self m)]))
        \/ exists bin pre,
             evs = (pre ++ [EvClose (file_name old); EvInstall bin])%list
             /\ installs pre = []
             /\ sha256.Sum256 bin = Sha256 i
             /\ length (Sha256 i) = sha256.Size
             /\ Version i <> CurrentVersion (self m)
             /\ res = reported (FromStream m bin)).
Proof.
  unfold update_opened. rewrite bind_run, fetchInfo_eq.
  destruct (reply m 0 (fullUrl (self m))) as [e|body] eqn:R.
  { cbn [fst snd]. unfold ret. eexists _, _, _. split; [reflexivity|].
    split; [reflexivity|]. split; [cbn [urls]; eexists; reflexivity|].
    left. split; [reflexivity | discriminate]. }
  destruct (json_Decode body (Info (self m))) as [i [e|]] eqn:D.
  { cbn [fst snd]. unfold ret. eexists _, _, _. split; [reflexivity|].
    split; [reflexivity|]. split; [cbn [urls]; eexists; reflexivity|].
    left. split; [reflexivity | discriminate]. }
  destruct (length (Sha256 i) =? sha256.Size)%nat eqn:L.
  2:{ cbn [fst snd]. unfold ret. eexists _, _, _. split; [reflexivity|].
      split; [reflexivity|]. split; [cbn [urls]; eexists; reflexivity|].
      left. split; [reflexivity | discriminate]. }
  apply Nat.eqb_eq in L.
  cbn [fst snd]. set (m2 := advanced m i [EvFetch (fullUrl (self m))]).
  rewrite bind_run. unfold receiver. cbn [fst snd].
  change (self m2) with (with_Info i (self m)).
  cbn [Version Info with_Info CurrentVersion DiffURL].
  destruct (String.eqb (Version i) (CurrentVersion (self m))) eqn:V.
  { apply String.eqb_eq in V.
    unfold bind, log_Debug, ret. cbv beta iota. rewrite log_advanced. unfold m2.
    rewrite advanced_advanced. cbn [app].
    eexists _, _, _. split; [reflexivity|].
    split; [reflexivity|]. split; [cbn [urls]; eexists; reflexivity|].
    left. split; [reflexivity | now intros _]. }
  apply String.eqb_neq in V. cbv beta iota.
  rewrite bind_run.
  destruct (fetchAndVerifyPatch_stretch old m2) as (p & pe & -> & Pu & Pi & Pw & Pr).
  cbn [fst snd].
  change (Info (self m2)) with i. change (self m2) with (with_Info i (self m)) in Pu.
  unfold m2. rewrite advanced_advanced. cbn [app].
  destruct p as [perr|bin].
  2:{ (* the patched image is verified *)
      destruct Pr as [Pv _]. change (Info (self m2)) with i in Pv.
      rewrite bind_run. unfold ret. cbn [fst snd].
      pose proof (install_eq old bin) as Hi. unfold ret in Hi. rewrite Hi.
      rewrite advanced_advanced.
      change (FromStream (advanced _ _ _)) with (FromStream m).
      eexists _, _, _. split; [reflexivity|].
      split; [cbn [writes app]; rewrite writes_app, Pw; reflexivity|].
      split; [cbn [urls app]; rewrite urls_app, Pu; cbn [urls app];
              eexists; reflexivity|].
      right. exists bin, (EvFetch (fullUrl (self m)) :: pe).
      cbn [installs]. repeat split; assumption. }
  (* the patch path failed: the full binary *)
  clear Pr.
  set (m3 := advanced m i (EvFetch (fullUrl (self m)) :: pe)).
  rewrite bind_run, (bind_run _ _ m3).
  destruct (patch_failure_quiet (self m) perr m3) as (lg & -> & Lu & Li & Lw).
  cbn [fst snd]. change (Info (self m3)) with i.
  unfold m3. rewrite advanced_advanced.
  set (m4 := advanced m i _).
  rewrite bind_run.
  destruct (fetchAndVerifyFullBin_stretch m4) as (f & fe & -> & Fu & Fi & Fw & Fr).
  cbn [fst snd]. change (Info (self m4)) with i in *.
  change (self m4) with (with_Info i (self m)) in Fu.
  unfold m4. rewrite advanced_advanced.
  destruct f as [ferr|bin].
  - rewrite bind_run.
    destruct (full_failure_quiet ferr
                (advanced m i (((EvFetch (fullUrl (self m)) :: pe) ++ lg) ++ fe)))
      as (lg2 & -> & L2u & L2i & L2w).
    unfold ret. cbn [fst snd]. rewrite advanced_advanced.
    eexists _, _, _. split; [reflexivity|].
    split; [cbn [writes app]; rewrite !writes_app, Pw, Lw, Fw, L2w; reflexivity|].
    split; [cbn [urls app]; rewrite !urls_app, Pu, Lu, Fu, L2u; cbn [urls app];
            eexists; reflexivity|].
    left. split; [|discriminate].
    cbn [installs app]. rewrite !installs_app, Pi, Li, Fi, L2i. reflexivity.
  - destruct Fr as [Fv _].
    unfold ret. cbn [fst snd].
    pose proof (install_eq old bin) as Hi. unfold ret in Hi. rewrite Hi.
    rewrite advanced_advanced.
    change (FromStream (advanced _ _ _)) with (FromStream m).
    eexists _, _, _. split; [reflexivity|].
    split; [cbn [writes app]; rewrite !writes_app, Pw, Lw, Fw; reflexivity|].
    split; [cbn [urls app]; rewrite !urls_app, Pu, Lu, Fu; cbn [urls app];
            eexists; reflexivity|].
    right. exists bin, (((EvFetch (fullUrl (self m)) :: pe) ++ lg) ++ fe)%list.
    cbn [installs app]. rewrite !installs_app, Pi, Li, Fi.
    repeat split; assumption.
Qed.

(** [update] without an executable to open: an error, and nothing done. *)
Lemma update_unopened (m : Machine) :
  (forall exe old, ~ opens m exe old) ->
  exists err, update m = (Some err, m).
Proof.
  intros No. unfold update. rewrite bind_run. unfold osext_Executable. cbn [fst snd].
  destruct (executable m) as [e|exe] eqn:E; [eexists; reflexivity|].
  rewrite bind_run, os_Open_eq.
  destruct (fs m !! exe) as [nd|] eqn:N; [|eexists; reflexivity].
  destruct (handle exe nd) as [old|] eqn:O; [|eexists; reflexivity].
  exfalso. apply (No exe old). split; [exact E | now exists nd].
Qed.

(** [update] with the executable open: the run of [update_opened] between
    the open and the deferred close. *)
Lemma update_opened_eq (m : Machine) (exe : string) (old : File) :
  opens m exe old ->
  update m
  = (fst (update_opened old (advanced m (Info (self m)) [EvOpen exe])),
     advanced (snd (update_opened old (advanced m (Info (self m)) [EvOpen exe])))
       (Info (self (snd (update_opened old
                           (advanced m (Info (self m)) [EvOpen exe])))))
       [EvClose exe]).
Proof.
  intros (E & nd & N & O).
  unfold update. rewrite bind_run. unfold osext_Executable. cbn [fst snd].
  rewrite E, bind_run, os_Open_eq, N, O. cbn [fst snd].
  rewrite bind_run. unfold bind, File_Close, ret.
  rewrite (handle_name _ _ _ O).
  rewrite (emit_advanced (EvClose exe)); reflexivity.
Qed.

(** Every run of [update] that opens the executable, in one statement. *)
Lemma update_outcome (m : Machine) (exe : string) (old : File) :
  opens m exe old ->
  exists res i mid,
    update m = (res, advanced m i (EvOpen exe :: mid ++ [EvClose exe]))
    /\ writes mid = []
    /\ urls mid `prefix_of`
         [fullUrl (self m); patchUrl (with_Info i (self m));
          fetchUrl (with_Info i (self m))]
    /\ ((installs mid = []
         /\ (res = None ->
             length (Sha256 i) = sha256.Size
             /\ Version i = CurrentVersion (self m)
             /\ urls mid = [fullUrl (self m)]))
        \/ exists bin pre,
             mid = (pre ++ [EvClose exe; EvInstall bin])%list
             /\ installs pre = []
             /\ sha256.Sum256 bin = Sha256 i
             /\ length (Sha256 i) = sha256.Size
             /\ Version i <> CurrentVersion (self m)
             /\ res = reported (FromStream m bin)).
Proof.
  intros Op. rewrite (update_opened_eq m exe old Op).
  destruct Op as (E & nd & N & O).
  set (m1 := advanced m (Info (self m)) [EvOpen exe]).
  destruct (update_opened_outcome old m1) as (res & i & mid & -> & W & U & I).
  cbn [fst snd]. change (Info (self (advanced m1 i mid))) with i.
  unfold m1. rewrite !advanced_advanced. cbn [app].
  change (self m1) with (with_Info (Info (self m)) (self m)) in *.
  rewrite with_Info_same in *. change (FromStream m1) with (FromStream m) in I.
  rewrite (handle_name _ _ _ O) in I.
  exists res, i, mid. repeat split; assumption.
Qed.

End Stretches.

(** ** Every run of the update *)

Section UpdateRuns.
Context `{Libraries}.

Lemma opens_or_not (m : Machine) :
  (exists exe old, opens m exe old) \/ (forall exe old, ~ opens m exe old).
Proof.
  unfold opens.
  destruct (executable m) as [e|exe] eqn:E.
  - right. intros exe old [A _]. discriminate.
  - destruct (fs m !! exe) as [nd|] eqn:N.
    + destruct (handle exe nd) as [old|] eqn:O.
      * left. exists exe, old. split; [reflexivity | now exists nd].
      * right. intros exe' old [A (nd' & B & C)]. injection A as <-.
        rewrite N in B. injection B as <-. congruence.
    + right. intros exe' old [A (nd' & B & C)]. injection A as <-. congruence.
Qed.

(** X1. Whatever the machine, the network and the libraries do, [update]
    hands at most one image to the installer, and the SHA-256 digest of that
    image is the digest held in [u.Info] when [update] returns. *)
Theorem update_installs_only_verified (m : Machine) :
  exists l,
    installs (trace (snd (update m))) = (installs (trace m) ++ l)%list
    /\ (l = []
        \/ exists bin, l = [bin]
                       /\ sha256.Sum256 bin
                          = Sha256 (Info (self (snd (update m))))).
Proof.
  destruct (opens_or_not m) as [(exe & old & Op)|No].
  - destruct (update_outcome m exe old Op) as (res & i & mid & -> & _ & _ & I).
    cbn [snd]. unfold advanced. machine. rewrite installs_app. cbn [installs].
    rewrite installs_app. cbn [installs]. rewrite app_nil_r.
    exists (installs mid). split; [reflexivity|].
    destruct I as [[I _]|(bin & pre & -> & Ip & V & _)]; [now left|].
    right. exists bin. rewrite installs_app, Ip. split; [reflexivity | exact V].
  - destruct (update_unopened m No) as [err ->]. exists []. cbn [snd].
    rewrite app_nil_r. split; [reflexivity | now left].
Qed.

(** X2. The requests of [update] are, in this order and each at most once,
    the metadata, the patch and the full binary: it never asks for the full
    binary without having asked for the patch, and for neither without the
    metadata. *)
Theorem update_requests_in_order (m : Machine) :
  exists l,
    urls (trace (snd (update m))) = (urls (trace m) ++ l)%list
    /\ l `prefix_of`
         [fullUrl (self m); patchUrl (self (snd (update m)));
          fetchUrl (self (snd (update m)))].
Proof.
  destruct (opens_or_not m) as [(exe & old & Op)|No].
  - destruct (update_outcome m exe old Op) as (res & i & mid & -> & _ & U & _).
    cbn [snd]. rewrite self_advanced. unfold advanced. machine.
    rewrite urls_app. cbn [urls]. rewrite urls_app. cbn [urls]. rewrite app_nil_r.
    exists (urls mid). split; [reflexivity | exact U].
  - destruct (update_unopened m No) as [err ->]. exists []. cbn [snd].
    rewrite app_nil_r. split; [reflexivity | apply prefix_nil].
Qed.

(** X3. [update] releases the handle of the executable on every path:
    either it does nothing at all, or what it does starts with opening the
    executable and ends with closing it; and when an image is installed, the
    handle is closed right before and the install is the last thing done
    before the deferred close. *)
Theorem update_releases_handle (m : Machine) :
  exists evs,
    added m (snd (update m)) evs
    /\ (evs = []
        \/ exists exe mid,
             executable m = inr exe
             /\ evs = (EvOpen exe :: mid ++ [EvClose exe])%list
             /\ (installs mid = []
                 \/ exists pre bin,
                      mid = (pre ++ [EvClose exe; EvInstall bin])%list
                      /\ installs pre = [])).
Proof.
  unfold added.
  destruct (opens_or_not m) as [(exe & old & Op)|No].
  - destruct (update_outcome m exe old Op) as (res & i & mid & -> & _ & _ & I).
    cbn [snd]. unfold advanced. machine.
    exists (EvOpen exe :: mid ++ [EvClose exe])%list. split; [reflexivity|].
    right. exists exe, mid. split; [apply Op|]. split; [reflexivity|].
    destruct I as [[I _]|(bin & pre & -> & Ip & _)]; [now left|].
    right. now exists pre, bin.
  - destruct (update_unopened m No) as [err ->]. exists []. cbn [snd].
    rewrite app_nil_r. split; [reflexivity | now left].
Qed.

(** X4. [update] returns nil in two cases only: the metadata, with a
    32-byte digest, names the running version, and then the metadata request
    is all it made and nothing was installed; or one verified image was
    installed and the installer reported neither an error nor a failed
    recovery. *)
Theorem update_nil_result (m : Machine) :
  fst (update m) = None ->
  let i := Info (self (snd (update m))) in
  exists evs,
    added m (snd (update m)) evs
    /\ length (Sha256 i) = sha256.Size
    /\ ((Version i = CurrentVersion (self m)
         /\ urls evs = [fullUrl (self m)] /\ installs evs = [])
        \/ exists bin,
             installs evs = [bin]
             /\ sha256.Sum256 bin = Sha256 i
             /\ Version i <> CurrentVersion (self m)
             /\ FromStream m bin = (None, None)).
Proof.
  unfold added.
  destruct (opens_or_not m) as [(exe & old & Op)|No].
  - destruct (update_outcome m exe old Op) as (res & i & mid & -> & _ & _ & I).
    cbn [fst snd]. intros ->. rewrite self_advanced. cbn [Info with_Info].
    unfold advanced. machine.
    exists (EvOpen exe :: mid ++ [EvClose exe])%list. split; [reflexivity|].
    cbn [urls installs]. rewrite urls_app, installs_app. cbn [urls installs].
    rewrite !app_nil_r.
    destruct I as [[I Hn]|(bin & pre & -> & Ip & V & L & Ne & R)].
    + destruct (Hn eq_refl) as (L & V & U). split; [exact L|]. now left.
    + split; [exact L|]. right. exists bin. rewrite installs_app, Ip.
      repeat split; try assumption.
      destruct (FromStream m bin) as [[e1|] [e2|]]; cbn in R; congruence.
  - destruct (update_unopened m No) as [err ->]. discriminate.
Qed.

(** X5. When [update] hands an image to the installer, its result is the
    report of the installer: nil exactly when the installer reports neither
    an error nor a failed recovery; a failed recovery always comes back as a
    recovery error, whether or not there is a primary error with it; and
    without a failed recovery the primary error comes back as it is. *)
Theorem update_reports_install (m : Machine) (bin : list byte) :
  installs (trace (snd (update m))) = (installs (trace m) ++ [bin])%list ->
  (fst (update m) = None <-> FromStream m bin = (None, None))
  /\ (forall errRecover, snd (FromStream m bin) = Some errRecover ->
      exists e, fst (update m) = Some e /\ is_recovery e = true)
  /\ (snd (FromStream m bin) = None -> fst (update m) = fst (FromStream m bin)).
Proof.
  destruct (opens_or_not m) as [(exe & old & Op)|No].
  - destruct (update_outcome m exe old Op) as (res & i & mid & -> & _ & _ & I).
    cbn [fst snd]. unfold advanced. machine.
    rewrite installs_app. cbn [installs]. rewrite installs_app. cbn [installs].
    rewrite app_nil_r. intros E. apply app_inv_head in E.
    destruct I as [[I _]|(b & pre & -> & Ip & _ & _ & _ & ->)]; [congruence|].
    rewrite installs_app, Ip in E. injection E as ->.
    destruct (FromStream m bin) as [[e1|] [e2|]]; cbn [reported fst snd];
      repeat split; try congruence; try discriminate.
    + intros r _. eexists; split; reflexivity.
    + intros r _. eexists; split; reflexivity.
  - destruct (update_unopened m No) as [err ->]. cbn [snd]. intros E.
    rewrite <- (app_nil_r (installs (trace m))) in E at 1.
    apply app_inv_head in E. discriminate.
Qed.

(** X6. When the executable cannot be located, or cannot be opened,
    [update] returns an error and leaves the machine as it was: no request,
    no log entry, nothing installed. *)
Theorem update_without_executable (m : Machine) :
  (forall exe old, ~ opens m exe old) ->
  snd (update m) = m /\ fst (update m) <> None.
Proof.
  intros No. destruct (update_unopened m No) as [err ->].
  split; [reflexivity | discriminate].
Qed.

End UpdateRuns.

(** ** The metadata and the full binary *)

Lemma Sprintf_fetch_json (u : string) :
  fmt.Sprintf "Couldn't fetch `json` with information for update (url=%s)" [u]
  = "Couldn't fetch `json` with information for update (url=" ++ u ++ ")".
Proof.
  cbv [fmt.Sprintf fmt.verb fmt.leftover Ascii.eqb Bool.eqb orb].
  rewrite !append_String, !append_empty_l. reflexivity.
Qed.

Lemma Sprintf_decode_json :
  fmt.Sprintf "Couldn't decode JSON (%s)" [] = "Couldn't decode JSON (%!s(MISSING))".
Proof. vm_compute. reflexivity. Qed.

Section Metadata.
Context `{Libraries}.

(** X7. When the request for the metadata fails (a transport error, or a
    Requester that hands back no stream), [fetchInfo] returns that error
    wrapped in a message that names the URL, and leaves [u.Info] as it was. *)
Theorem fetchInfo_failed_request (m : Machine) (e : error) :
  reply m 0 (fullUrl (self m)) = inl e ->
  fst (fetchInfo m)
  = Some (ErrWrap e ("Couldn't fetch `json` with information for update (url="
                     ++ fullUrl (self m) ++ ")"))
  /\ self (snd (fetchInfo m)) = self m.
Proof.
  intros R. rewrite fetchInfo_eq, R. cbn [fst snd]. unfold Wrapf.
  rewrite Sprintf_fetch_json, self_advanced, with_Info_same. split; reflexivity.
Qed.

(** X8. [fetchInfo] makes one request, for the metadata, whatever comes of
    it; and when it returns nil the digest in [u.Info] is 32 bytes long and
    [u.Info] is what the decoder made, without error, of the body
    received. *)
Theorem fetchInfo_nil_result (m : Machine) :
  urls (trace (snd (fetchInfo m))) = (urls (trace m) ++ [fullUrl (self m)])%list
  /\ (fst (fetchInfo m) = None ->
      length (Sha256 (Info (self (snd (fetchInfo m))))) = sha256.Size
      /\ exists body,
           reply m 0 (fullUrl (self m)) = inr body
           /\ json_Decode body (Info (self m))
              = (Info (self (snd (fetchInfo m))), None)).
Proof.
  rewrite fetchInfo_eq.
  destruct (reply m 0 (fullUrl (self m))) as [e|body].
  - cbn [fst snd]. unfold advanced. machine. rewrite urls_app.
    split; [reflexivity | discriminate].
  - destruct (json_Decode body (Info (self m))) as [i [e|]] eqn:D;
      cbn [fst snd]; unfold advanced; machine; rewrite urls_app;
      (split; [reflexivity|]); try discriminate.
    destruct (length (Sha256 i) =? sha256.Size)%nat eqn:L; try discriminate.
    intros _. split; [now apply Nat.eqb_eq | now exists body].
Qed.

(** X9. When the decoder fails, [fetchInfo] returns its error wrapped, and
    [u.Info] holds whatever the decoder had stored by then.  The format of
    the message has a verb and no operand, so the message ends in
    [%!s(MISSING)]. *)
Theorem fetchInfo_decode_error (m : Machine) (body : list byte) (i : info)
    (e : error) :
  reply m 0 (fullUrl (self m)) = inr body ->
  json_Decode body (Info (self m)) = (i, Some e) ->
  fst (fetchInfo m) = Some (ErrWrap e "Couldn't decode JSON (%!s(MISSING))")
  /\ Info (self (snd (fetchInfo m))) = i.
Proof.
  intros R D. rewrite fetchInfo_eq, R, D. cbn [fst snd]. unfold Wrapf.
  rewrite Sprintf_decode_json. split; reflexivity.
Qed.

(** X10. [fetchBin] makes one request, for the full binary.  It returns
    bytes exactly when the answer is a stream that inflates, and then the
    inflated bytes; and every error it returns is the last thing it logged,
    at Warn level. *)
Theorem fetchBin_result (m : Machine) :
  urls (trace (snd (fetchBin m))) = (urls (trace m) ++ [fetchUrl (self m)])%list
  /\ (forall buf,
        fst (fetchBin m) = inr buf
        <-> exists gz, reply m 0 (fetchUrl (self m)) = inr gz
                       /\ gzip_ReadAll gz = GzipData buf)
  /\ (forall err,
        fst (fetchBin m) = inl err ->
        exists pre, trace (snd (fetchBin m))
                    = (trace m ++ pre ++ [EvLog Warn (inr err) None])%list).
Proof.
  rewrite fetchBin_eq. cbv zeta.
  destruct (reply m 0 (fetchUrl (self m))) as [e|gz].
  - cbn [fst snd]. unfold advanced. machine. rewrite urls_app.
    split; [reflexivity|]. split.
    + intros buf. split; [discriminate | intros (g & G & _); discriminate].
    + intros err E. injection E as <-. eexists [_; _]; reflexivity.
  - destruct (gzip_ReadAll gz) as [e|e|data] eqn:G;
      cbn [fst snd]; unfold advanced; machine; rewrite urls_app;
      (split; [reflexivity|]); split.
    + intros buf. split; [discriminate|].
      intros (g & E & G'). injection E as <-. congruence.
    + intros err E. injection E as <-. eexists [_; _]; reflexivity.
    + intros buf. split; [discriminate|].
      intros (g & E & G'). injection E as <-. congruence.
    + intros err E. injection E as <-. eexists [_; _]; reflexivity.
    + intros buf. split.
      * intros E. injection E as <-. now exists gz.
      * intros (g & E & G'). injection E as <-. congruence.
    + discriminate.
Qed.

(** X11. Which error tells a hash mismatch.  From [fetchAndVerifyPatch]
    the error is the sentinel [ErrHashMismatch] itself exactly when a patch
    was fetched and applied and the patched image has the wrong digest; from
    [fetchAndVerifyFullBin] the error is never the sentinel itself, the
    mismatch being wrapped, so that [err == ErrHashMismatch] is false on
    every error of the full-binary path. *)
Theorem hash_mismatch_errors (old : File) (m : Machine) (err : error) :
  (fst (fetchAndVerifyPatch old m) = inl err ->
   (is_ErrHashMismatch err = true
    <-> exists patch bin,
          reply m 0 (patchUrl (self m)) = inr patch
          /\ binarydist_Patch (file_content old) patch = inr bin
          /\ sha256.Sum256 bin <> Sha256 (Info (self m))))
  /\ (fst (fetchAndVerifyFullBin m) = inl err -> is_ErrHashMismatch err = false).
Proof.
  split.
  - unfold fetchAndVerifyPatch. rewrite bind_run, fetchAndApplyPatch_eq. cbv zeta.
    destruct (reply m 0 (patchUrl (self m))) as [e|patch].
    + cbn [fst snd]. unfold ret. cbn [fst]. intros E. injection E as <-.
      split; [discriminate | intros (p & b & A & _); discriminate].
    + destruct (binarydist_Patch (file_content old) patch) as [e|bin] eqn:P.
      * cbn [fst snd]. unfold ret. cbn [fst]. intros E. injection E as <-.
        split; [discriminate|].
        intros (p & b & A & B & _). injection A as <-. congruence.
      * cbn [fst snd]. unfold bind, receiver. rewrite verifySha_eq.
        rewrite self_advanced, with_Info_same.
        destruct (bytes.Equal _ _) eqn:Q; cbn [negb]; unfold ret; cbn [fst];
          [discriminate|].
        intros E. injection E as <-. split; [|reflexivity].
        intros _. exists patch, bin. repeat split; try assumption.
        intros Eq. apply bytes_Equal_spec in Eq. congruence.
  - destruct (fetchAndVerifyFullBin_stretch m) as (res & evs & -> & _ & _ & _ & R).
    cbn [fst]. intros ->. exact R.
Qed.

End Metadata.

(** ** Every run of the schedule *)

Section ScheduleRuns.
Context `{Libraries}.

Lemma ioutil_WriteFile_eq (path : string) (data : list byte) (m : Machine) :
  exists e,
    ioutil_WriteFile path data m
    = ((if can_write path m then None else Some e), after_write path data m).
Proof.
  unfold ioutil_WriteFile, write_opened, after_write, can_write, can_open, reaching.
  cbn [write_err with_trace fs].
  destruct (fs m !! path) as [[|r [] old]|]; cbn [andb];
    try destruct (create_err m path); cbn [andb];
    try destruct (write_err m path) as [[code n]|];
    first [eexists; reflexivity | exists ErrHashMismatch; reflexivity].
Qed.

Lemma writeTime_eq (path : string) (t : Time) (m : Machine) :
  writeTime path t m
  = (can_write path m,
     after_write path (list_byte_of_string (time_Format_RFC3339 t)) m).
Proof.
  unfold writeTime, bind, ret.
  destruct (ioutil_WriteFile_eq path (list_byte_of_string (time_Format_RFC3339 t)) m)
    as [e ->].
  destruct (can_write path m); reflexivity.
Qed.

(** [wantUpdate] once the executable is located: the condition, then the
    draw, the clock and the write. *)
Lemma wantUpdate_located (m : Machine) (exe : string) :
  executable m = inr exe ->
  let path := tokenPath (self m) exe in
  let m1 := snd (skipCheck (self m) path (located m)) in
  wantUpdate m
  = if fst (skipCheck (self m) path (located m)) then (false, m1)
    else (can_write path m,
          after_write path
            (list_byte_of_string (time_Format_RFC3339 (deadline m1)))
            (drawn m1)).
Proof.
  intros E path m1. unfold wantUpdate, bind, receiver.
  rewrite (getExecRelativeDir_found _ exe m E).
  fold (tokenPath (self m) exe). fold path.
  destruct (skipCheck_frame (self m) path (located m)) as [n Hn].
  subst m1. destruct (skipCheck (self m) path (located m)) as [stop m1].
  cbn [fst snd] in *. subst m1.
  destruct stop; [reflexivity|].
  unfold randDuration, rand_Int63n, time_Now, bind, ret.
  rewrite writeTime_eq. reflexivity.
Qed.

Lemma wantUpdate_unlocated (m : Machine) (e : error) :
  executable m = inl e ->
  wantUpdate m
  = (false,
     with_trace
       (trace m ++ [EvLog Error
                      (inr (Wrapf e "Couldn't get path to self executable" []))
                      None]) m).
Proof.
  intros E. unfold wantUpdate, bind, receiver.
  rewrite (getExecRelativeDir_lost _ e m E). reflexivity.
Qed.

Lemma writes_located (m : Machine) : writes (trace (located m)) = writes (trace m).
Proof. unfold located. cbn. rewrite writes_app. cbn. apply app_nil_r. Qed.

Lemma can_write_open (path : string) (m : Machine) :
  can_write path m = true -> can_open path m = true.
Proof. unfold can_write. intros C. now apply andb_true_iff in C as [O _]. Qed.

Lemma after_write_fs (path : string) (data : list byte) (m : Machine) :
  (can_open path m = false -> fs (after_write path data m) = fs m)
  /\ (can_open path m = true ->
      exists rd, fs (after_write path data m)
                 = <[path := Regular rd true (reaching path data m)]> (fs m)
                 /\ (rd = false -> exists w d, fs m !! path = Some (Regular false w d))).
Proof.
  unfold after_write. destruct (can_open path m); split; try discriminate;
    intros _; [|reflexivity].
  cbn [fs with_fs]. eexists. split; [reflexivity|].
  destruct (fs m !! path) as [[|[] w d]|]; try discriminate. intros _. eauto.
Qed.

Lemma after_write_ok (path : string) (data : list byte) (m : Machine) :
  can_write path m = true ->
  exists rd, fs (after_write path data m) = <[path := Regular rd true data]> (fs m)
             /\ (rd = false -> exists w d, fs m !! path = Some (Regular false w d)).
Proof.
  intros C. destruct (after_write_fs path data m) as [_ Hok].
  destruct (Hok (can_write_open path m C)) as (rd & Hfs & Hrd).
  rewrite (reaching_all path data m C) in Hfs. now exists rd.
Qed.

Lemma after_write_frame (path : string) (data : list byte) (m : Machine) :
  let m' := after_write path data m in
  self m' = self m /\ executable m' = executable m /\ fetches m' = fetches m
  /\ FromStream m' = FromStream m /\ FromStream_fs m' = FromStream_fs m
  /\ http_Fetch m' = http_Fetch m /\ clock m' = clock m /\ ticks m' = ticks m
  /\ rand_calls m' = rand_calls m /\ rand_Int63n_at m' = rand_Int63n_at m
  /\ create_err m' = create_err m /\ write_err m' = write_err m
  /\ trace m' = (trace m ++ [EvWriteFile path data])%list.
Proof.
  unfold after_write. destruct (can_open path m); repeat split.
Qed.

(** X12. When the executable cannot be located, [wantUpdate] answers false
    and says so in the log, at Error level; it attempts no write and consults
    neither the clock nor the random source. *)
Theorem wantUpdate_without_executable (m : Machine) (e : error) :
  executable m = inl e ->
  fst (wantUpdate m) = false
  /\ added m (snd (wantUpdate m))
       [EvLog Error (inr (Wrapf e "Couldn't get path to self executable" [])) None]
  /\ fs (snd (wantUpdate m)) = fs m
  /\ ticks (snd (wantUpdate m)) = ticks m
  /\ rand_calls (snd (wantUpdate m)) = rand_calls m.
Proof.
  intros E. rewrite (wantUpdate_unlocated m e E). repeat split.
Qed.

(** X13. Whatever the machine holds, [wantUpdate] attempts at most one
    write, to the token file, and changes no other file.  When it answers
    true the token file has just been written, in full.  When it answers
    false, either the file system is as it was (no write was attempted, or
    the token file could not be opened), or the write failed on the open
    token file, which is left with the bytes written before the failure and
    not with the deadline. *)
Theorem wantUpdate_writes_only_token (m : Machine) :
  let m' := snd (wantUpdate m) in
  (exists ws,
     writes (trace m') = (writes (trace m) ++ ws)%list
     /\ (ws = []
         \/ exists exe data,
              executable m = inr exe /\ ws = [(tokenPath (self m) exe, data)]))
  /\ (forall p, (forall exe, executable m = inr exe -> p <> tokenPath (self m) exe) ->
      fs m' !! p = fs m !! p)
  /\ (fst (wantUpdate m) = true ->
      exists exe data rd,
        executable m = inr exe
        /\ writes (trace m') = (writes (trace m) ++ [(tokenPath (self m) exe, data)])%list
        /\ fs m' = <[tokenPath (self m) exe := Regular rd true data]> (fs m))
  /\ (fst (wantUpdate m) = false ->
      fs m' = fs m
      \/ exists exe data rd code n,
           executable m = inr exe
           /\ writes (trace m')
              = (writes (trace m) ++ [(tokenPath (self m) exe, data)])%list
           /\ write_err m (tokenPath (self m) exe) = Some (code, n)
           /\ fs m' = <[tokenPath (self m) exe := Regular rd true (take n data)]> (fs m))
  /\ (writes (trace m') = writes (trace m) -> fs m' = fs m).
Proof.
  intros m'. subst m'.
  destruct (executable m) as [e|exe] eqn:E.
  { rewrite (wantUpdate_unlocated m e E). cbn [fst snd trace with_trace fs].
    rewrite writes_app. cbn [writes].
    split; [exists []; split; [reflexivity | now left]|].
    repeat split; try discriminate. intros _. now left. }
  rewrite (wantUpdate_located m exe E). cbv zeta.
  set (path := tokenPath (self m) exe).
  destruct (skipCheck_frame (self m) path (located m)) as [n Hn].
  destruct (skipCheck (self m) path (located m)) as [stop m1].
  cbn [fst snd] in *. subst m1.
  destruct stop.
  { cbn [fst snd trace with_ticks fs located with_trace].
    rewrite writes_app. cbn [writes].
    split; [exists []; split; [reflexivity | now left]|].
    repeat split; try discriminate. intros _. now left. }
  cbn [fst snd].
  set (data := list_byte_of_string _). set (m2 := drawn _).
  assert (T : writes (trace (after_write path data m2))
              = (writes (trace m) ++ [(path, data)])%list).
  { destruct (after_write_frame path data m2) as (_&_&_&_&_&_&_&_&_&_&_&_&->).
    rewrite writes_app; cbn [writes]; f_equal; apply writes_located. }
  destruct (after_write_fs path data m2) as [Hko Hok].
  pose proof (after_write_ok path data m2) as Hall.
  change (can_write path m2) with (can_write path m) in *.
  change (can_open path m2) with (can_open path m) in *.
  change (reaching path data m2) with (reaching path data m) in *.
  change (fs m2) with (fs m) in *.
  split; [exists [(path, data)]; split; [exact T | right; now exists exe, data]|].
  split.
  { intros p Hp. specialize (Hp exe eq_refl).
    destruct (can_open path m).
    - destruct (Hok eq_refl) as (rd & -> & _). now apply lookup_insert_ne.
    - now rewrite (Hko eq_refl). }
  split.
  { intros C. destruct (Hall C) as (rd & Hfs & _).
    exists exe, data, rd. repeat split; assumption. }
  split.
  { intros C. destruct (can_open path m) eqn:O; [|left; now apply Hko].
    right. destruct (Hok eq_refl) as (rd & Hfs & _).
    unfold can_write in C. rewrite O in C. cbn [andb] in C.
    unfold reaching in Hfs.
    destruct (write_err m path) as [[code k]|] eqn:W; [|discriminate C].
    exists exe, data, rd, code, k. repeat split; assumption. }
  intros W. rewrite T in W.
  rewrite <- (app_nil_r (writes (trace m))) in W at 2.
  apply app_inv_head in W. discriminate W.
Qed.

(** X14. With [ForceCheck] set, on a build that is not [dev], the token
    file is not consulted: whatever it holds, [wantUpdate] reads the clock
    once, for the new deadline, writes that deadline, and answers whether
    the write succeeded. *)
Theorem wantUpdate_forced (m : Machine) (exe : string) :
  ForceCheck (self m) = true ->
  CurrentVersion (self m) <> "dev" ->
  executable m = inr exe ->
  let path := tokenPath (self m) exe in
  fst (wantUpdate m) = can_write path m
  /\ writes (trace (snd (wantUpdate m)))
     = (writes (trace m)
        ++ [(path, list_byte_of_string (time_Format_RFC3339 (deadline m)))])%list
  /\ ticks (snd (wantUpdate m)) = S (ticks m).
Proof.
  intros F V E path. rewrite (wantUpdate_located m exe E). cbv zeta. fold path.
  unfold skipCheck. apply String.eqb_neq in V. rewrite V, F. cbn [negb].
  unfold ret. cbn [fst snd].
  split; [reflexivity|]. split.
  - unfold after_write.
    destruct (can_open path (drawn (located m)));
      cbn [trace with_fs with_trace drawn located with_ticks with_rand_calls];
      rewrite !writes_app; cbn [writes]; rewrite app_nil_r; reflexivity.
  - unfold after_write. destruct (can_open path (drawn (located m))); reflexivity.
Qed.

(** X15. Without [ForceCheck], on a build that is not [dev], a token that
    is not after the clock reading makes the check due (a token equal to the
    reading included): [wantUpdate] reads the clock a second time, writes the
    new deadline and answers whether the write succeeded. *)
Theorem wantUpdate_expired_token (m : Machine) (exe : string) (w : bool)
    (data : list byte) (t : Time) :
  ForceCheck (self m) = false ->
  CurrentVersion (self m) <> "dev" ->
  executable m = inr exe ->
  let path := tokenPath (self m) exe in
  fs m !! path = Some (Regular true w data) ->
  time_Parse_RFC3339 (string_of_list_byte data) = Some t ->
  t <= clock m (ticks m) ->
  fst (wantUpdate m) = can_write path m
  /\ writes (trace (snd (wantUpdate m)))
     = (writes (trace m)
        ++ [(path, list_byte_of_string
                     (time_Format_RFC3339 (deadline (with_ticks (S (ticks m)) m))))])%list.
Proof.
  intros F V E path L P Hc. rewrite (wantUpdate_located m exe E). cbv zeta. fold path.
  unfold skipCheck. apply String.eqb_neq in V. rewrite V, F. cbn [negb].
  unfold bind. rewrite (readTime_timestamp path (located m) w data t L P).
  unfold time_Now, ret, After. cbn [fst snd clock ticks located with_trace].
  assert (Hlt : (clock m (ticks m) <? t) = false) by lia.
  rewrite Hlt. split; [reflexivity|].
  unfold after_write.
  destruct (can_open path _);
    cbn [fst snd trace with_fs with_trace drawn located with_ticks with_rand_calls];
    rewrite !writes_app; cbn [writes]; rewrite app_nil_r; reflexivity.
Qed.

(** X16. The token round trip: after [writeTime] has succeeded on a file
    that was missing or readable, [readTime] gives what the RFC 3339 parser
    makes of the formatted time, without consulting the clock. *)
Theorem token_round_trip (path : string) (t t' : Time) (m : Machine) :
  fst (writeTime path t m) = true ->
  (forall w d, fs m !! path <> Some (Regular false w d)) ->
  time_Parse_RFC3339 (time_Format_RFC3339 t) = Some t' ->
  readTime path (snd (writeTime path t m)) = (t', snd (writeTime path t m)).
Proof.
  rewrite writeTime_eq. cbn [fst snd]. intros C R P.
  destruct (after_write_ok path (list_byte_of_string (time_Format_RFC3339 t)) m C)
    as (rd & Hfs & Hrd).
  destruct rd.
  - apply (readTime_timestamp path _ true (list_byte_of_string (time_Format_RFC3339 t))).
    + rewrite Hfs. apply lookup_insert_eq.
    + now rewrite string_of_list_byte_of_string.
  - destruct (Hrd eq_refl) as (w & d & Hwd). now destruct (R w d).
Qed.

(** X17. The throttle.  After [wantUpdate] has answered true, on a token
    file that was missing or readable, the token holds the RFC 3339 form of
    a deadline between 24 and 48 hours after the last clock reading; and
    without [ForceCheck] the next [wantUpdate] answers false and leaves the
    file system alone for as long as the clock is before the timestamp the
    parser reads back from it. *)
Theorem wantUpdate_throttles (m : Machine) (exe : string) :
  rand_in_range m ->
  ForceCheck (self m) = false ->
  executable m = inr exe ->
  let path := tokenPath (self m) exe in
  (forall w d, fs m !! path <> Some (Regular false w d)) ->
  fst (wantUpdate m) = true ->
  let m' := snd (wantUpdate m) in
  let last := clock m (pred (ticks m')) in
  exists d,
    last + 24 * Hour <= d < last + 48 * Hour
    /\ fs m' !! path
       = Some (Regular true true (list_byte_of_string (time_Format_RFC3339 d)))
    /\ forall t',
         time_Parse_RFC3339 (time_Format_RFC3339 d) = Some t' ->
         clock m' (ticks m') < t' ->
         fst (wantUpdate m') = false /\ fs (snd (wantUpdate m')) = fs m'.
Proof.
  intros Rg F E path Rd.
  rewrite (wantUpdate_located m exe E). cbv zeta. fold path.
  destruct (skipCheck_frame (self m) path (located m)) as [n Hn].
  destruct (skipCheck (self m) path (located m)) as [stop m1] eqn:Sk.
  cbn [fst snd] in *. subst m1.
  destruct stop; [discriminate|]. cbn [fst snd]. intros C.
  set (m1 := with_ticks n (located m)).
  set (data := list_byte_of_string (time_Format_RFC3339 (deadline m1))).
  pose proof (after_write_ok path data (drawn m1)) as Hok.
  change (can_write path (drawn m1)) with (can_write path m) in Hok.
  destruct (Hok C) as (rd & Hfs & Hrd).
  change (fs (drawn m1)) with (fs m) in Hfs.
  assert (rd = true) as ->.
  { destruct rd; [reflexivity|].
    destruct (Hrd eq_refl) as (w & d & Hwd). now destruct (Rd w d). }
  set (m' := after_write path data (drawn m1)) in *.
  assert (Tk : ticks m' = S n).
  { unfold m', after_write. now destruct (can_open path (drawn m1)). }
  assert (Cl : clock m' = clock m).
  { unfold m', after_write. now destruct (can_open path (drawn m1)). }
  assert (Sf : self m' = self m).
  { unfold m', after_write. now destruct (can_open path (drawn m1)). }
  assert (Ex : executable m' = inr exe).
  { unfold m', after_write. now destruct (can_open path (drawn m1)). }
  assert (V : String.eqb (CurrentVersion (self m)) "dev" = false).
  { destruct (String.eqb (CurrentVersion (self m)) "dev") eqn:V; [|reflexivity].
    unfold skipCheck in Sk. rewrite V in Sk. discriminate. }
  exists (deadline m1). rewrite Tk. cbn [pred].
  split.
  - unfold deadline, Add. cbn [clock ticks rand_Int63n_at rand_calls m1 with_ticks located
                                with_trace].
    pose proof (Rg (rand_calls m) (24 * Hour) ltac:(reflexivity)) as Hr. lia.
  - split; [rewrite Hfs; apply lookup_insert_eq|].
    intros t' P Hc. rewrite Cl in Hc.
    rewrite (wantUpdate_located m' exe Ex). cbv zeta. rewrite Sf. fold path.
    assert (Sk' : skipCheck (self m) path (located m')
                  = (true, with_ticks (S (ticks m')) (located m'))).
    { unfold skipCheck. rewrite V, F. cbn [negb]. unfold bind.
      rewrite (readTime_timestamp path (located m') true data t').
      - unfold time_Now, ret, After.
        cbn [clock ticks located with_trace]. rewrite Cl, Tk.
        apply Z.ltb_lt in Hc. now rewrite Hc.
      - change (fs (located m')) with (fs m'). rewrite Hfs. apply lookup_insert_eq.
      - unfold data. now rewrite string_of_list_byte_of_string. }
    rewrite Sk'. cbn [fst snd]. split; reflexivity.
Qed.

(** X29. A failed write can stop the schedule.  When the check is due and
    the write of the token fails after the file has been opened,
    [wantUpdate] answers false and the token is left with the bytes written
    before the failure.  When these are not an RFC 3339 timestamp, every
    later [wantUpdate] without [ForceCheck] over that token answers false
    and attempts no write, as long as the clock does not advance by 1000
    hours between two readings: the deadline is not written again. *)
Theorem wantUpdate_failed_write_suppresses (m m2 : Machine) (exe : string) :
  executable m = inr exe ->
  let path := tokenPath (self m) exe in
  let m' := snd (wantUpdate m) in
  writes (trace m') <> writes (trace m) ->
  can_open path m = true ->
  can_write path m = false ->
  exists rd data code n,
    fst (wantUpdate m) = false
    /\ writes (trace m') = (writes (trace m) ++ [(path, data)])%list
    /\ write_err m path = Some (code, n)
    /\ fs m' !! path = Some (Regular rd true (take n data))
    /\ (time_Parse_RFC3339 (string_of_list_byte (take n data)) = None ->
        ForceCheck (self m2) = false ->
        tokenPath (self m2) exe = path ->
        executable m2 = inr exe ->
        fs m2 !! path = fs m' !! path ->
        clock m2 (S (ticks m2)) < Add (clock m2 (ticks m2)) (1000 * Hour) ->
        fst (wantUpdate m2) = false
        /\ fs (snd (wantUpdate m2)) = fs m2
        /\ writes (trace (snd (wantUpdate m2))) = writes (trace m2)).
Proof.
  intros E path. cbv zeta.
  rewrite (wantUpdate_located m exe E). cbv zeta. fold path.
  destruct (skipCheck_frame (self m) path (located m)) as [k Hk].
  destruct (skipCheck (self m) path (located m)) as [stop m1].
  cbn [fst snd] in *. subst m1.
  destruct stop.
  { cbn [fst snd trace with_ticks]. rewrite writes_located. intros W. now destruct W. }
  cbn [fst snd]. intros _ O C.
  set (m1 := with_ticks k (located m)).
  set (data := list_byte_of_string (time_Format_RFC3339 (deadline m1))).
  destruct (after_write_frame path data (drawn m1)) as (_&_&_&_&_&_&_&_&_&_&_&_&T).
  destruct (after_write_fs path data (drawn m1)) as [_ Hok].
  change (can_open path (drawn m1)) with (can_open path m) in Hok.
  change (reaching path data (drawn m1)) with (reaching path data m) in Hok.
  change (fs (drawn m1)) with (fs m) in Hok.
  destruct (Hok O) as (rd & Hfs & _).
  assert (We : exists code n, write_err m path = Some (code, n)).
  { unfold can_write in C. rewrite O in C. cbn [andb] in C.
    destruct (write_err m path) as [[code n]|]; [now exists code, n | discriminate C]. }
  destruct We as (code & n & We).
  unfold reaching in Hfs. rewrite We in Hfs.
  exists rd, data, code, n.
  split; [exact C|]. split.
  { rewrite T, writes_app. cbn [writes]. f_equal.
    change (trace (drawn m1)) with (trace (located m)). apply writes_located. }
  split; [exact We|].
  split; [rewrite Hfs; apply lookup_insert_eq|].
  intros P F Tp E2 Hfs2 Hc.
  rewrite Hfs, lookup_insert_eq in Hfs2.
  rewrite (wantUpdate_located m2 exe E2). cbv zeta. rewrite Tp.
  assert (Sk : fst (skipCheck (self m2) path (located m2)) = true).
  { unfold skipCheck.
    destruct (String.eqb (CurrentVersion (self m2)) "dev"); [reflexivity|].
    rewrite F. cbn [negb]. unfold bind.
    rewrite (readTime_no_timestamp path (located m2) (Regular rd true (take n data))).
    - unfold time_Now, ret, After. cbn [fst snd clock ticks located with_trace with_ticks].
      now apply Z.ltb_lt.
    - exact Hfs2.
    - right. exact P. }
  destruct (skipCheck_frame (self m2) path (located m2)) as [j Hj].
  destruct (skipCheck (self m2) path (located m2)) as [stop m3].
  cbn [fst snd] in *. subst stop m3. cbn [fst snd trace with_ticks fs].
  split; [reflexivity|]. split; [reflexivity | apply writes_located].
Qed.

End ScheduleRuns.

(** ** The driver *)

Section DriverRuns.
Context `{Libraries} `{GoUpdate}.

Lemma os_MkdirAll_eq (dir : string) (m : Machine) :
  os_MkdirAll dir m
  = (if can_mkdir dir m then None
     else Some (ErrPath "mkdir" dir (mkdir_code dir m)),
     made dir m).
Proof.
  unfold os_MkdirAll, can_mkdir, mkdir_code, made.
  destruct (fs m !! dir) as [[|r w d]|]; try reflexivity.
  destruct (create_err m dir); reflexivity.
Qed.

(** [BackgroundRun] once the executable is located. *)
Lemma BackgroundRun_located (m : Machine) (exe : string) :
  executable m = inr exe ->
  let dir := stateDir (self m) exe in
  let m1 := made dir (located m) in
  BackgroundRun m
  = if can_mkdir dir m then
      if fst (wantUpdate m1) then
        match CanUpdate (snd (wantUpdate m1)) with
        | Some err =>
            (Some (Wrapf err "Wants to update but can't" []), snd (wantUpdate m1))
        | None =>
            (match fst (update (snd (wantUpdate m1))) with
             | Some err =>
                 Some (Wrapf err "Failed performing update even though it can" [])
             | None => None
             end,
             snd (update (snd (wantUpdate m1))))
        end
      else (None, snd (wantUpdate m1))
    else
      (Some (Wrapf (ErrPath "mkdir" dir (mkdir_code dir m))
               "Couldn't create directory for storing updates (dir=%s)" [dir]),
       m1).
Proof.
  intros E dir m1. unfold BackgroundRun, bind, receiver.
  rewrite (getExecRelativeDir_found _ exe m E). fold (stateDir (self m) exe). fold dir.
  rewrite os_MkdirAll_eq. fold m1.
  change (can_mkdir dir (located m)) with (can_mkdir dir m).
  change (mkdir_code dir (located m)) with (mkdir_code dir m).
  destruct (can_mkdir dir m); [|reflexivity].
  destruct (wantUpdate m1) as [[] m2]; cbn [fst snd]; [|reflexivity].
  unfold up_CanUpdate, ret. destruct (CanUpdate m2); [reflexivity|].
  destruct (update m2) as [[e|] m3]; reflexivity.
Qed.

Lemma BackgroundRun_unlocated (m : Machine) (e : error) :
  executable m = inl e ->
  BackgroundRun m
  = (Some (Wrapf (Wrapf e "Couldn't get path to self executable" [])
             "Couldn't get directory relative to executable for updates" []),
     m).
Proof.
  intros E. unfold BackgroundRun, bind, receiver.
  rewrite (getExecRelativeDir_lost _ e m E). reflexivity.
Qed.

Lemma made_frame (dir : string) (m : Machine) :
  trace (made dir m) = trace m /\ self (made dir m) = self m
  /\ executable (made dir m) = executable m
  /\ ticks (made dir m) = ticks m /\ rand_calls (made dir m) = rand_calls m
  /\ clock (made dir m) = clock m
  /\ rand_Int63n_at (made dir m) = rand_Int63n_at m.
Proof.
  unfold made. destruct (fs m !! dir); [repeat split|].
  destruct (create_err m dir); repeat split.
Qed.

Lemma can_write_made_located (path dir : string) (m : Machine) :
  can_write path (made dir (located m)) = can_write path (made dir m).
Proof.
  unfold can_write, can_open, made. change (fs (located m)) with (fs m).
  change (create_err (located m)) with (create_err m).
  destruct (fs m !! dir); [reflexivity|].
  destruct (create_err m dir); reflexivity.
Qed.

(** [update] only appends to the trace, and writes no token. *)
Lemma update_frame (m : Machine) :
  exists i evs, snd (update m) = advanced m i evs /\ writes evs = [].
Proof.
  destruct (opens_or_not m) as [(exe & old & Op)|No].
  - destruct (update_outcome m exe old Op) as (res & i & mid & -> & Wm & _).
    eexists _, _. split; [reflexivity|].
    cbn [writes]. rewrite writes_app, Wm. reflexivity.
  - destruct (update_unopened m No) as [err ->].
    exists (Info (self m)), []. now rewrite advanced_nil.
Qed.

(** What [wantUpdate] leaves alone. *)
Lemma wantUpdate_frame (m : Machine) :
  let m' := snd (wantUpdate m) in
  self m' = self m /\ executable m' = executable m
  /\ fetches m' = fetches m /\ FromStream m' = FromStream m
  /\ http_Fetch m' = http_Fetch m
  /\ urls (trace m') = urls (trace m) /\ installs (trace m') = installs (trace m).
Proof.
  intros m'. subst m'.
  destruct (executable m) as [e|exe] eqn:E.
  { rewrite (wantUpdate_unlocated m e E). cbn [fst snd]. unfold with_trace. machine.
    rewrite urls_app, installs_app. cbn [urls installs].
    rewrite !app_nil_r. repeat split; try exact E. }
  rewrite (wantUpdate_located m exe E). cbv zeta.
  set (path := tokenPath (self m) exe).
  destruct (skipCheck_frame (self m) path (located m)) as [n Hn].
  destruct (skipCheck (self m) path (located m)) as [stop m1].
  cbn [fst snd] in *. subst m1.
  destruct stop.
  { cbn [fst snd]. unfold located. machine.
    rewrite urls_app, installs_app. cbn [urls installs].
    rewrite !app_nil_r. repeat split; try exact E. }
  cbn [fst snd].
  set (data := list_byte_of_string _). set (m2 := drawn _).
  destruct (after_write_frame path data m2) as (A&B&C&D&_&G&_&_&_&_&_&_&T).
  rewrite A, B, C, D, G, T.
  change (trace m2)
    with (trace m ++ [EvLog Debug (inl "Directory to store selfupdate state") None])%list.
  rewrite !urls_app, !installs_app. cbn [urls installs].
  rewrite !app_nil_r.
  repeat split; try exact E.
Qed.

(** What [wantUpdate] has done when it answers true: its last event is the
    write of the new deadline to the token file, and the write succeeded. *)
Lemma wantUpdate_true (m : Machine) (exe : string) :
  executable m = inr exe ->
  fst (wantUpdate m) = true ->
  let path := tokenPath (self m) exe in
  let m' := snd (wantUpdate m) in
  let data :=
    list_byte_of_string
      (time_Format_RFC3339 (deadline (with_ticks (pred (ticks m')) m))) in
  can_write path m = true
  /\ trace m'
     = (trace m ++ [EvLog Debug (inl "Directory to store selfupdate state") None;
                    EvWriteFile path data])%list
  /\ exists rd, fs m' = <[path := Regular rd true data]> (fs m).
Proof.
  intros E. rewrite (wantUpdate_located m exe E). cbv zeta.
  set (path := tokenPath (self m) exe).
  destruct (skipCheck_frame (self m) path (located m)) as [n Hn].
  destruct (skipCheck (self m) path (located m)) as [stop m1].
  cbn [fst snd] in *. subst m1.
  destruct stop; [discriminate|]. cbn [fst snd]. intros C.
  set (m1 := with_ticks n (located m)).
  set (data := list_byte_of_string (time_Format_RFC3339 (deadline m1))).
  destruct (after_write_frame path data (drawn m1)) as (_&_&_&_&_&_&_&Tk&_&_&_&_&T).
  rewrite Tk, T. cbn [drawn ticks with_ticks with_rand_calls pred m1].
  change (deadline (with_ticks n m)) with (deadline m1). fold data.
  split; [exact C|]. split.
  - change (trace (drawn m1))
      with (trace m ++ [EvLog Debug (inl "Directory to store selfupdate state") None])%list.
    now rewrite <- app_assoc.
  - pose proof (after_write_ok path data (drawn m1)) as Hok.
    change (can_write path (drawn m1)) with (can_write path m) in Hok.
    destruct (Hok C) as (rd & Hfs & _). now exists rd.
Qed.

Lemma Sprintf_mkdir (dir : string) :
  fmt.Sprintf "Couldn't create directory for storing updates (dir=%s)" [dir]
  = "Couldn't create directory for storing updates (dir=" ++ dir ++ ")".
Proof.
  cbv [fmt.Sprintf fmt.verb fmt.leftover Ascii.eqb Bool.eqb orb].
  rewrite !append_String, !append_empty_l. reflexivity.
Qed.

(** X18. On a build whose current version is [dev], [BackgroundRun] makes
    no request, installs nothing and attempts no write of the token; once
    the executable is located it returns nil exactly when the state directory
    is there or could be made. *)
Theorem BackgroundRun_dev (m : Machine) :
  CurrentVersion (self m) = "dev" ->
  let m' := snd (BackgroundRun m) in
  urls (trace m') = urls (trace m)
  /\ installs (trace m') = installs (trace m)
  /\ writes (trace m') = writes (trace m)
  /\ (forall exe, executable m = inr exe ->
      (fst (BackgroundRun m) = None <-> can_mkdir (stateDir (self m) exe) m = true)).
Proof.
  intros V m'. subst m'.
  destruct (executable m) as [e|exe] eqn:E.
  { rewrite (BackgroundRun_unlocated m e E). cbn [fst snd].
    repeat split; discriminate. }
  rewrite (BackgroundRun_located m exe E). cbv zeta.
  set (dir := stateDir (self m) exe). set (m1 := made dir (located m)).
  destruct (made_frame dir (located m)) as (T & S & X & _).
  fold m1 in T, S, X. change (self (located m)) with (self m) in S.
  change (executable (located m)) with (executable m) in X. rewrite E in X.
  assert (W : wantUpdate m1 = (false, located m1)).
  { rewrite (wantUpdate_located m1 exe X). cbv zeta.
    rewrite skipCheck_dev; [reflexivity|]. now rewrite S. }
  destruct (can_mkdir dir m) eqn:C.
  - rewrite W. cbn [fst snd]. unfold located at 1 2 3. machine. rewrite T.
    unfold located. machine.
    rewrite !urls_app, !installs_app, !writes_app. cbn [urls installs writes].
    rewrite !app_nil_r. refine (conj eq_refl (conj eq_refl (conj eq_refl _))).
    intros exe' Ex. injection Ex as <-. fold dir. now rewrite C.
  - cbn [fst snd]. rewrite T. unfold located. machine.
    rewrite !urls_app, !installs_app, !writes_app. cbn [urls installs writes].
    rewrite !app_nil_r. refine (conj eq_refl (conj eq_refl (conj eq_refl _))).
    intros exe' Ex. injection Ex as <-. fold dir. rewrite C.
    split; discriminate.
Qed.

(** X19. When the state directory is not there and cannot be made, or a
    file is in its place, [BackgroundRun] returns the error of [os.MkdirAll]
    wrapped in a message that names the directory, and stops there: the
    schedule is not consulted, so the clock is not read and nothing is
    written, fetched or installed. *)
Theorem BackgroundRun_mkdir_failure (m : Machine) (exe : string) :
  executable m = inr exe ->
  let dir := stateDir (self m) exe in
  can_mkdir dir m = false ->
  fst (BackgroundRun m)
  = Some (ErrWrap (ErrPath "mkdir" dir (mkdir_code dir m))
            ("Couldn't create directory for storing updates (dir=" ++ dir ++ ")"))
  /\ snd (BackgroundRun m) = located m.
Proof.
  intros E dir C. rewrite (BackgroundRun_located m exe E). cbv zeta. fold dir.
  rewrite C. cbn [fst snd]. unfold Wrapf. rewrite Sprintf_mkdir.
  split; [reflexivity|].
  unfold made, can_mkdir in *. change (fs (located m)) with (fs m).
  change (create_err (located m)) with (create_err m).
  destruct (fs m !! dir) as [nd|]; [reflexivity|].
  destruct (create_err m dir); [reflexivity | discriminate].
Qed.

(** X20. The token is rescheduled before the update is attempted.  When
    [wantUpdate] answers true inside [BackgroundRun], [up.CanUpdate] and
    [update] run on a machine whose token file already holds the new
    deadline, the clock reading plus 24 hours plus the number drawn: the
    write of the token is the last event before them, with no request and no
    install before it, and what [BackgroundRun] does from there on, every
    request and every install, comes after it in the trace, with no other
    write.  If [up.CanUpdate] fails its error comes back wrapped and nothing
    more is done; otherwise [BackgroundRun] ends where [update] ends, and an
    error of [update] comes back wrapped. *)
Theorem BackgroundRun_reschedules_first (m : Machine) (exe : string) :
  executable m = inr exe ->
  let dir := stateDir (self m) exe in
  let path := tokenPath (self m) exe in
  let m1 := made dir (located m) in
  let m2 := snd (wantUpdate m1) in
  let m' := snd (BackgroundRun m) in
  let data :=
    list_byte_of_string
      (time_Format_RFC3339 (deadline (with_ticks (pred (ticks m2)) m))) in
  can_mkdir dir m = true ->
  fst (wantUpdate m1) = true ->
  (exists pre rd,
     trace m2 = (trace m ++ pre ++ [EvWriteFile path data])%list
     /\ urls pre = [] /\ installs pre = [] /\ writes pre = []
     /\ fs m2 !! path = Some (Regular rd true data))
  /\ (exists post, trace m' = (trace m2 ++ post)%list /\ writes post = [])
  /\ (forall e, CanUpdate m2 = Some e ->
      BackgroundRun m = (Some (Wrapf e "Wants to update but can't" []), m2))
  /\ (CanUpdate m2 = None ->
      m' = snd (update m2)
      /\ (fst (BackgroundRun m) = None <-> fst (update m2) = None)
      /\ forall e, fst (update m2) = Some e ->
           fst (BackgroundRun m)
           = Some (Wrapf e "Failed performing update even though it can" [])).
Proof.
  intros E dir path m1 m2 m' data C W. subst m'.
  destruct (made_frame dir (located m)) as (T & Sf & X & Tk & Rc & Cl & Rn).
  fold m1 in T, Sf, X, Tk, Rc, Cl, Rn.
  change (self (located m)) with (self m) in Sf.
  change (executable (located m)) with (executable m) in X. rewrite E in X.
  destruct (wantUpdate_true m1 exe X W) as (Cw & Tr & rd & Hfs).
  fold m2 in Tr, Hfs. rewrite Sf in Tr, Hfs, Cw. fold path in Tr, Hfs, Cw.
  assert (D : deadline (with_ticks (pred (ticks m2)) m1)
              = deadline (with_ticks (pred (ticks m2)) m)).
  { unfold deadline. cbn [clock ticks rand_Int63n_at rand_calls with_ticks].
    rewrite Cl, Rn, Rc. reflexivity. }
  rewrite D in Tr, Hfs. fold data in Tr, Hfs.
  split.
  { exists [EvLog Debug (inl "Directory to store selfupdate state") None;
            EvLog Debug (inl "Directory to store selfupdate state") None], rd.
    split; [rewrite Tr, T; unfold located; cbn [trace with_trace];
            rewrite <- !app_assoc; reflexivity|].
    repeat split. rewrite Hfs. apply lookup_insert_eq. }
  rewrite (BackgroundRun_located m exe E). cbv zeta. fold dir. fold m1.
  rewrite C, W. fold m2.
  destruct (CanUpdate m2) as [e|] eqn:Ce; cbn [fst snd].
  - split; [exists []; split; [now rewrite app_nil_r | reflexivity]|].
    split; [intros e' Ee; injection Ee as <-; reflexivity | discriminate].
  - destruct (update_frame m2) as (i & evs & Uf & Uw).
    split; [exists evs; split; [rewrite Uf; reflexivity | exact Uw]|].
    split; [discriminate|]. intros _.
    split; [reflexivity|].
    destruct (fst (update m2)) as [e|]; split; try discriminate; try reflexivity.
    + split; discriminate.
    + intros e' Ee. injection Ee as <-. reflexivity.
Qed.

(** X21. [BackgroundRun] goes to the network only after a successful write
    of the token: on every run, either it makes no request and installs
    nothing, or the executable was located and what the run did is a stretch
    without request or install, then the one write of the run, to the token
    file, which succeeded, then the rest, where the requests and the install
    are. *)
Theorem BackgroundRun_fetches_after_reschedule (m : Machine) :
  exists evs,
    added m (snd (BackgroundRun m)) evs
    /\ ((urls evs = [] /\ installs evs = [])
        \/ exists exe data pre post,
             executable m = inr exe
             /\ evs = (pre ++ EvWriteFile (tokenPath (self m) exe) data :: post)%list
             /\ urls pre = [] /\ installs pre = [] /\ writes pre = []
             /\ writes post = []
             /\ can_write (tokenPath (self m) exe) (made (stateDir (self m) exe) m)
                = true).
Proof.
  unfold added.
  destruct (executable m) as [e|exe] eqn:E.
  { rewrite (BackgroundRun_unlocated m e E). exists []. cbn [snd].
    rewrite app_nil_r. split; [reflexivity | now left]. }
  pose proof (BackgroundRun_located m exe E) as B. cbv zeta in B.
  set (dir := stateDir (self m) exe) in *. set (m1 := made dir (located m)) in *.
  destruct (made_frame dir (located m)) as (T & Sf & X & _).
  fold m1 in T, Sf, X. change (self (located m)) with (self m) in Sf.
  change (executable (located m)) with (executable m) in X. rewrite E in X.
  change (trace (located m))
    with (trace m ++ [EvLog Debug (inl "Directory to store selfupdate state") None])%list
    in T.
  destruct (can_mkdir dir m) eqn:C.
  2:{ rewrite B. cbn [snd]. eexists. split; [exact T | now left]. }
  destruct (fst (wantUpdate m1)) eqn:W.
  2:{ rewrite B. cbn [snd].
      destruct (executable m1) as [|exe1] eqn:X1; [discriminate X|].
      injection X as ->.
      rewrite (wantUpdate_located m1 exe X1) in *. cbv zeta in *.
      set (path := tokenPath (self m1) exe) in *.
      destruct (skipCheck_frame (self m1) path (located m1)) as [n Hn].
      destruct (skipCheck (self m1) path (located m1)) as [stop m3].
      cbn [fst snd] in *. subst m3.
      destruct stop; cbn [fst snd] in *.
      - exists [EvLog Debug (inl "Directory to store selfupdate state") None;
                EvLog Debug (inl "Directory to store selfupdate state") None].
        split; [|now left].
        cbn [trace with_ticks located with_trace]. rewrite T, <- app_assoc.
        reflexivity.
      - eexists. split; [|left].
        + destruct (after_write_frame path
                      (list_byte_of_string
                         (time_Format_RFC3339 (deadline (with_ticks n (located m1)))))
                      (drawn (with_ticks n (located m1))))
            as (_&_&_&_&_&_&_&_&_&_&_&_&->).
          cbn [trace drawn with_ticks with_rand_calls located with_trace].
          rewrite T, <- !app_assoc. cbn [app]. reflexivity.
        + split; reflexivity. }
  destruct (wantUpdate_true m1 exe X W) as (Cw & Tr & _).
  rewrite Sf in Tr, Cw. unfold m1 in Cw. rewrite can_write_made_located in Cw.
  set (m2 := snd (wantUpdate m1)) in *.
  set (data := list_byte_of_string _) in Tr.
  assert (Post : exists post, trace (snd (BackgroundRun m)) = (trace m2 ++ post)%list
                              /\ writes post = []).
  { rewrite B. destruct (CanUpdate m2); cbn [snd].
    - exists []. now rewrite app_nil_r.
    - destruct (update_frame m2) as (i & evs & -> & Uw). now exists evs. }
  destruct Post as (post & -> & Wp).
  exists ([EvLog Debug (inl "Directory to store selfupdate state") None;
           EvLog Debug (inl "Directory to store selfupdate state") None]
          ++ EvWriteFile (tokenPath (self m) exe) data :: post)%list.
  split.
  - rewrite Tr, T, <- !app_assoc. reflexivity.
  - right.
    exists exe, data,
      [EvLog Debug (inl "Directory to store selfupdate state") None;
       EvLog Debug (inl "Directory to store selfupdate state") None], post.
    repeat split; assumption.
Qed.

(** X22. The whole cycle is safe: whatever the machine, the network, the
    libraries and [up.CanUpdate] do, [BackgroundRun] hands at most one image
    to the installer, and the SHA-256 digest of that image is the digest
    held in [u.Info] when [BackgroundRun] returns. *)
Theorem BackgroundRun_installs_only_verified (m : Machine) :
  let m' := snd (BackgroundRun m) in
  exists l,
    installs (trace m') = (installs (trace m) ++ l)%list
    /\ (l = []
        \/ exists bin, l = [bin]
                       /\ sha256.Sum256 bin = Sha256 (Info (self m'))).
Proof.
  intros m'. subst m'.
  assert (Nothing : forall m0 : Machine,
             installs (trace m0) = installs (trace m) ->
             exists l, installs (trace m0) = (installs (trace m) ++ l)%list
                       /\ (l = []
                           \/ exists bin, l = [bin]
                                /\ sha256.Sum256 bin = Sha256 (Info (self m0)))).
  { intros m0 E0. exists []. rewrite app_nil_r. split; [exact E0 | now left]. }
  destruct (executable m) as [e|exe] eqn:E.
  { rewrite (BackgroundRun_unlocated m e E). now apply Nothing. }
  rewrite (BackgroundRun_located m exe E). cbv zeta.
  set (dir := stateDir (self m) exe). set (m1 := made dir (located m)).
  destruct (made_frame dir (located m)) as (T & _). fold m1 in T.
  assert (I1 : installs (trace m1) = installs (trace m)).
  { rewrite T. unfold located. cbn. rewrite installs_app. cbn. apply app_nil_r. }
  destruct (can_mkdir dir m); [|now apply Nothing].
  destruct (wantUpdate_frame m1) as (_ & _ & _ & _ & _ & _ & Wi).
  set (m2 := snd (wantUpdate m1)) in *. rewrite I1 in Wi.
  destruct (fst (wantUpdate m1)); [|now apply Nothing].
  destruct (CanUpdate m2); [now apply Nothing|]. cbn [snd].
  destruct (opens_or_not m2) as [(x & old & Op)|No].
  - destruct (update_outcome m2 x old Op) as (res & i & mid & -> & _ & _ & I).
    cbn [snd]. rewrite self_advanced. cbn [Info with_Info].
    unfold advanced. machine. rewrite installs_app. cbn [installs].
    rewrite installs_app. cbn [installs]. rewrite app_nil_r, Wi.
    exists (installs mid). split; [reflexivity|].
    destruct I as [[I _]|(bin & pre & -> & Ip & V & _)]; [now left|].
    right. exists bin. rewrite installs_app, Ip. split; [reflexivity | exact V].
  - destruct (update_unopened m2 No) as [err ->]. now apply Nothing.
Qed.

End DriverRuns.

(** ** The URLs *)

Lemma hex_round_trip (c : ascii) :
  ascii_of_nat (16 * unhexdigit (url.hexdigit (nat_of_ascii c / 16))
                + unhexdigit (url.hexdigit (nat_of_ascii c mod 16))) = c.
Proof. destruct c as [[] [] [] [] [] [] [] []]; vm_compute; reflexivity. Qed.

Lemma kept_not_special (c : ascii) :
  url.shouldEscape c = false ->
  Ascii.eqb c "+" = false /\ Ascii.eqb c "%" = false.
Proof.
  intros E. split.
  - destruct (Ascii.eqb c "+") eqn:S; [|reflexivity].
    apply Ascii.eqb_eq in S. subst c. discriminate E.
  - destruct (Ascii.eqb c "%") eqn:S; [|reflexivity].
    apply Ascii.eqb_eq in S. subst c. discriminate E.
Qed.

Lemma unescape_QueryEscape (s : string) : unescape (url.QueryEscape s) = s.
Proof.
  induction s as [|c s IH]; [reflexivity|].
  cbn [url.QueryEscape].
  destruct (Ascii.eqb c " ") eqn:Sp.
  - apply Ascii.eqb_eq in Sp. subst c. cbn [unescape]. cbn [Ascii.eqb Bool.eqb].
    now rewrite IH.
  - destruct (url.shouldEscape c) eqn:E.
    + cbn [unescape]. cbn [Ascii.eqb Bool.eqb]. now rewrite hex_round_trip, IH.
    + destruct (kept_not_special c E) as [P Q].
      cbn [unescape]. now rewrite P, Q, IH.
Qed.

Lemma QueryEscape_inj (a b : string) :
  url.QueryEscape a = url.QueryEscape b -> a = b.
Proof.
  intros E. rewrite <- (unescape_QueryEscape a), <- (unescape_QueryEscape b).
  now rewrite E.
Qed.

Lemma split_slash_cons (s : string) : exists hd tl, split_slash s = hd :: tl.
Proof.
  induction s as [|c s (hd & tl & IH)]; [now exists "", []|].
  cbn [split_slash]. destruct (Ascii.eqb c "/"); [now eexists _, _|].
  rewrite IH. now eexists _, _.
Qed.

(** An escaped segment followed by more text: the segment joins the first
    piece of the text. *)
Lemma split_slash_escaped_app (s t hd : string) (tl : list string) :
  split_slash t = hd :: tl ->
  split_slash (url.QueryEscape s ++ t) = (url.QueryEscape s ++ hd) :: tl.
Proof.
  intros T. induction s as [|c s IH]; [exact T|].
  cbn [url.QueryEscape].
  destruct (Ascii.eqb c " ").
  - rewrite !append_String. cbn [split_slash]. cbn [Ascii.eqb Bool.eqb].
    now rewrite IH.
  - destruct (url.shouldEscape c) eqn:E.
    + rewrite !append_String. cbn [split_slash]. cbn [Ascii.eqb Bool.eqb].
      rewrite !hexdigit_not_slash, IH. reflexivity.
    + rewrite !append_String. cbn [split_slash].
      now rewrite (shouldEscape_slash c E), IH.
Qed.

Lemma Sprintf_three_gz (a b c : string) :
  fmt.Sprintf "%s/%s/%s.gz" [a; b; c] = a ++ "/" ++ b ++ "/" ++ c ++ ".gz".
Proof.
  cbv [fmt.Sprintf fmt.verb fmt.leftover Ascii.eqb Bool.eqb orb].
  rewrite !append_String, !append_empty_l. reflexivity.
Qed.

Lemma string_app_inv_head (s a b : string) : s ++ a = s ++ b -> a = b.
Proof.
  induction s as [|c s IH]; [trivial|].
  rewrite !append_String. intros E. injection E as E. now apply IH.
Qed.

Section Urls.
Context `{Libraries}.

(** X23. No two patches share a URL: under one base, the URL
    [fetchAndApplyPatch] asks for determines the command name, the current
    version and the target version it was built from. *)
Theorem patchUrl_injective (u v : Updater) :
  DiffURL u = DiffURL v ->
  patchUrl u = patchUrl v ->
  CmdName u = CmdName v
  /\ CurrentVersion u = CurrentVersion v
  /\ Version (Info u) = Version (Info v).
Proof.
  intros B E. rewrite !patchUrl_shape, B in E.
  apply string_app_inv_head in E.
  apply (f_equal split_slash) in E.
  rewrite !append_String, !append_empty_l in E.
  rewrite !split_slash_escaped, !split_slash_escaped_last in E.
  injection E as E1 E2 E3.
  repeat split; now apply QueryEscape_inj.
Qed.

(** X24. The URL [fetchBin] asks for is the base followed by three
    segments, the escaped command name, the escaped target version and the
    escaped platform with [.gz]; under one base it determines the command
    name and the target version. *)
Theorem fetchUrl_segments (u v : Updater) :
  (exists tail,
     fetchUrl u = BinURL u ++ tail
     /\ split_slash tail
        = [url.QueryEscape (CmdName u); url.QueryEscape (Version (Info u));
           url.QueryEscape plat ++ ".gz"])
  /\ (BinURL u = BinURL v -> fetchUrl u = fetchUrl v ->
      CmdName u = CmdName v /\ Version (Info u) = Version (Info v)).
Proof.
  assert (S : forall w,
    split_slash (url.QueryEscape (CmdName w) ++ "/"
                 ++ url.QueryEscape (Version (Info w)) ++ "/"
                 ++ url.QueryEscape plat ++ ".gz")
    = [url.QueryEscape (CmdName w); url.QueryEscape (Version (Info w));
       url.QueryEscape plat ++ ".gz"]).
  { intros w. rewrite !append_String, !append_empty_l.
    rewrite !split_slash_escaped.
    now rewrite (split_slash_escaped_app plat ".gz" ".gz" []). }
  split.
  - eexists. unfold fetchUrl. rewrite Sprintf_three_gz. split; [reflexivity|].
    apply S.
  - intros B E. unfold fetchUrl in E. rewrite !Sprintf_three_gz, B in E.
    apply string_app_inv_head in E.
    apply (f_equal split_slash) in E. rewrite !S in E.
    injection E as E1 E2. split; now apply QueryEscape_inj.
Qed.

(** X26. In [part_000], whatever the Updater holds, the patch URL has three
    segments after the base and not four: the escaped platform never stands
    as a segment of its own, it is inside an [EXTRA] report glued to the
    escaped target version. *)
Theorem part000_patchUrl_segments (u : Updater) :
  exists tail,
    Part000.patchUrl u = DiffURL u ++ tail
    /\ split_slash tail
       = [url.QueryEscape (CmdName u); url.QueryEscape (CurrentVersion u);
          url.QueryEscape (Version (Info u))
          ++ "%!(EXTRA string=" ++ url.QueryEscape plat ++ ")"].
Proof.
  eexists. split; [apply part000_patchUrl_shape|].
  rewrite !append_String, !append_empty_l.
  rewrite !split_slash_escaped. do 2 f_equal.
  apply split_slash_escaped_app.
  cbn [split_slash]. cbn [Ascii.eqb Bool.eqb].
  now rewrite (split_slash_escaped_app plat ")" ")" []).
Qed.

End Urls.

(** ** The digest *)

Lemma round_length (st : list Z) (kw : Z * Z) :
  length (sha256.round st kw) = length st.
Proof.
  unfold sha256.round.
  destruct st as [|a [|b [|c [|d [|e [|f [|g [|h [|x st]]]]]]]]]; reflexivity.
Qed.

Lemma rounds_length (kws : list (Z * Z)) (st : list Z) :
  length (fold_left sha256.round kws st) = length st.
Proof.
  revert st. induction kws as [|kw kws IH]; intros st; [reflexivity|].
  cbn [fold_left]. now rewrite IH, round_length.
Qed.

Lemma compress_length (h : list Z) (block : list byte) :
  length (sha256.compress h block) = length h.
Proof.
  unfold sha256.compress. rewrite length_map, length_combine, rounds_length.
  apply Nat.min_id.
Qed.

Lemma blocks_length (n : nat) (h : list Z) (bs : list byte) :
  length (sha256.blocks n h bs) = length h.
Proof.
  revert h bs. induction n as [|n IH]; intros h bs; [reflexivity|].
  cbn [sha256.blocks]. now rewrite IH, compress_length.
Qed.

Lemma be_bytes_length (n : nat) (x : Z) : length (sha256.be_bytes n x) = n.
Proof. induction n as [|n IH]; [reflexivity|]. cbn. now rewrite IH. Qed.

Lemma flat_map_be_bytes_length (ws : list Z) :
  length (flat_map (sha256.be_bytes 4) ws) = (4 * length ws)%nat.
Proof.
  induction ws as [|w ws IH]; [reflexivity|].
  cbn [flat_map]. rewrite length_app, be_bytes_length, IH. cbn [length]. lia.
Qed.

Lemma Sum256_length (msg : list byte) : length (sha256.Sum256 msg) = sha256.Size.
Proof.
  unfold sha256.Sum256. rewrite flat_map_be_bytes_length, blocks_length.
  reflexivity.
Qed.

(** X25. [verifySha] can only answer true over an expected digest of 32
    bytes: over a digest of any other length it answers false whatever the
    buffer holds (which is why [fetchInfo] refuses such metadata). *)
Theorem verifySha_digest_length (bin sha : list byte) (m : Machine) :
  length sha <> sha256.Size -> fst (verifySha bin sha m) = false.
Proof.
  intros L. rewrite verifySha_result.
  apply bytes_Equal_false. intros E. apply L. rewrite <- E. apply Sum256_length.
Qed.

(** ** The second copy *)

Section SecondCopy.
Context `{Libraries}.

Lemma part000_fetchAndApplyPatch_eq (old : File) (m : Machine) :
  let u := self m in
  let way := [EvLog Debug (inl "Starting to fetch patch") None;
              EvFetch (Part000.patchUrl u)] in
  Part000.fetchAndApplyPatch old m
  = (match reply m 0 (Part000.patchUrl u) with
     | inl e => inl (Wrapf e "Errored fetching path (url=%s)" [Part000.patchUrl u])
     | inr body =>
         match binarydist_Patch (file_content old) body with
         | inl e =>
             inl (Wrapf e "Errored using binarydist to patch (url=%s)"
                    [Part000.patchUrl u])
         | inr buf => inr buf
         end
     end,
     advanced m (Info u) way).
Proof.
  intros u way. subst u way.
  unfold Part000.fetchAndApplyPatch, bind, receiver, log_Debug, emit, ret.
  rewrite fetch_run. machine.
  change (reply (with_trace _ m) 0 ?u) with (reply m 0 u).
  destruct (reply m 0 (Part000.patchUrl (self m))) as [e|body].
  - f_equal. same_machine.
  - destruct (binarydist_Patch (file_content old) body); f_equal; same_machine.
Qed.

Lemma part000_fetchBin_eq (m : Machine) :
  let u := self m in
  Part000Rest.fetchBin m
  = (match reply m 0 (fetchUrl u) with
     | inl e => inl (Wrapf e "Failed to fetch full binary (url=%s)" [fetchUrl u])
     | inr body =>
         match gzip_ReadAll body with
         | GzipHeaderErr e => inl (Wrapf e "Failed to create gzip reader" [])
         | GzipCopyErr e => inl (Wrapf e "Failed to copy gzip content to buf" [])
         | GzipData buf => inr buf
         end
     end,
     advanced m (Info u)
       [EvLog Debug (inl "Starting to fetch full binary") None; EvFetch (fetchUrl u)]).
Proof.
  intros u. subst u.
  unfold Part000Rest.fetchBin, bind, receiver, log_Debug, emit, ret.
  rewrite fetch_run. machine.
  change (reply (with_trace _ m) 0 ?u) with (reply m 0 u).
  destruct (reply m 0 (fetchUrl (self m))) as [e|body].
  - f_equal. same_machine.
  - destruct (gzip_ReadAll body); f_equal; same_machine.
Qed.

(** X27. The two copies have the same full-binary fetch: on every machine
    [fetchBin] of [part_000] and [fetchBin] of [selfupdate/selfupdate.go]
    make the same request and return the same bytes or the same error; the
    one difference is that [part_000] logs no error. *)
Theorem fetchBin_copies_agree (m : Machine) :
  fst (Part000Rest.fetchBin m) = fst (fetchBin m)
  /\ urls (trace (snd (Part000Rest.fetchBin m))) = urls (trace (snd (fetchBin m)))
  /\ trace (snd (Part000Rest.fetchBin m))
     = (trace m ++ [EvLog Debug (inl "Starting to fetch full binary") None;
                    EvFetch (fetchUrl (self m))])%list
  /\ (forall err, fst (fetchBin m) = inl err ->
      trace (snd (fetchBin m))
      = (trace (snd (Part000Rest.fetchBin m)) ++ [EvLog Warn (inr err) None])%list).
Proof.
  rewrite part000_fetchBin_eq, fetchBin_eq. cbv zeta.
  destruct (reply m 0 (fetchUrl (self m))) as [e|gz].
  - cbn [fst snd]. unfold advanced. machine. rewrite !urls_app.
    repeat split. intros err E. injection E as <-. now rewrite <- app_assoc.
  - destruct (gzip_ReadAll gz) as [e|e|data];
      cbn [fst snd]; unfold advanced; machine; rewrite !urls_app;
      repeat split; try discriminate;
      intros err E; injection E as <-; now rewrite <- app_assoc.
Qed.

Lemma part000_fetchAndVerifyPatch_stretch (old : File) (m : Machine) :
  exists res evs,
    Part000Rest.fetchAndVerifyPatch old m = (res, advanced m (Info (self m)) evs)
    /\ urls evs = [Part000.patchUrl (self m)]
    /\ installs evs = []
    /\ forall bin, res = inr bin -> sha256.Sum256 bin = Sha256 (Info (self m)).
Proof.
  unfold Part000Rest.fetchAndVerifyPatch.
  rewrite bind_run, part000_fetchAndApplyPatch_eq. cbv zeta. cbn [fst snd].
  destruct (reply m 0 (Part000.patchUrl (self m))) as [e|patch].
  - unfold ret. eexists _, _. split; [reflexivity|]. repeat split. discriminate.
  - destruct (binarydist_Patch (file_content old) patch) as [e|bin].
    + unfold ret. eexists _, _. split; [reflexivity|]. repeat split. discriminate.
    + unfold bind, receiver, ret, Part000Rest.verifySha.
      rewrite self_advanced, with_Info_same.
      destruct (bytes.Equal _ _) eqn:Q; cbn [negb];
        eexists _, _; (split; [reflexivity|]); repeat split; try discriminate.
      intros b E. injection E as <-. now apply bytes_Equal_spec.
Qed.

Lemma part000_fetchAndVerifyFullBin_stretch (m : Machine) :
  exists res evs,
    Part000Rest.fetchAndVerifyFullBin m = (res, advanced m (Info (self m)) evs)
    /\ urls evs = [fetchUrl (self m)]
    /\ installs evs = []
    /\ forall bin, res = inr bin -> sha256.Sum256 bin = Sha256 (Info (self m)).
Proof.
  unfold Part000Rest.fetchAndVerifyFullBin.
  rewrite bind_run, part000_fetchBin_eq. cbv zeta. cbn [fst snd].
  destruct (reply m 0 (fetchUrl (self m))) as [e|gz].
  - unfold ret. eexists _, _. split; [reflexivity|]. repeat split. discriminate.
  - destruct (gzip_ReadAll gz) as [e|e|bin].
    + unfold ret. eexists _, _. split; [reflexivity|]. repeat split. discriminate.
    + unfold ret. eexists _, _. split; [reflexivity|]. repeat split. discriminate.
    + unfold bind, receiver, ret, Part000Rest.verifySha.
      rewrite self_advanced, with_Info_same.
      destruct (bytes.Equal _ _) eqn:Q; cbn [negb];
        eexists _, _; (split; [reflexivity|]); repeat split; try discriminate.
      intros b E. injection E as <-. now apply bytes_Equal_spec.
Qed.

Lemma part000_failure_quiet (first second : string) (u : Updater) (err : error)
    (m : Machine) :
  exists lg,
    (if is_ErrHashMismatch err then log_Debug first
     else if negb (String.eqb (DiffURL u) "")
          then log_WithError_Debug err second
          else ret tt) m
    = (tt, advanced m (Info (self m)) lg)
    /\ urls lg = [] /\ installs lg = [].
Proof.
  unfold log_Debug, log_WithError_Debug, ret.
  destruct (is_ErrHashMismatch err);
    [eexists [_]; rewrite log_advanced; repeat split|].
  destruct (negb _); [eexists [_]; rewrite log_advanced; repeat split|].
  exists []. now rewrite advanced_nil.
Qed.

Lemma part000_full_failure_quiet (err : error) (m : Machine) :
  exists lg,
    (if is_ErrHashMismatch err then log_Debug "update: hash mismatch from full binary"
     else log_WithError_Debug err "update: fetching full binary") m
    = (tt, advanced m (Info (self m)) lg)
    /\ urls lg = [] /\ installs lg = [].
Proof.
  unfold log_Debug, log_WithError_Debug.
  destruct (is_ErrHashMismatch err);
    eexists [_]; rewrite log_advanced; repeat split.
Qed.

(** Every run of [update] of [part_000] once the executable is open: where
    it leaves the machine, which requests it makes and what it installs. *)
Lemma part000_update_opened_outcome (old : File) (m : Machine) :
  exists res i evs,
    Part000Rest.update_opened old m = (res, advanced m i evs)
    /\ urls evs `prefix_of`
         [fullUrl (self m); Part000.patchUrl (with_Info i (self m));
          fetchUrl (with_Info i (self m))]
    /\ (installs evs = []
        \/ exists bin pre,
             evs = (pre ++ [EvClose (file_name old); EvInstall bin])%list
             /\ installs pre = []
             /\ sha256.Sum256 bin = Sha256 i).
Proof.
  unfold Part000Rest.update_opened. rewrite bind_run, fetchInfo_eq.
  destruct (reply m 0 (fullUrl (self m))) as [e|body] eqn:R.
  { cbn [fst snd]. unfold ret. eexists _, _, _. split; [reflexivity|].
    split; [cbn [urls]; eexists; reflexivity | now left]. }
  destruct (json_Decode body (Info (self m))) as [i [e|]] eqn:D.
  { cbn [fst snd]. unfold ret. eexists _, _, _. split; [reflexivity|].
    split; [cbn [urls]; eexists; reflexivity | now left]. }
  destruct (length (Sha256 i) =? sha256.Size)%nat eqn:L.
  2:{ cbn [fst snd]. unfold ret. eexists _, _, _. split; [reflexivity|].
      split; [cbn [urls]; eexists; reflexivity | now left]. }
  cbn [fst snd]. set (m2 := advanced m i [EvFetch (fullUrl (self m))]).
  rewrite bind_run. unfold receiver. cbn [fst snd].
  change (self m2) with (with_Info i (self m)).
  cbn [Version Info with_Info CurrentVersion DiffURL].
  destruct (String.eqb (Version i) (CurrentVersion (self m))) eqn:V.
  { unfold bind, log_Debug, ret. cbv beta iota. rewrite log_advanced. unfold m2.
    rewrite advanced_advanced. cbn [app].
    eexists _, _, _. split; [reflexivity|].
    split; [cbn [urls]; eexists; reflexivity | now left]. }
  cbv beta iota. rewrite bind_run.
  destruct (part000_fetchAndVerifyPatch_stretch old m2) as (p & pe & -> & Pu & Pi & Pr).
  cbn [fst snd].
  change (Info (self m2)) with i in *. change (self m2) with (with_Info i (self m)) in Pu.
  unfold m2. rewrite advanced_advanced. cbn [app].
  destruct p as [perr|bin].
  2:{ rewrite bind_run. unfold ret. cbn [fst snd].
      pose proof (install_eq old bin) as Hi. unfold ret in Hi. rewrite Hi.
      rewrite advanced_advanced.
      eexists _, _, _. split; [reflexivity|].
      split; [cbn [urls app]; rewrite urls_app, Pu; cbn [urls app];
              eexists; reflexivity|].
      right. exists bin, (EvFetch (fullUrl (self m)) :: pe).
      cbn [installs]. repeat split; try assumption. now apply Pr. }
  clear Pr.
  set (m3 := advanced m i (EvFetch (fullUrl (self m)) :: pe)).
  rewrite bind_run, (bind_run _ _ m3).
  destruct (part000_failure_quiet "update: hash mismatch from patched binary"
              "update: patching binary" (self m) perr m3) as (lg & -> & Lu & Li).
  cbn [fst snd]. change (Info (self m3)) with i.
  unfold m3. rewrite advanced_advanced.
  set (m4 := advanced m i _).
  rewrite bind_run.
  destruct (part000_fetchAndVerifyFullBin_stretch m4) as (f & fe & -> & Fu & Fi & Fr).
  cbn [fst snd]. change (Info (self m4)) with i in *.
  change (self m4) with (with_Info i (self m)) in Fu.
  unfold m4. rewrite advanced_advanced.
  destruct f as [ferr|bin].
  - rewrite bind_run.
    destruct (part000_full_failure_quiet ferr
                (advanced m i (((EvFetch (fullUrl (self m)) :: pe) ++ lg) ++ fe)))
      as (lg2 & -> & L2u & L2i).
    unfold ret. cbn [fst snd]. rewrite advanced_advanced.
    eexists _, _, _. split; [reflexivity|].
    split; [cbn [urls app]; rewrite !urls_app, Pu, Lu, Fu, L2u; cbn [urls app];
            eexists; reflexivity|].
    left. cbn [installs app]. rewrite !installs_app, Pi, Li, Fi, L2i. reflexivity.
  - unfold ret. cbn [fst snd].
    pose proof (install_eq old bin) as Hi. unfold ret in Hi. rewrite Hi.
    rewrite advanced_advanced.
    eexists _, _, _. split; [reflexivity|].
    split; [cbn [urls app]; rewrite !urls_app, Pu, Lu, Fu; cbn [urls app];
            eexists; reflexivity|].
    right. exists bin, (((EvFetch (fullUrl (self m)) :: pe) ++ lg) ++ fe)%list.
    cbn [installs app]. rewrite !installs_app, Pi, Li, Fi.
    repeat split; try assumption. now apply Fr.
Qed.

(** X28. [update] of [part_000] is as safe as the one of
    [selfupdate/selfupdate.go]: on every machine it hands at most one image
    to the installer, with the SHA-256 digest held in [u.Info] when it
    returns, and its requests are the metadata, its patch URL and the full
    binary, in this order and each at most once. *)
Theorem part000_update_installs_only_verified (m : Machine) :
  let m' := snd (Part000Rest.update m) in
  (exists l,
     installs (trace m') = (installs (trace m) ++ l)%list
     /\ (l = []
         \/ exists bin, l = [bin] /\ sha256.Sum256 bin = Sha256 (Info (self m'))))
  /\ exists l,
       urls (trace m') = (urls (trace m) ++ l)%list
       /\ l `prefix_of`
            [fullUrl (self m); Part000.patchUrl (self m'); fetchUrl (self m')].
Proof.
  intros m'. subst m'.
  unfold Part000Rest.update. rewrite bind_run. unfold osext_Executable. cbn [fst snd].
  assert (Nothing : forall r : option error,
    (exists l, installs (trace (snd (ret r m))) = (installs (trace m) ++ l)%list
       /\ (l = [] \/ exists bin, l = [bin]
             /\ sha256.Sum256 bin = Sha256 (Info (self (snd (ret r m))))))
    /\ exists l, urls (trace (snd (ret r m))) = (urls (trace m) ++ l)%list
         /\ l `prefix_of` [fullUrl (self m); Part000.patchUrl (self (snd (ret r m)));
                           fetchUrl (self (snd (ret r m)))]).
  { intros r. unfold ret. cbn [snd].
    split; exists []; rewrite app_nil_r; (split; [reflexivity|]);
      [now left | apply prefix_nil]. }
  destruct (executable m) as [e|exe] eqn:E; [apply Nothing|].
  rewrite bind_run, os_Open_eq.
  destruct (fs m !! exe) as [nd|] eqn:N; [|apply Nothing].
  destruct (handle exe nd) as [old|] eqn:O; [|apply Nothing].
  cbn [fst snd]. rewrite bind_run.
  set (m1 := advanced m (Info (self m)) [EvOpen exe]).
  destruct (part000_update_opened_outcome old m1) as (res & i & evs & -> & U & I).
  cbn [fst snd]. unfold bind, File_Close, ret.
  rewrite (emit_advanced (EvClose (file_name old))); [|reflexivity..].
  cbn [snd]. change (Info (self (advanced m1 i evs))) with i.
  unfold m1. rewrite !advanced_advanced. cbn [app].
  change (self m1) with (with_Info (Info (self m)) (self m)) in U.
  rewrite with_Info_same in U.
  rewrite self_advanced. cbn [Info with_Info].
  unfold advanced. machine.
  rewrite installs_app, urls_app. cbn [installs urls].
  rewrite installs_app, urls_app. cbn [installs urls]. rewrite !app_nil_r.
  split.
  - exists (installs evs). split; [reflexivity|].
    destruct I as [I|(bin & pre & -> & Ip & V)]; [now left|].
    right. exists bin. rewrite installs_app, Ip. split; [reflexivity | exact V].
  - exists (urls evs). split; [reflexivity | exact U].
Qed.

End SecondCopy.

(** ** More runs on the sample platform *)

Section MoreRuns.
Import Scenario Cycle.
Existing Instance Sample.libraries.
Existing Instance can_update.

(** The patch is not on the server, the full binary is: [update] returns
    nil after an install. *)
Lemma update_nil_result_witness :
  let m := machine (updater "1.0.0" false release) installed in
  let i := Info (self (snd (update m))) in
  fst (update m) = None
  /\ exists evs,
       added m (snd (update m)) evs
       /\ length (Sha256 i) = sha256.Size
       /\ ((Version i = CurrentVersion (self m)
            /\ urls evs = [fullUrl (self m)] /\ installs evs = [])
           \/ exists bin,
                installs evs = [bin]
                /\ sha256.Sum256 bin = Sha256 i
                /\ Version i <> CurrentVersion (self m)
                /\ FromStream m bin = (None, None)).
Proof.
  intros m i.
  assert (N : fst (update m) = None) by (vm_compute; reflexivity).
  split; [exact N | exact (update_nil_result m N)].
Defined.

Lemma update_reports_install_witness :
  let m := machine (updater "1.0.0" false release) installed in
  installs (trace (snd (update m))) = (installs (trace m) ++ [new_image])%list
  /\ (fst (update m) = None <-> FromStream m new_image = (None, None))
  /\ (forall errRecover, snd (FromStream m new_image) = Some errRecover ->
      exists e, fst (update m) = Some e /\ is_recovery e = true)
  /\ (snd (FromStream m new_image) = None ->
      fst (update m) = fst (FromStream m new_image)).
Proof.
  intros m.
  assert (I : installs (trace (snd (update m)))
              = (installs (trace m) ++ [new_image])%list)
    by (vm_compute; reflexivity).
  split; [exact I | exact (update_reports_install m new_image I)].
Defined.

(** A machine that does not know where its executable is. *)
Lemma update_without_executable_witness :
  let m := astray (updater "1.0.0" false release) installed in
  (forall exe old, ~ opens m exe old)
  /\ snd (update m) = m /\ fst (update m) <> None.
Proof.
  intros m.
  assert (N : forall exe old, ~ opens m exe old)
    by (intros exe old [E _]; vm_compute in E; discriminate E).
  split; [exact N | exact (update_without_executable m N)].
Defined.

(** A server that has nothing. *)
Lemma fetchInfo_failed_request_witness :
  let m := machine (updater "1.0.0" false (serve [])) installed in
  reply m 0 (fullUrl (self m)) = inl (ErrNew "connection refused")
  /\ fst (fetchInfo m)
     = Some (ErrWrap (ErrNew "connection refused")
               ("Couldn't fetch `json` with information for update (url="
                ++ info_url ++ ")"))
  /\ self (snd (fetchInfo m)) = self m.
Proof.
  intros m.
  assert (R : reply m 0 (fullUrl (self m)) = inl (ErrNew "connection refused"))
    by (vm_compute; reflexivity).
  split; [exact R | exact (fetchInfo_failed_request m _ R)].
Defined.

Lemma fetchInfo_decode_error_witness :
  let m := machine (updater "1.0.0" false garbled) installed in
  let body := list_byte_of_string "not json" in
  let i := {| Version := ""; Sha256 := [] |} in
  (reply m 0 (fullUrl (self m)) = inr body
   /\ json_Decode body (Info (self m)) = (i, Some (ErrNew "invalid character")))
  /\ fst (fetchInfo m)
     = Some (ErrWrap (ErrNew "invalid character") "Couldn't decode JSON (%!s(MISSING))")
  /\ Info (self (snd (fetchInfo m))) = i.
Proof.
  intros m body i.
  assert (R : reply m 0 (fullUrl (self m)) = inr body) by (vm_compute; reflexivity).
  assert (D : json_Decode body (Info (self m)) = (i, Some (ErrNew "invalid character")))
    by (vm_compute; reflexivity).
  split; [split; [exact R | exact D] | exact (fetchInfo_decode_error m body i _ R D)].
Defined.

Lemma wantUpdate_without_executable_witness :
  let m := astray (updater "1.0.0" true release) installed in
  let e := ErrNew "readlink /proc/self/exe: permission denied" in
  executable m = inl e
  /\ fst (wantUpdate m) = false
  /\ added m (snd (wantUpdate m))
       [EvLog Error (inr (Wrapf e "Couldn't get path to self executable" [])) None]
  /\ fs (snd (wantUpdate m)) = fs m
  /\ ticks (snd (wantUpdate m)) = ticks m
  /\ rand_calls (snd (wantUpdate m)) = rand_calls m.
Proof.
  intros m e.
  split; [reflexivity | exact (wantUpdate_without_executable m e eq_refl)].
Defined.

(** A token an hour ahead of the clock, with [ForceCheck] set. *)
Lemma wantUpdate_forced_witness :
  let m := machine (updater "1.0.0" true (serve [])) (with_token "2026-10-30T23:25:00Z") in
  (ForceCheck (self m) = true /\ CurrentVersion (self m) <> "dev"
   /\ executable m = inr exe)
  /\ fst (wantUpdate m) = can_write (tokenPath (self m) exe) m
  /\ writes (trace (snd (wantUpdate m)))
     = (writes (trace m)
        ++ [(tokenPath (self m) exe,
             list_byte_of_string (time_Format_RFC3339 (deadline m)))])%list
  /\ ticks (snd (wantUpdate m)) = S (ticks m).
Proof.
  intros m.
  assert (V : CurrentVersion (self m) <> "dev") by (vm_compute; discriminate).
  split; [split; [reflexivity | split; [exact V | reflexivity]]
         | exact (wantUpdate_forced m exe eq_refl V eq_refl)].
Defined.

(** A token of 2020, without [ForceCheck]. *)
Lemma wantUpdate_expired_token_witness :
  let data := list_byte_of_string "2020-01-01T00:00:00Z" in
  let m := machine (updater "1.0.0" false (serve [])) (with_token "2020-01-01T00:00:00Z") in
  let t := 63713433600 * Sample.Second in
  (fs m !! tokenPath (self m) exe = Some (Regular true true data)
   /\ time_Parse_RFC3339 (string_of_list_byte data) = Some t
   /\ t <= clock m (ticks m))
  /\ fst (wantUpdate m) = can_write (tokenPath (self m) exe) m
  /\ writes (trace (snd (wantUpdate m)))
     = (writes (trace m)
        ++ [(tokenPath (self m) exe,
             list_byte_of_string
               (time_Format_RFC3339 (deadline (with_ticks (S (ticks m)) m))))])%list.
Proof.
  intros data m t.
  assert (V : CurrentVersion (self m) <> "dev") by (vm_compute; discriminate).
  assert (F : fs m !! tokenPath (self m) exe = Some (Regular true true data))
    by (vm_compute; reflexivity).
  assert (P : time_Parse_RFC3339 (string_of_list_byte data) = Some t)
    by (vm_compute; reflexivity).
  assert (C : t <= clock m (ticks m)) by (vm_compute; discriminate).
  split; [split; [exact F | split; [exact P | exact C]]
         | exact (wantUpdate_expired_token m exe true data t eq_refl V eq_refl F P C)].
Defined.

(** Writing [t0] where there is no token, and reading it back. *)
Lemma token_round_trip_witness :
  let m := machine (updater "1.0.0" false (serve [])) installed in
  (fst (writeTime token t0 m) = true
   /\ fs m !! token = None
   /\ time_Parse_RFC3339 (time_Format_RFC3339 t0) = Some t0)
  /\ readTime token (snd (writeTime token t0 m)) = (t0, snd (writeTime token t0 m)).
Proof.
  intros m.
  assert (W : fst (writeTime token t0 m) = true) by (vm_compute; reflexivity).
  assert (F : fs m !! token = None) by (vm_compute; reflexivity).
  assert (P : time_Parse_RFC3339 (time_Format_RFC3339 t0) = Some t0)
    by (vm_compute; reflexivity).
  split; [split; [exact W | split; [exact F | exact P]]|].
  apply (token_round_trip token t0 t0 m W); [|exact P].
  intros w d. rewrite F. discriminate.
Defined.

(** A first run, and the run after it. *)
Lemma wantUpdate_throttles_witness :
  let m := machine (updater "1.0.0" false (serve [])) installed in
  let m' := snd (wantUpdate m) in
  (fs m !! tokenPath (self m) exe = None /\ fst (wantUpdate m) = true)
  /\ exists d,
       clock m (pred (ticks m')) + 24 * Hour <= d < clock m (pred (ticks m')) + 48 * Hour
       /\ fs m' !! tokenPath (self m) exe
          = Some (Regular true true (list_byte_of_string (time_Format_RFC3339 d)))
       /\ forall t',
            time_Parse_RFC3339 (time_Format_RFC3339 d) = Some t' ->
            clock m' (ticks m') < t' ->
            fst (wantUpdate m') = false /\ fs (snd (wantUpdate m')) = fs m'.
Proof.
  intros m m'.
  assert (F : fs m !! tokenPath (self m) exe = None) by (vm_compute; reflexivity).
  assert (W : fst (wantUpdate m) = true) by (vm_compute; reflexivity).
  split; [split; [exact F | exact W]|].
  apply (wantUpdate_throttles m exe (sample_rand_in_range _ _) eq_refl eq_refl);
    [|exact W].
  intros w d. rewrite F. discriminate.
Defined.

(** A first run on a disk that is full, and the run after it. *)
Lemma wantUpdate_failed_write_suppresses_witness :
  let m := disk_full (updater "1.0.0" false (serve [])) installed in
  let m' := snd (wantUpdate m) in
  (writes (trace m') <> writes (trace m)
   /\ can_open token m = true /\ can_write token m = false
   /\ time_Parse_RFC3339 "" = None
   /\ clock m' (S (ticks m')) < Add (clock m' (ticks m')) (1000 * Hour))
  /\ fst (wantUpdate m) = false
  /\ (exists rd, fs m' !! token = Some (Regular rd true []))
  /\ fst (wantUpdate m') = false
  /\ fs (snd (wantUpdate m')) = fs m'
  /\ writes (trace (snd (wantUpdate m'))) = writes (trace m').
Proof.
  intros m m'.
  assert (W : writes (trace m') <> writes (trace m)) by (vm_compute; discriminate).
  assert (O : can_open token m = true) by (vm_compute; reflexivity).
  assert (C : can_write token m = false) by (vm_compute; reflexivity).
  assert (P : time_Parse_RFC3339 "" = None) by (vm_compute; reflexivity).
  assert (K : clock m' (S (ticks m')) < Add (clock m' (ticks m')) (1000 * Hour))
    by (vm_compute; reflexivity).
  split; [repeat split; assumption|].
  destruct (wantUpdate_failed_write_suppresses m m' exe eq_refl W O C)
    as (rd & data & code & n & A & _ & E & F & N).
  assert (Z0 : n = 0%nat) by (vm_compute in E; now injection E as _ <-).
  subst n. cbn [take] in F, N.
  split; [exact A|]. split; [now exists rd|].
  apply N; [exact P | reflexivity | reflexivity | reflexivity | reflexivity | exact K].
Defined.

(** A development build that is forced to check. *)
Lemma BackgroundRun_dev_witness :
  let m := machine (updater "dev" true release) installed in
  let m' := snd (BackgroundRun m) in
  CurrentVersion (self m) = "dev"
  /\ urls (trace m') = urls (trace m)
  /\ installs (trace m') = installs (trace m)
  /\ writes (trace m') = writes (trace m)
  /\ (forall exe, executable m = inr exe ->
      (fst (BackgroundRun m) = None <-> can_mkdir (stateDir (self m) exe) m = true)).
Proof.
  intros m m'.
  split; [reflexivity | exact (BackgroundRun_dev m eq_refl)].
Defined.

(** A machine on which the state directory cannot be made. *)
Lemma BackgroundRun_mkdir_failure_witness :
  let m := read_only (updater "1.0.0" true release) installed in
  let dir := stateDir (self m) exe in
  (executable m = inr exe /\ can_mkdir dir m = false)
  /\ fst (BackgroundRun m)
     = Some (ErrWrap (ErrPath "mkdir" dir EACCES)
               ("Couldn't create directory for storing updates (dir=" ++ dir ++ ")"))
  /\ snd (BackgroundRun m) = located m.
Proof.
  intros m dir.
  assert (C : can_mkdir dir m = false) by (vm_compute; reflexivity).
  split; [split; [reflexivity | exact C]
         | exact (BackgroundRun_mkdir_failure m exe eq_refl C)].
Defined.

(** A first run against a server whose full binary is not the image of the
    metadata, on an executable that can be replaced and on one that
    cannot. *)
Lemma BackgroundRun_reschedules_first_witness :
  let m := machine (updater "1.0.0" false tampered) installed in
  let dir := stateDir (self m) exe in
  let m1 := made dir (located m) in
  let m2 := snd (wantUpdate m1) in
  let data := list_byte_of_string "2026-11-01T21:56:30Z" in
  (can_mkdir dir m = true /\ fst (wantUpdate m1) = true)
  /\ (exists pre rd,
        trace m2 = (trace m ++ pre ++ [EvWriteFile token data])%list
        /\ urls pre = [] /\ installs pre = [] /\ writes pre = []
        /\ fs m2 !! token = Some (Regular rd true data))
  /\ (exists post,
        trace (snd (@BackgroundRun _ can_update m)) = (trace m2 ++ post)%list
        /\ writes post = [])
  /\ fst (@BackgroundRun _ can_update m)
     = Some (Wrapf (Wrapf ErrHashMismatch "Hash mismatch" [])
               "Failed performing update even though it can" [])
  /\ @BackgroundRun _ cannot_update m
     = (Some (Wrapf (ErrNew "permission denied") "Wants to update but can't" []), m2).
Proof.
  intros m dir m1 m2 data.
  assert (C : can_mkdir dir m = true) by (vm_compute; reflexivity).
  assert (W : fst (wantUpdate m1) = true) by (vm_compute; reflexivity).
  split; [split; [exact C | exact W]|].
  destruct (@BackgroundRun_reschedules_first _ can_update m exe eq_refl C W)
    as (A & P & _ & B).
  destruct (@BackgroundRun_reschedules_first _ cannot_update m exe eq_refl C W)
    as (_ & _ & D & _).
  split; [exact A|]. split; [exact P|]. split.
  - destruct (B eq_refl) as (_ & _ & F). apply F. vm_compute. reflexivity.
  - exact (D _ eq_refl).
Defined.

(** Two updaters that differ in their Requester only. *)
Lemma patchUrl_injective_witness :
  let u := resolved release in
  let v := resolved tampered in
  (DiffURL u = DiffURL v /\ patchUrl u = patchUrl v)
  /\ CmdName u = CmdName v
  /\ CurrentVersion u = CurrentVersion v
  /\ Version (Info u) = Version (Info v).
Proof.
  intros u v.
  assert (B : DiffURL u = DiffURL v) by (vm_compute; reflexivity).
  assert (P : patchUrl u = patchUrl v) by (vm_compute; reflexivity).
  split; [split; [exact B | exact P] | exact (patchUrl_injective u v B P)].
Defined.

(** An expected digest of eleven bytes. *)
Lemma verifySha_digest_length_witness :
  let m := machine (updater "1.0.0" false release) installed in
  let sha := list_byte_of_string "hello world" in
  length sha <> sha256.Size
  /\ fst (verifySha new_image sha m) = false.
Proof.
  intros m sha.
  assert (L : length sha <> sha256.Size) by (vm_compute; discriminate).
  split; [exact L | exact (verifySha_digest_length new_image sha m L)].
Defined.

End MoreRuns.
